(** * VisRTX: frame accumulation state machine and scivis integrator

    A shallow embedding of
    - [devices/rtx/frame/Frame.cu] (commit, getProperty, renderFrame, map,
      checkAccumulationReset, newFrame),
    - the scivis renderer's OptiX programs ([__raygen__], [__anyhit__shadow],
      [computeLightConrib], [attenuation]),
    - [devices/rtx/scene/volume/TransferFunction1D.cpp] (commit, isValid,
      discritizeTFData),
    - the quad geometry (commit, generateIndices, populateBuildInput,
      isValid),
    - [devices/rtx/scene/volume/spatial_field/StructuredRegularField.cpp]
      (makeFloatStagingBuffer, commit, bounds, stepSize, isValid and the
      inverse spacing of gpuData).

    Conventions.
    - C++ [int] is a [Z] kept in the 32-bit signed range by [wrap_int];
      [uint32_t] is an [N] reduced by [wrap_u32].
    - C++ [float] is a rational ([Q]).  Where the code converts an integer
      or a [double] to [float], or divides by a converted integer (the
      inverse sample count of [newFrame], the staging buffer of a
      structured regular field), the result is the IEEE binary32 value,
      computed with [Float32] below.  Elsewhere (colours, opacities,
      distances, the sizes of [commit]) the arithmetic is exact: rounding,
      infinities and NaN are not represented there.
    - A C++ pointer that may be null is an [option]; dereferencing [None]
      is the outcome [Crashed]. *)

From Stdlib Require Import ZArith NArith QArith Qround Lqa Lia List Bool.
From Stdlib Require SpecFloat.
From stdpp Require Import base option strings gmap.
Import ListNotations.

Local Open Scope Z_scope.

(** ** Machine integers *)

Module MachineInt.

Definition INT_MAX : Z := 2147483647.
Definition INT_MIN : Z := -2147483648.

(** Two's complement reduction of a mathematical integer to [int]. *)
Definition wrap_int (z : Z) : Z := (z + 2147483648) mod 4294967296 - 2147483648.

Definition in_int (z : Z) : Prop := INT_MIN <= z <= INT_MAX.

Definition wrap_u32 (n : N) : N := (n mod 4294967296)%N.

(** A C++ [bool] promoted to [int]. *)
Definition b2i (b : bool) : Z := if b then 1 else 0.

End MachineInt.
Export MachineInt.

(** ** Single precision floats

    IEEE 754 binary32 for the places where the code converts an integer
    or a [double] to [float] or divides in [float]: the operations are
    those of the standard library's [SpecFloat] at precision 24 and
    maximal exponent 128, round to nearest, ties to even.  [toQ] is the
    value of a float as a reduced fraction; an infinity is written as
    [2^128] with its sign, a value that no float takes, and NaN, which
    these operations never produce from the arguments they get here, as
    0. *)

Module Float32.

Import SpecFloat.

Definition prec : Z := 24.
Definition emax : Z := 128.

(** Conversion of an integer, rounding to nearest, ties to even. *)
Definition of_int (z : Z) : spec_float := binary_normalize prec emax z 0 false.
Definition div (x y : spec_float) : spec_float := SFdiv prec emax x y.
Definition one : spec_float := of_int 1.

Definition pow2 (e : Z) : Q :=
  match e with
  | Z0 => 1%Q
  | Zpos p => (Zpos (2 ^ p) # 1)%Q
  | Zneg p => (1 # 2 ^ p)%Q
  end.

Definition signed (s : bool) (m : Z) : Z := if s then - m else m.

Definition value (x : spec_float) : Q :=
  match x with
  | S754_zero _ => 0%Q
  | S754_nan => 0%Q
  | S754_infinity s => (inject_Z (signed s 1) * pow2 emax)%Q
  | S754_finite s m e => (inject_Z (signed s (Zpos m)) * pow2 e)%Q
  end.

Definition toQ (x : spec_float) : Q := Qred (value x).

Definition ofQ (q : Q) : spec_float :=
  match Qnum q with
  | Z0 => S754_zero false
  | Zpos a => div (S754_finite false a 0) (S754_finite false (Qden q) 0)
  | Zneg a => div (S754_finite true a 0) (S754_finite false (Qden q) 0)
  end.

Definition narrow (q : Q) : Q := toQ (ofQ q).
Definition inverse (z : Z) : Q := toQ (div one (of_int z)).

End Float32.

(** ** ANARI data types and object parameters *)

Inductive ANARIDataType : Type :=
| ANARI_UNKNOWN
| ANARI_DATA_TYPE
| ANARI_BOOL
| ANARI_INT32
| ANARI_UINT32
| ANARI_UINT32_VEC2
| ANARI_FLOAT32
| ANARI_FLOAT32_VEC3
| ANARI_FLOAT32_VEC4
| ANARI_UFIXED8_VEC4
| ANARI_UFIXED8_RGBA_SRGB
| ANARI_RENDERER
| ANARI_CAMERA
| ANARI_WORLD
| ANARI_ARRAY1D
| ANARI_SPATIAL_FIELD
| ANARI_OTHER (code : N).

#[global] Instance ANARIDataType_eq_dec : EqDecision ANARIDataType.
Proof. solve_decision. Defined.

Inductive ANARIStatusSeverity : Type :=
| ANARI_SEVERITY_ERROR
| ANARI_SEVERITY_WARNING
| ANARI_SEVERITY_DEBUG.

(** Objects live in the device; a frame only holds (intrusive) pointers to
    them.  A pointer is a handle into the device's object tables. *)
Definition Handle : Type := positive.

(** One entry of an object's parameter list, as set by the application. *)
Inductive Param : Type :=
| ParamObject (kind : ANARIDataType) (h : Handle)
| ParamDataType (t : ANARIDataType)
| ParamUvec2 (x y : N).

(** [getParamObject<T>(name)]: the object bound under [name] when it has
    the ANARI type of [T], a null pointer otherwise. *)
Definition getParamObject (kind : ANARIDataType) (name : string)
    (ps : gmap string Param) : option Handle :=
  match ps !! name with
  | Some (ParamObject k h) => if decide (k = kind) then Some h else None
  | _ => None
  end.

(** [getParam<ANARIDataType>(name, dflt)]. *)
Definition getParamDataType (name : string) (dflt : ANARIDataType)
    (ps : gmap string Param) : ANARIDataType :=
  match ps !! name with
  | Some (ParamDataType t) => t
  | _ => dflt
  end.

(** [getParam<uvec2>(name, dflt)]. *)
Definition getParamUvec2 (name : string) (dflt : N * N)
    (ps : gmap string Param) : N * N :=
  match ps !! name with
  | Some (ParamUvec2 x y) => (wrap_u32 x, wrap_u32 y)
  | _ => dflt
  end.

(** The application has set the channel parameter [name] to [t]. *)
Definition requestedAs (ps : gmap string Param) (name : string)
    (t : ANARIDataType) : bool :=
  bool_decide (getParamDataType name ANARI_UNKNOWN ps = t).

(** The depth buffer exists: depth was asked for as [ANARI_FLOAT32], or one
    of the ID channels as [ANARI_UINT32]. *)
Definition depthAvailable (ps : gmap string Param) : bool :=
  requestedAs ps "channel.depth" ANARI_FLOAT32
  || (requestedAs ps "channel.primitiveId" ANARI_UINT32
      || requestedAs ps "channel.objectId" ANARI_UINT32
      || requestedAs ps "channel.instanceId" ANARI_UINT32).

(** The pixel type under which [map] is expected to hand out [channel] for a
    frame committed with the parameters [ps]; [None]: not handed out. *)
Definition offered (ps : gmap string Param) (channel : string)
    : option ANARIDataType :=
  let named (name : string) : bool := bool_decide (channel = name) in
  if named "channel.color" || named "channel.colorGPU"
    then Some (getParamDataType "channel.color" ANARI_UFIXED8_RGBA_SRGB ps)
  else if (named "channel.depth" || named "channel.depthGPU")
          && depthAvailable ps
    then Some ANARI_FLOAT32
  else if named "channel.primitiveId"
          && requestedAs ps "channel.primitiveId" ANARI_UINT32
    then Some ANARI_UINT32
  else if named "channel.objectId"
          && requestedAs ps "channel.objectId" ANARI_UINT32
    then Some ANARI_UINT32
  else if named "channel.instanceId"
          && requestedAs ps "channel.instanceId" ANARI_UINT32
    then Some ANARI_UINT32
  else if named "channel.normal"
          && requestedAs ps "channel.normal" ANARI_FLOAT32
    then Some ANARI_FLOAT32_VEC3
  else if named "channel.albedo"
          && requestedAs ps "channel.albedo" ANARI_FLOAT32
    then Some ANARI_FLOAT32_VEC3
  else None.

(** ** The device state a frame looks at *)

(** helium's [TimeStamp]: a counter that only grows. *)
Definition TimeStamp : Type := N.

(** What [Frame] asks of its renderer. *)
Record Renderer : Type := {
  r_isValid : bool;
  r_denoise : bool;
  r_sampleLimit : Z;
  r_spp : Z;
  r_checkerboarding : bool
}.

(** [DeviceGlobalState] after [commitBufferFlush()] and
    [uploadBuffer.flush()] have run: the two flush stamps and the committed
    state of the objects a frame points to. *)
Record DeviceGlobalState : Type := {
  commitBufferLastFlush : TimeStamp;
  uploadBuffer_lastFlush : TimeStamp;
  renderers : Handle -> Renderer;
  camera_isValid : Handle -> bool;
  world_isValid : Handle -> bool
}.

(** ** Frame data *)

Inductive FrameFormat : Type := FLOAT | UINT | SRGB | FORMAT_UNKNOWN.

(** The member buffers of a [Frame]. *)
Inductive BufferId : Type :=
| AccumColor | PixelBuffer | DepthBuffer | PrimIDBuffer | ObjIDBuffer
| InstIDBuffer | AccumAlbedo | DeviceAlbedoBuffer | MappedAlbedoBuffer
| AccumNormal | DeviceNormalBuffer | MappedNormalBuffer | DenoiserBuffer.

Inductive AddressSpace : Type := HOST | GPU.

(** A pointer to the storage of a member buffer, as [dataHost()],
    [dataDevice()] or [data()] return it.  An allocation of zero elements
    is not told apart from any other. *)
Record Pointer : Type := { p_buf : BufferId; p_space : AddressSpace }.

Record FrameBuffers : Type := {
  colorAccumulation : option Pointer;
  outColorVec4 : option Pointer;
  outColorUint : option Pointer;
  depth : option Pointer;
  primID : option Pointer;
  objID : option Pointer;
  instID : option Pointer;
  albedo : option Pointer;
  normal : option Pointer
}.

Record FramebufferGPUData : Type := {
  buffers : FrameBuffers;
  frameID : Z;
  checkerboardID : Z;
  invFrameID : Q;
  format : FrameFormat;
  size : N * N;
  invSize : Q * Q
}.

Inductive Event : Type :=
| EvMessage (severity : ANARIStatusSeverity) (msg : string)
| EvFlushCommits
| EvFlushUploads
| EvRebuildBVHs (world : Handle)
| EvRecordStart
| EvLaunch (fb : FramebufferGPUData) (width height : N)
| EvDenoise
| EvRecordEnd.

(** The result of a method that may dereference a null pointer. *)
Inductive Outcome (A : Type) : Type :=
| Crashed
| Done (a : A) (log : list Event).
Arguments Crashed {A}.
Arguments Done {A} a log.

(** The operations on buffer contents that [Frame] delegates to the GPU
    runtime, thrust and the denoiser.  [Contents] is the joint contents of
    all member buffers. *)
Class FrameStorage (Contents : Type) : Type := {
  resize : BufferId -> N -> Contents -> Contents;
  download : BufferId -> Contents -> Contents;
  (** [thrust::transform] of [src] into [dst] with [in * w] *)
  transformScaled : BufferId -> BufferId -> Q -> Contents -> Contents;
  (** [dst = src] *)
  assignBuffer : BufferId -> BufferId -> Contents -> Contents;
  denoiser_setup : N * N -> ANARIDataType -> Contents -> Contents;
  denoiser_cleanup : Contents -> Contents;
  denoiser_launch : Contents -> Contents;
  (** one integrator launch over [width] x [height] threads *)
  optixLaunch :
    DeviceGlobalState -> FramebufferGPUData -> N -> N -> Contents -> Contents
}.

(** ** [Frame] *)

Section FrameDefinitions.

Context {Contents : Type} `{FrameStorage Contents}.

(** The members of [Frame] that the methods below read or write.  [hd] is
    the host copy of the frame's GPU data; of it only [hd.fb] is modelled,
    the rest is refilled from the device state on every render. *)
Record Frame : Type := {
  params : gmap string Param;
  m_valid : bool;
  m_denoise : bool;
  m_renderer : option Handle;
  m_camera : option Handle;
  m_world : option Handle;
  m_colorType : ANARIDataType;
  m_depthType : ANARIDataType;
  m_primIDType : ANARIDataType;
  m_objIDType : ANARIDataType;
  m_instIDType : ANARIDataType;
  m_albedoType : ANARIDataType;
  m_normalType : ANARIDataType;
  m_perPixelBytes : N;
  m_nextFrameReset : bool;
  m_lastCommitOccured : TimeStamp;
  m_lastUploadOccured : TimeStamp;
  m_frameChanged : bool;
  m_frameMappedOnce : bool;
  m_invFrameID : Q;
  fb : FramebufferGPUData;
  storage : Contents
}.

Definition isValid (f : Frame) : bool := m_valid f.

Definition set_m_denoise (b : bool) (f : Frame) : Frame :=
  {| params := params f; m_valid := m_valid f; m_denoise := b;
     m_renderer := m_renderer f; m_camera := m_camera f; m_world := m_world f;
     m_colorType := m_colorType f; m_depthType := m_depthType f;
     m_primIDType := m_primIDType f; m_objIDType := m_objIDType f;
     m_instIDType := m_instIDType f; m_albedoType := m_albedoType f;
     m_normalType := m_normalType f; m_perPixelBytes := m_perPixelBytes f;
     m_nextFrameReset := m_nextFrameReset f;
     m_lastCommitOccured := m_lastCommitOccured f;
     m_lastUploadOccured := m_lastUploadOccured f;
     m_frameChanged := m_frameChanged f;
     m_frameMappedOnce := m_frameMappedOnce f;
     m_invFrameID := m_invFrameID f; fb := fb f; storage := storage f |}.

Definition set_m_frameMappedOnce (b : bool) (f : Frame) : Frame :=
  {| params := params f; m_valid := m_valid f; m_denoise := m_denoise f;
     m_renderer := m_renderer f; m_camera := m_camera f; m_world := m_world f;
     m_colorType := m_colorType f; m_depthType := m_depthType f;
     m_primIDType := m_primIDType f; m_objIDType := m_objIDType f;
     m_instIDType := m_instIDType f; m_albedoType := m_albedoType f;
     m_normalType := m_normalType f; m_perPixelBytes := m_perPixelBytes f;
     m_nextFrameReset := m_nextFrameReset f;
     m_lastCommitOccured := m_lastCommitOccured f;
     m_lastUploadOccured := m_lastUploadOccured f;
     m_frameChanged := m_frameChanged f;
     m_frameMappedOnce := b;
     m_invFrameID := m_invFrameID f; fb := fb f; storage := storage f |}.

Definition set_storage (c : Contents) (f : Frame) : Frame :=
  {| params := params f; m_valid := m_valid f; m_denoise := m_denoise f;
     m_renderer := m_renderer f; m_camera := m_camera f; m_world := m_world f;
     m_colorType := m_colorType f; m_depthType := m_depthType f;
     m_primIDType := m_primIDType f; m_objIDType := m_objIDType f;
     m_instIDType := m_instIDType f; m_albedoType := m_albedoType f;
     m_normalType := m_normalType f; m_perPixelBytes := m_perPixelBytes f;
     m_nextFrameReset := m_nextFrameReset f;
     m_lastCommitOccured := m_lastCommitOccured f;
     m_lastUploadOccured := m_lastUploadOccured f;
     m_frameChanged := m_frameChanged f;
     m_frameMappedOnce := m_frameMappedOnce f;
     m_invFrameID := m_invFrameID f; fb := fb f; storage := c |}.

(** [Frame::checkerboarding] *)
Definition checkerboarding (d : DeviceGlobalState) (f : Frame) : bool :=
  match m_renderer f with
  | Some r => r_checkerboarding (renderers d r)
  | None => false
  end.

(** [Frame::commit] *)
Definition commit (d : DeviceGlobalState) (f : Frame) : Frame * list Event :=
  let ps := params f in
  let renderer := getParamObject ANARI_RENDERER "renderer" ps in
  let camera := getParamObject ANARI_CAMERA "camera" ps in
  let world := getParamObject ANARI_WORLD "world" ps in
  let warn (o : option Handle) (msg : string) :=
    match o with
    | Some _ => []
    | None => [EvMessage ANARI_SEVERITY_WARNING msg]
    end in
  let log :=
    warn renderer "missing required parameter 'renderer' on frame"
    ++ warn camera "missing required parameter 'camera' on frame"
    ++ warn world "missing required parameter 'world' on frame" in
  let valid :=
    match renderer with
    | Some r => r_isValid (renderers d r) &&
        match camera with
        | Some c => camera_isValid d c &&
            match world with
            | Some w => world_isValid d w
            | None => false
            end
        | None => false
        end
    | None => false
    end in
  if negb valid then
    ({| params := ps; m_valid := valid; m_denoise := m_denoise f;
        m_renderer := renderer; m_camera := camera; m_world := world;
        m_colorType := m_colorType f; m_depthType := m_depthType f;
        m_primIDType := m_primIDType f; m_objIDType := m_objIDType f;
        m_instIDType := m_instIDType f; m_albedoType := m_albedoType f;
        m_normalType := m_normalType f; m_perPixelBytes := m_perPixelBytes f;
        m_nextFrameReset := m_nextFrameReset f;
        m_lastCommitOccured := m_lastCommitOccured f;
        m_lastUploadOccured := m_lastUploadOccured f;
        m_frameChanged := m_frameChanged f;
        m_frameMappedOnce := m_frameMappedOnce f;
        m_invFrameID := m_invFrameID f; fb := fb f; storage := storage f |},
     log)
  else
    let format := getParamDataType "channel.color" ANARI_UFIXED8_RGBA_SRGB ps in
    let useFloatFB :=
      m_denoise f || bool_decide (format = ANARI_FLOAT32_VEC4) in
    let fbformat :=
      if useFloatFB then FLOAT
      else if bool_decide (format = ANARI_UFIXED8_RGBA_SRGB) then SRGB
      else UINT in
    let sz := getParamUvec2 "size" (10%N, 10%N) ps in
    let depthType0 := getParamDataType "channel.depth" ANARI_UNKNOWN ps in
    let primIDType := getParamDataType "channel.primitiveId" ANARI_UNKNOWN ps in
    let objIDType := getParamDataType "channel.objectId" ANARI_UNKNOWN ps in
    let instIDType := getParamDataType "channel.instanceId" ANARI_UNKNOWN ps in
    let albedoType := getParamDataType "channel.albedo" ANARI_UNKNOWN ps in
    let normalType := getParamDataType "channel.normal" ANARI_UNKNOWN ps in
    let channelPrimID := bool_decide (primIDType = ANARI_UINT32) in
    let channelObjID := bool_decide (objIDType = ANARI_UINT32) in
    let channelInstID := bool_decide (instIDType = ANARI_UINT32) in
    let channelAlbedo := bool_decide (albedoType = ANARI_FLOAT32) in
    let channelNormal := bool_decide (normalType = ANARI_FLOAT32) in
    let channelDepth :=
      bool_decide (depthType0 = ANARI_FLOAT32) || channelPrimID
      || channelObjID || channelInstID in
    let depthType :=
      if channelDepth && negb (bool_decide (depthType0 = ANARI_FLOAT32))
      then ANARI_FLOAT32 else depthType0 in
    let numPixels := wrap_u32 (fst sz * snd sz) in
    let perPixelBytes := (4 * (if useFloatFB then 4 else 1))%N in
    let opt (b : bool) (n : N) : N := if b then n else 0%N in
    let ptr (b : bool) (id : BufferId) : option Pointer :=
      if b then Some {| p_buf := id; p_space := GPU |} else None in
    let c :=
      (if m_denoise f then denoiser_setup sz format else denoiser_cleanup)
      (resize MappedNormalBuffer (opt channelNormal numPixels)
      (resize DeviceNormalBuffer (opt channelNormal numPixels)
      (resize AccumNormal (opt channelNormal numPixels)
      (resize MappedAlbedoBuffer (opt channelAlbedo numPixels)
      (resize DeviceAlbedoBuffer (opt channelAlbedo numPixels)
      (resize AccumAlbedo (opt channelAlbedo numPixels)
      (resize InstIDBuffer (opt channelInstID numPixels)
      (resize ObjIDBuffer (opt channelObjID numPixels)
      (resize PrimIDBuffer (opt channelPrimID numPixels)
      (resize DepthBuffer (opt channelDepth numPixels)
      (resize PixelBuffer (numPixels * perPixelBytes)
      (resize AccumColor numPixels (storage f))))))))))))) in
    let bufs :=
      {| colorAccumulation := ptr true AccumColor;
         outColorVec4 := ptr useFloatFB PixelBuffer;
         outColorUint := ptr (negb useFloatFB) PixelBuffer;
         depth := ptr channelDepth DepthBuffer;
         primID := ptr channelPrimID PrimIDBuffer;
         objID := ptr channelObjID ObjIDBuffer;
         instID := ptr channelInstID InstIDBuffer;
         albedo := ptr channelAlbedo AccumAlbedo;
         normal := ptr channelNormal AccumNormal |} in
    ({| params := ps; m_valid := valid; m_denoise := m_denoise f;
        m_renderer := renderer; m_camera := camera; m_world := world;
        m_colorType := format; m_depthType := depthType;
        m_primIDType := primIDType; m_objIDType := objIDType;
        m_instIDType := instIDType; m_albedoType := albedoType;
        m_normalType := normalType; m_perPixelBytes := perPixelBytes;
        m_nextFrameReset := m_nextFrameReset f;
        m_lastCommitOccured := m_lastCommitOccured f;
        m_lastUploadOccured := m_lastUploadOccured f;
        m_frameChanged := true;
        m_frameMappedOnce := m_frameMappedOnce f;
        m_invFrameID := m_invFrameID f;
        fb := {| buffers := bufs; frameID := frameID (fb f);
                 checkerboardID := checkerboardID (fb f);
                 invFrameID := invFrameID (fb f); format := fbformat;
                 size := sz;
                 invSize := ((1 / inject_Z (Z.of_N (fst sz)))%Q,
                             (1 / inject_Z (Z.of_N (snd sz)))%Q) |};
        storage := c |},
     log).

(** [Frame::checkAccumulationReset] *)
Definition checkAccumulationReset (d : DeviceGlobalState) (f : Frame) : Frame :=
  if m_nextFrameReset f then f
  else
    let commitNewer := (m_lastCommitOccured f <? commitBufferLastFlush d)%N in
    let uploadNewer := (m_lastUploadOccured f <? uploadBuffer_lastFlush d)%N in
    {| params := params f; m_valid := m_valid f; m_denoise := m_denoise f;
       m_renderer := m_renderer f; m_camera := m_camera f;
       m_world := m_world f;
       m_colorType := m_colorType f; m_depthType := m_depthType f;
       m_primIDType := m_primIDType f; m_objIDType := m_objIDType f;
       m_instIDType := m_instIDType f; m_albedoType := m_albedoType f;
       m_normalType := m_normalType f; m_perPixelBytes := m_perPixelBytes f;
       m_nextFrameReset := commitNewer || uploadNewer;
       m_lastCommitOccured :=
         if commitNewer then commitBufferLastFlush d
         else m_lastCommitOccured f;
       m_lastUploadOccured :=
         if uploadNewer then uploadBuffer_lastFlush d
         else m_lastUploadOccured f;
       m_frameChanged := m_frameChanged f;
       m_frameMappedOnce := m_frameMappedOnce f;
       m_invFrameID := m_invFrameID f; fb := fb f; storage := storage f |}.

(** [Frame::newFrame].  [frameID + 1] is computed in [int], converted to
    [float], and [1.f] is divided by it in [float]. *)
Definition newFrame (d : DeviceGlobalState) (f : Frame) : Frame :=
  let cb := checkerboarding d f in
  let hd := fb f in
  let fid :=
    if m_nextFrameReset f then 0
    else wrap_int
           (frameID hd + b2i (negb cb || (checkerboardID hd =? 3))) in
  let cid :=
    if m_nextFrameReset f then (if cb then 0 else -1)
    else if cb then Z.land (wrap_int (checkerboardID hd + 1)) 3 else -1 in
  let inv := Float32.inverse (wrap_int (fid + 1)) in
  {| params := params f; m_valid := m_valid f; m_denoise := m_denoise f;
     m_renderer := m_renderer f; m_camera := m_camera f; m_world := m_world f;
     m_colorType := m_colorType f; m_depthType := m_depthType f;
     m_primIDType := m_primIDType f; m_objIDType := m_objIDType f;
     m_instIDType := m_instIDType f; m_albedoType := m_albedoType f;
     m_normalType := m_normalType f; m_perPixelBytes := m_perPixelBytes f;
     m_nextFrameReset := false;
     m_lastCommitOccured := m_lastCommitOccured f;
     m_lastUploadOccured := m_lastUploadOccured f;
     m_frameChanged := false;
     m_frameMappedOnce := m_frameMappedOnce f;
     m_invFrameID := inv;
     fb := {| buffers := buffers hd; frameID := fid; checkerboardID := cid;
              invFrameID := inv; format := format hd; size := size hd;
              invSize := invSize hd |};
     storage := storage f |}.

(** One pass of the sample loop of [renderFrame]: [newFrame], [upload],
    [optixLaunch]. *)
Definition renderSample (d : DeviceGlobalState) (f : Frame)
    : Frame * list Event :=
  let f' := newFrame d f in
  let sz := size (fb f') in
  let half (n : N) : N := (wrap_u32 (n + 1) / 2)%N in
  let w := if checkerboarding d f' then half (fst sz) else fst sz in
  let h := if checkerboarding d f' then half (snd sz) else snd sz in
  (set_storage (optixLaunch d (fb f') w h (storage f')) f',
   [EvLaunch (fb f') w h]).

(** [for (int i = 0; i < spp; i++) ...] *)
Fixpoint renderSamples (d : DeviceGlobalState) (spp : nat) (f : Frame)
    : Frame * list Event :=
  match spp with
  | O => (f, [])
  | S n =>
      let '(f1, l1) := renderSample d f in
      let '(f2, l2) := renderSamples d n f1 in
      (f2, l1 ++ l2)
  end.

(** The lines of [renderFrame] that follow the renderer's denoising mode:
    [m_denoise = m_renderer->denoise(); if (m_denoise != wasDenoising)
    this->commit();] *)
Definition syncDenoise (d : DeviceGlobalState) (r : Handle) (f : Frame)
    : Frame * list Event :=
  let wasDenoising := m_denoise f in
  let f1 := set_m_denoise (r_denoise (renderers d r)) f in
  if negb (Bool.eqb (m_denoise f1) wasDenoising) then commit d f1
  else (f1, []).

Definition skip_message : string :=
  "skipping render of incomplete or invalid frame object".

(** [Frame::renderFrame].  [d] is the device state as the two flushes at
    the top of the method leave it.  A commit of the frame itself that was
    waiting in the commit buffer is the separate transition [commit]. *)
Definition renderFrame (d : DeviceGlobalState) (f : Frame) : Outcome Frame :=
  match m_world f with
  | None => Crashed (* m_world->rebuildBVHs() *)
  | Some w =>
    let pre := [EvFlushCommits; EvFlushUploads; EvRebuildBVHs w] in
    if negb (isValid f) then
      Done f (pre ++ [EvMessage ANARI_SEVERITY_ERROR skip_message])
    else
      match m_renderer f with
      | None => Crashed (* m_renderer->denoise() *)
      | Some r =>
        let '(f2, lc) := syncDenoise d r f in
        let f3 := set_m_frameMappedOnce false f2 in
        let f4 := checkAccumulationReset d f3 in
        match m_renderer f4 with
        | None => Crashed (* m_renderer->sampleLimit() *)
        | Some r' =>
          let sampleLimit := r_sampleLimit (renderers d r') in
          if negb (m_nextFrameReset f4) && (0 <? sampleLimit)
             && (sampleLimit <=? frameID (fb f4))
          then Done f4 (pre ++ lc)
          else
            match m_camera f4, m_world f4 with
            | Some _, Some _ =>
              let spp := Z.max (r_spp (renderers d r')) 1 in
              let '(f5, ls) := renderSamples d (Z.to_nat spp) f4 in
              let f6 :=
                if m_denoise f5
                then set_storage (denoiser_launch (storage f5)) f5
                else f5 in
              Done f6
                (pre ++ lc ++ [EvRecordStart] ++ ls
                 ++ (if m_denoise f5 then [EvDenoise] else [])
                 ++ [EvRecordEnd])
            | _, _ => Crashed (* m_camera->deviceData(), m_world->... *)
            end
        end
      end
  end.

(** What [Frame::map] hands back: the returned pointer and the three
    output arguments ([None]: not written). *)
Record Mapping : Type := {
  retval : option Pointer;
  width : option N;
  height : option N;
  pixelType : ANARIDataType
}.

Definition host (id : BufferId) : option Pointer :=
  Some {| p_buf := id; p_space := HOST |}.
Definition device (id : BufferId) : option Pointer :=
  Some {| p_buf := id; p_space := GPU |}.

Definition mapColorBuffer (f : Frame) : Frame * option Pointer :=
  if m_denoise f then (set_m_frameMappedOnce true f, host DenoiserBuffer)
  else
    (set_m_frameMappedOnce true
       (set_storage (download PixelBuffer (storage f)) f),
     host PixelBuffer).

Definition mapGPUColorBuffer (f : Frame) : Frame * option Pointer :=
  (set_m_frameMappedOnce true f,
   if m_denoise f then device DenoiserBuffer else device PixelBuffer).

(** The common body of [mapDepthBuffer], [mapPrimIDBuffer],
    [mapObjIDBuffer] and [mapInstIDBuffer]: download, then hand out the
    host copy. *)
Definition mapDownloaded (id : BufferId) (f : Frame) : Frame * option Pointer :=
  (set_m_frameMappedOnce true (set_storage (download id (storage f)) f),
   host id).

Definition mapDepthBuffer (f : Frame) : Frame * option Pointer :=
  mapDownloaded DepthBuffer f.
Definition mapPrimIDBuffer (f : Frame) : Frame * option Pointer :=
  mapDownloaded PrimIDBuffer f.
Definition mapObjIDBuffer (f : Frame) : Frame * option Pointer :=
  mapDownloaded ObjIDBuffer f.
Definition mapInstIDBuffer (f : Frame) : Frame * option Pointer :=
  mapDownloaded InstIDBuffer f.

Definition mapGPUDepthBuffer (f : Frame) : Frame * option Pointer :=
  (set_m_frameMappedOnce true f, device DepthBuffer).

(** The common body of [mapAlbedoBuffer] and [mapNormalBuffer]: scale the
    accumulated sums by [m_invFrameID] into the device buffer, copy that
    into the mapped buffer and hand it out. *)
Definition mapScaled (accum dev mapped : BufferId) (f : Frame)
    : Frame * option Pointer :=
  (set_m_frameMappedOnce true
     (set_storage
        (assignBuffer mapped dev
           (transformScaled accum dev (m_invFrameID f) (storage f))) f),
   host mapped).

Definition mapAlbedoBuffer (f : Frame) : Frame * option Pointer :=
  mapScaled AccumAlbedo DeviceAlbedoBuffer MappedAlbedoBuffer f.
Definition mapNormalBuffer (f : Frame) : Frame * option Pointer :=
  mapScaled AccumNormal DeviceNormalBuffer MappedNormalBuffer f.

(** [Frame::map] *)
Definition map (channel : string) (f : Frame) : Frame * Mapping :=
  let channelDepth := bool_decide (m_depthType f = ANARI_FLOAT32) in
  let channelPrimID := bool_decide (m_primIDType f = ANARI_UINT32) in
  let channelObjID := bool_decide (m_objIDType f = ANARI_UINT32) in
  let channelInstID := bool_decide (m_instIDType f = ANARI_UINT32) in
  let channelAlbedo := bool_decide (m_albedoType f = ANARI_FLOAT32) in
  let channelNormal := bool_decide (m_normalType f = ANARI_FLOAT32) in
  let named (name : string) : bool := bool_decide (channel = name) in
  let '(type, (f', ret)) :=
    if named "channel.color" then (m_colorType f, mapColorBuffer f)
    else if named "channel.colorGPU" then (m_colorType f, mapGPUColorBuffer f)
    else if channelDepth && named "channel.depth"
      then (ANARI_FLOAT32, mapDepthBuffer f)
    else if channelDepth && named "channel.depthGPU"
      then (ANARI_FLOAT32, mapGPUDepthBuffer f)
    else if channelPrimID && named "channel.primitiveId"
      then (ANARI_UINT32, mapPrimIDBuffer f)
    else if channelObjID && named "channel.objectId"
      then (ANARI_UINT32, mapObjIDBuffer f)
    else if channelInstID && named "channel.instanceId"
      then (ANARI_UINT32, mapInstIDBuffer f)
    else if channelNormal && named "channel.normal"
      then (ANARI_FLOAT32_VEC3, mapNormalBuffer f)
    else if channelAlbedo && named "channel.albedo"
      then (ANARI_FLOAT32_VEC3, mapAlbedoBuffer f)
    else (ANARI_UNKNOWN, (f, None)) in
  let written := negb (bool_decide (type = ANARI_UNKNOWN)) in
  (f', {| retval := ret;
          width := if written then Some (fst (size (fb f'))) else None;
          height := if written then Some (snd (size (fb f'))) else None;
          pixelType := type |}).

(** The part of a frame that decides about resets and counts samples. *)
Definition accumulation (f : Frame)
    : bool * TimeStamp * TimeStamp * (Z * Z * Q) * Q :=
  (m_nextFrameReset f, m_lastCommitOccured f, m_lastUploadOccured f,
   (frameID (fb f), checkerboardID (fb f), invFrameID (fb f)),
   m_invFrameID f).

(** A reset is pending once [checkAccumulationReset] has run: the flag was
    set already, or a flush stamp is ahead of the frame's copy. *)
Definition resetPending (d : DeviceGlobalState) (f : Frame) : bool :=
  m_nextFrameReset f
  || (m_lastCommitOccured f <? commitBufferLastFlush d)%N
  || (m_lastUploadOccured f <? uploadBuffer_lastFlush d)%N.

(** What every [renderFrame] call does before it looks at the frame. *)
Definition flushLog (w : Handle) : list Event :=
  [EvFlushCommits; EvFlushUploads; EvRebuildBVHs w].

(** The frame as [renderFrame] holds it when it reaches the sample limit
    test. *)
Definition prepared (d : DeviceGlobalState) (r : Handle) (f : Frame) : Frame :=
  checkAccumulationReset d
    (set_m_frameMappedOnce false (fst (syncDenoise d r f))).

(** Every renderer of the device takes one sample per pixel and per call
    and has checkerboarding switched off. *)
Definition singleSample (d : DeviceGlobalState) : Prop :=
  forall r, r_spp (renderers d r) <= 1
            /\ r_checkerboarding (renderers d r) = false.

End FrameDefinitions.

Arguments Frame Contents : clear implicits.

(** ** A concrete buffer store: the history of operations applied to it *)

Inductive StorageOp : Type :=
| OpResize (id : BufferId) (n : N)
| OpDownload (id : BufferId)
| OpTransformScaled (src dst : BufferId) (w : Q)
| OpAssign (dst src : BufferId)
| OpDenoiserSetup (sz : N * N) (t : ANARIDataType)
| OpDenoiserCleanup
| OpDenoiserLaunch
| OpLaunch (fb : FramebufferGPUData) (width height : N).

#[global] Instance history_storage : FrameStorage (list StorageOp) := {|
  resize id n c := OpResize id n :: c;
  download id c := OpDownload id :: c;
  transformScaled src dst w c := OpTransformScaled src dst w :: c;
  assignBuffer dst src c := OpAssign dst src :: c;
  denoiser_setup sz t c := OpDenoiserSetup sz t :: c;
  denoiser_cleanup c := OpDenoiserCleanup :: c;
  denoiser_launch c := OpDenoiserLaunch :: c;
  optixLaunch _ fb w h c := OpLaunch fb w h :: c
|}.

Module Demo.

(** A device with one renderer (handle 1), one camera (2), one world (3). *)
Definition renderer (cb : bool) (limit : Z) : Renderer :=
  {| r_isValid := true; r_denoise := false; r_sampleLimit := limit;
     r_spp := 1; r_checkerboarding := cb |}.

Definition device (cb : bool) (limit : Z) (tc tu : TimeStamp)
    : DeviceGlobalState :=
  {| commitBufferLastFlush := tc; uploadBuffer_lastFlush := tu;
     renderers := fun _ => renderer cb limit;
     camera_isValid := fun _ => true; world_isValid := fun _ => true |}.

Definition noBuffers : FrameBuffers :=
  {| colorAccumulation := None; outColorVec4 := None; outColorUint := None;
     depth := None; primID := None; objID := None; instID := None;
     albedo := None; normal := None |}.

(** A frame object holding the parameters [ps] before its first commit.
    The member values are sample inputs: the class declaration with the
    member initialisers is not among the sources at hand. *)
Definition fresh (ps : gmap string Param) : Frame (list StorageOp) :=
  {| params := ps; m_valid := false; m_denoise := false;
     m_renderer := None; m_camera := None; m_world := None;
     m_colorType := ANARI_UNKNOWN; m_depthType := ANARI_UNKNOWN;
     m_primIDType := ANARI_UNKNOWN; m_objIDType := ANARI_UNKNOWN;
     m_instIDType := ANARI_UNKNOWN; m_albedoType := ANARI_UNKNOWN;
     m_normalType := ANARI_UNKNOWN; m_perPixelBytes := 0%N;
     m_nextFrameReset := true;
     m_lastCommitOccured := 0%N; m_lastUploadOccured := 0%N;
     m_frameChanged := false; m_frameMappedOnce := false;
     m_invFrameID := 1%Q;
     fb := {| buffers := noBuffers; frameID := 0; checkerboardID := -1;
              invFrameID := 1%Q; format := FORMAT_UNKNOWN;
              size := (0%N, 0%N); invSize := (0%Q, 0%Q) |};
     storage := [] |}.

Definition bound : gmap string Param :=
  <["renderer" := ParamObject ANARI_RENDERER 1%positive]>
  (<["camera" := ParamObject ANARI_CAMERA 2%positive]>
  (<["world" := ParamObject ANARI_WORLD 3%positive]> ∅)).

(** The same frame without a world. *)
Definition unbound_world : gmap string Param :=
  <["renderer" := ParamObject ANARI_RENDERER 1%positive]>
  (<["camera" := ParamObject ANARI_CAMERA 2%positive]> ∅).

(** Committed with renderer, camera and world and default channels. *)
Definition committed (cb : bool) : Frame (list StorageOp) :=
  fst (commit (device cb 0 1%N 1%N) (fresh bound)).

(** The frame and the log a call leaves; the frame itself if it crashed. *)
Definition frameAfter (o : Outcome (Frame (list StorageOp)))
    (f : Frame (list StorageOp)) : Frame (list StorageOp) :=
  match o with Done f' _ => f' | Crashed => f end.
Definition logAfter (o : Outcome (Frame (list StorageOp))) : list Event :=
  match o with Done _ l => l | Crashed => [] end.

(** [n] successive [renderFrame] calls with the device state [d]. *)
Fixpoint rendered (d : DeviceGlobalState) (n : nat)
    (f : Frame (list StorageOp)) : Frame (list StorageOp) :=
  match n with
  | O => f
  | S n' => rendered d n' (frameAfter (renderFrame d f) f)
  end.

(** Renderer, camera and world bound, and the object ID channel requested;
    depth is not requested. *)
Definition with_objectId : gmap string Param :=
  <["channel.objectId" := ParamDataType ANARI_UINT32]> bound.

End Demo.

(** ** The scivis renderer's OptiX programs *)

Module SciVis.

Local Open Scope Q_scope.

Record vec3 : Type := mk_vec3 { vx : Q; vy : Q; vz : Q }.

Definition splat (q : Q) : vec3 := mk_vec3 q q q.
Definition vadd (a b : vec3) : vec3 :=
  mk_vec3 (vx a + vx b) (vy a + vy b) (vz a + vz b).
Definition vmul (a b : vec3) : vec3 :=
  mk_vec3 (vx a * vx b) (vy a * vy b) (vz a * vz b).
Definition vscale (a : vec3) (s : Q) : vec3 :=
  mk_vec3 (vx a * s) (vy a * s) (vz a * s).
Definition vneg (a : vec3) : vec3 := mk_vec3 (- vx a) (- vy a) (- vz a).
Definition dot (a b : vec3) : Q := vx a * vx b + vy a * vy b + vz a * vz b.

(** [a < b] on floats. *)
Definition Qltb (a b : Q) : bool := negb (Qle_bool b a).

(** The saturation threshold [0.99f]. *)
Definition saturation : Q := 99 # 100.

(** [~0u] *)
Definition NO_ID : N := 4294967295%N.

Record box1 : Type := { lower : Q; upper : Q }.

Record Ray : Type := { org : vec3; dir : vec3; t : box1 }.

Record MaterialValues : Type := { baseColor : vec3; opacity : Q }.

Module Surf.
Record SurfaceHit : Type := {
  t : Q;
  Ng : vec3;
  Ns : vec3;
  hitpoint : vec3;
  epsilon : Q;
  material : Handle;
  primID : N;
  objID : N;
  instID : N
}.
End Surf.
Abbreviation SurfaceHit := Surf.SurfaceHit.

(** What [rayMarchAllVolumes] leaves in its output arguments [color],
    [opacity], [objID], [instID] (entered as 0, 0, [~0u], [~0u] at both
    call sites) and its return value, the depth of the first sample. *)
Record VolumeMarch : Type := {
  vDepth : Q;
  vColor : vec3;
  vOpacity : Q;
  vObjID : N;
  vInstID : N
}.

Record LightSample : Type := { ls_radiance : vec3; ls_dir : vec3; ls_dist : Q }.

(** Modelled from the spec: [accumulateValue(a, b, interp)] of the shading
    headers, the front-to-back "over" step [a += b * (1 - interp)]. *)
Definition accumulateValue (a b interp : Q) : Q := a + b * (1 - interp).
Definition accumulateValue3 (a b : vec3) (interp : Q) : vec3 :=
  vadd a (vscale b (1 - interp)).

(** What an any-hit program tells the traversal. *)
Inductive AnyHit : Type := TerminateRay | IgnoreIntersection | AcceptHit.

(** The local variables of [__raygen__] that live across loop iterations. *)
Record Locals : Type := {
  ray : Ray;
  outputColor : vec3;
  outputNormal : vec3;
  outputOpacity : Q;
  depth : Q;
  primID : N;
  objID : N;
  instID : N;
  firstHit : bool
}.

(** What the integrator does to the scene, in program order. *)
Inductive TraceEvent : Type :=
| TrIntersect (r : Ray)
| TrMarch (r : Ray) (tfar : Q)
| TrShade (h : SurfaceHit)
| TrBackground.

(** Device code: it receives the per-pixel [ScreenSample] (random number
    state included) by reference and may advance it. *)
Definition Dev (ScreenSample A : Type) : Type :=
  ScreenSample -> A * ScreenSample.
Definition ret {S A} (a : A) : Dev S A := fun ss => (a, ss).
Definition bind {S A B} (m : Dev S A) (k : A -> Dev S B) : Dev S B :=
  fun ss => let '(a, ss') := m ss in k a ss'.

Notation "'call' x <- m 'in' k" := (bind m (fun x => k))
  (at level 10, x name, m at level 100, k at level 200, only parsing).

(** What the programs take from the launch parameters and call in the
    shading headers and in OptiX. *)
Class ShadingAPI (ScreenSample VolumeHit : Type) : Type := {
  lightFalloff : Q;
  aoSamples : Z;
  ambientColor : vec3;
  ambientIntensity : Q;
  (** [getBackground(frameData.renderer, ss.screen)] for this pixel *)
  background : vec3 * Q;
  (** [world.lightInstances]: per instance, its light indices *)
  lightInstances : list (list Handle);
  (** lower bound of a default-constructed [Ray] *)
  ray_t_lower : Q;
  (** nearest surface hit inside [r.t]; [None] leaves [foundHit] false *)
  intersectSurface : Ray -> Dev ScreenSample (option SurfaceHit);
  rayMarchAllVolumes : Ray -> Q -> Dev ScreenSample VolumeMarch;
  getMaterialValues : SurfaceHit -> MaterialValues;
  computeAO : Ray -> SurfaceHit -> Dev ScreenSample Q;
  sampleLight : SurfaceHit -> Handle -> Dev ScreenSample LightSample;
  (** The intersections a shadow ray has with surfaces, and with volume
      bounds, in the order the traversal reports them; each with the
      distance it is reported at. *)
  surfaceCandidates : Ray -> list SurfaceHit;
  volumeCandidates : Ray -> list VolumeHit;
  volume_t : VolumeHit -> Q;
  (** [rayMarchVolume(ss, hit, opacity)] with [opacity] in and out *)
  rayMarchVolume : VolumeHit -> Q -> Dev ScreenSample Q
}.

Section Programs.

Context {ScreenSample VolumeHit : Type} {api : ShadingAPI ScreenSample VolumeHit}.

Local Abbreviation Dev := (Dev ScreenSample).

(** *** Traversal with an any-hit program

    [optixTrace] walks the candidate intersections.  A candidate beyond the
    current far end of the ray is not reported.  [optixTerminateRay] stops
    the walk, [optixIgnoreIntersection] moves on, and a hit that is
    accepted becomes the new far end.  The second component lists the
    candidates the any-hit program ran on. *)
Fixpoint optixTrace {H P : Type} (dist : H -> Q)
    (anyhit : H -> P -> Dev (P * AnyHit))
    (tmax : Q) (cands : list H) (payload : P) : Dev (P * list H) :=
  match cands with
  | [] => ret (payload, [])
  | h :: rest =>
      if Qltb (dist h) tmax then
        call pa <- anyhit h payload in
        match snd pa with
        | TerminateRay => ret (fst pa, [h])
        | IgnoreIntersection =>
            call r <- optixTrace dist anyhit tmax rest (fst pa) in
            ret (fst r, h :: snd r)
        | AcceptHit =>
            call r <- optixTrace dist anyhit (dist h) rest (fst pa) in
            ret (fst r, h :: snd r)
        end
      else optixTrace dist anyhit tmax rest payload
  end.

(** [__anyhit__shadow], the branch for a surface: the payload is the
    [occluded] word. *)
Definition anyhit_shadow_surface (hit : SurfaceHit) (occluded : bool)
    : Dev (bool * AnyHit) :=
  let matValues := getMaterialValues hit in
  if negb (Qltb (opacity matValues) saturation)
  then ret (true, TerminateRay)
  else ret (occluded, IgnoreIntersection).

(** [__anyhit__shadow], the branch for a volume: the payload is
    [RayAttenuation::attenuation]. *)
Definition anyhit_shadow_volume (hit : VolumeHit) (att : Q)
    : Dev (Q * AnyHit) :=
  call att' <- rayMarchVolume hit att in
  if Qltb att' saturation then ret (att', IgnoreIntersection)
  else ret (att', AcceptHit).

(** Modelled from the spec: [isOccluded(ss, r, RayType::SHADOW)] of the
    shading headers, the occlusion query over the surfaces along [r] up to
    [r.t.upper] whose any-hit program is [__anyhit__shadow]; it answers
    with the [occluded] payload, initially false. *)
Definition shadowTrace (r : Ray) : Dev (bool * list SurfaceHit) :=
  optixTrace Surf.t anyhit_shadow_surface (upper (t r))
    (surfaceCandidates r) false.

Definition isOccluded (r : Ray) : Dev bool :=
  call o <- shadowTrace r in ret (fst o).

(** [attenuation]: [intersectVolume] over the volumes along [r] with a
    zeroed [RayAttenuation] payload. *)
Definition attenuation (r : Ray) : Dev Q :=
  call a <- optixTrace volume_t anyhit_shadow_volume (upper (t r))
         (volumeCandidates r) 0 in
  ret (fst a).

(** The shadow ray a light sample is tested with. *)
Definition shadowRay (shadePoint : vec3) (ls : LightSample) : Ray :=
  {| org := shadePoint; dir := ls_dir ls;
     t := {| lower := ray_t_lower; upper := ls_dist ls |} |}.

(** The body of the inner loop of [computeLightConrib] for the light
    [light]: what is added to [contrib]. *)
Definition lightContrib (hit : SurfaceHit) (shadePoint : vec3) (light : Handle)
    : Dev (option vec3) :=
  call ls <- sampleLight hit light in
  let r := shadowRay shadePoint ls in
  call occ <- isOccluded r in
  if negb occ then
    call a <- attenuation r in
    ret (Some (vscale
                 (vscale (vscale (ls_radiance ls) (dot (ls_dir ls) (Surf.Ns hit)))
                         lightFalloff)
                 (1 - a)))
  else ret None.

Fixpoint sumLights (hit : SurfaceHit) (shadePoint : vec3) (lights : list Handle)
    (contrib : vec3) : Dev vec3 :=
  match lights with
  | [] => ret contrib
  | l :: rest =>
      call c <- lightContrib hit shadePoint l in
      sumLights hit shadePoint rest
        match c with Some v => vadd contrib v | None => contrib end
  end.

(** [computeLightConrib] *)
Definition computeLightConrib (hit : SurfaceHit) : Dev vec3 :=
  let shadePoint :=
    vadd (Surf.hitpoint hit) (vscale (Surf.Ns hit) (Surf.epsilon hit)) in
  sumLights hit shadePoint (concat lightInstances) (splat 0).

(** *** [__raygen__] *)

Definition initial (r : Ray) : Locals :=
  {| ray := r; outputColor := splat 0; outputNormal := dir r;
     outputOpacity := 0; depth := 1000000000000000000000000000000 # 1;
     primID := NO_ID; objID := NO_ID; instID := NO_ID; firstHit := true |}.

(** The ray as the loop body sees it after [ray.t.upper = tmax]. *)
Definition clipped (tmax : Q) (l : Locals) : Ray :=
  {| org := org (ray l); dir := dir (ray l);
     t := {| lower := lower (t (ray l)); upper := tmax |} |}.

(** The branch [if (surfaceHit.foundHit)] of the loop body. *)
Definition surfaceStep (tmax : Q) (l : Locals) (surfaceHit : SurfaceHit)
    : Dev Locals :=
  let r := clipped tmax l in
  call vm <- rayMarchAllVolumes r (Surf.t surfaceHit) in
  let volumeFirst := Qltb (vDepth vm) (Surf.t surfaceHit) in
  let attributed (fromVolume fromSurface old : N) : N :=
    if firstHit l then (if volumeFirst then fromVolume else fromSurface)
    else old in
  let matValues := getMaterialValues surfaceHit in
  call ao <- (if (0 <? aoSamples)%Z then computeAO r surfaceHit else ret 1) in
  let aoFactor := ao * ambientIntensity in
  call lc <- computeLightConrib surfaceHit in
  let color :=
    accumulateValue3 (vColor vm)
      (vmul (baseColor matValues)
         (vadd lc (vscale (vscale ambientColor aoFactor) lightFalloff)))
      (vOpacity vm) in
  let opacity' := accumulateValue (vOpacity vm) (opacity matValues) (vOpacity vm) in
  let color := vscale color opacity' in
  ret {| ray := {| org := org r; dir := dir r;
                   t := {| lower := Surf.t surfaceHit + Surf.epsilon surfaceHit;
                           upper := tmax |} |};
         outputColor := accumulateValue3 (outputColor l) color (outputOpacity l);
         outputNormal :=
           if firstHit l
           then (if volumeFirst then vneg (dir r) else Surf.Ng surfaceHit)
           else outputNormal l;
         outputOpacity :=
           accumulateValue (outputOpacity l) opacity' (outputOpacity l);
         depth :=
           if firstHit l
           then (if volumeFirst then vDepth vm else Surf.t surfaceHit)
           else depth l;
         primID := attributed 0%N (Surf.primID surfaceHit) (primID l);
         objID := attributed (vObjID vm) (Surf.objID surfaceHit) (objID l);
         instID := attributed (vInstID vm) (Surf.instID surfaceHit) (instID l);
         firstHit := false |}.

(** The [else] branch of the loop body, which ends in [break]. *)
Definition missStep (tmax : Q) (l : Locals) : Dev Locals :=
  let r := clipped tmax l in
  call vm <- rayMarchAllVolumes r tmax in
  let color := vscale (vColor vm) (vOpacity vm) in
  let color := accumulateValue3 color (fst background) (vOpacity vm) in
  let opacity' := accumulateValue (vOpacity vm) (snd background) (vOpacity vm) in
  ret {| ray := r;
         outputColor := accumulateValue3 (outputColor l) color (outputOpacity l);
         outputNormal := outputNormal l;
         outputOpacity :=
           accumulateValue (outputOpacity l) opacity' (outputOpacity l);
         depth :=
           if firstHit l
           then (if Qltb (vDepth vm) (depth l) then vDepth vm else depth l)
           else depth l;
         primID := if firstHit l then 0%N else primID l;
         objID := if firstHit l then vObjID vm else objID l;
         instID := if firstHit l then vInstID vm else instID l;
         firstHit := firstHit l |}.

(** [while (outputOpacity < 0.99f) { ... }].  [None]: the loop is still
    running when [fuel] iterations are used up. *)
Fixpoint integrate (fuel : nat) (tmax : Q) (l : Locals)
    : Dev (option (Locals * list TraceEvent)) :=
  if Qltb (outputOpacity l) saturation then
    match fuel with
    | O => ret None
    | S fuel' =>
        let r := clipped tmax l in
        call found <- intersectSurface r in
        match found with
        | Some surfaceHit =>
            call l' <- surfaceStep tmax l surfaceHit in
            call rest <- integrate fuel' tmax l' in
            ret (match rest with
                 | Some (l'', evs) =>
                     Some (l'', TrIntersect r
                                  :: TrMarch r (Surf.t surfaceHit)
                                  :: TrShade surfaceHit :: evs)
                 | None => None
                 end)
        | None =>
            call l' <- missStep tmax l in
            ret (Some (l', [TrIntersect r; TrMarch r tmax; TrBackground]))
        end
    end
  else ret (Some (l, [])).

(** [__raygen__] for a pixel inside the frame, from the primary ray to the
    arguments of [accumResults]. *)
Definition raygen (fuel : nat) (primary : Ray)
    : Dev (option (Locals * list TraceEvent)) :=
  integrate fuel (upper (t primary)) (initial primary).

(** A shadow hit that ends the shadow ray: [matValues.opacity >= 0.99f]. *)
Definition opaqueHit (hit : SurfaceHit) : bool :=
  negb (Qltb (opacity (getMaterialValues hit)) saturation).

End Programs.

(** *** A scene of stacked surfaces

    The surfaces a ray meets are listed with their distances; there are no
    volumes and no lights, and the material of every surface has the
    opacity [alpha] assigns to it. *)
Module Stack.

(** The hit with the smallest distance inside [[lower, upper)]. *)
Fixpoint nearestHit (lo hi : Q) (surfs : list SurfaceHit) : option SurfaceHit :=
  match surfs with
  | [] => None
  | s :: rest =>
      let inside := negb (Qltb (Surf.t s) lo) && Qltb (Surf.t s) hi in
      match nearestHit lo hi rest with
      | Some best =>
          if inside && negb (Qltb (Surf.t best) (Surf.t s)) then Some s
          else Some best
      | None => if inside then Some s else None
      end
  end.

Definition surfaceAt (distance : Q) (id : N) : SurfaceHit :=
  {| Surf.t := distance; Surf.Ng := mk_vec3 0 0 (-1); Surf.Ns := mk_vec3 0 0 (-1);
     Surf.hitpoint := mk_vec3 0 0 distance; Surf.epsilon := 1 # 1000;
     Surf.material := 1%positive;
     Surf.primID := id; Surf.objID := id; Surf.instID := 0%N |}.

(** [volume]: the depth of the first volume sample along the primary ray
    together with the volume's object and instance ID, if the ray crosses
    a volume. *)
Definition scene (surfs : list SurfaceHit) (alpha : SurfaceHit -> Q)
    (volume : option (Q * N * N)) : ShadingAPI unit unit := {|
  lightFalloff := 1;
  aoSamples := 0;
  ambientColor := splat 1;
  ambientIntensity := 1;
  background := (splat 0, 0);
  lightInstances := [];
  ray_t_lower := 0;
  intersectSurface r := ret (nearestHit (lower (t r)) (upper (t r)) surfs);
  rayMarchAllVolumes r tfar :=
    ret match volume with
        | Some (d, obj, inst) =>
            if Qltb d tfar
            then {| vDepth := d; vColor := splat (1 # 2); vOpacity := 1 # 10;
                    vObjID := obj; vInstID := inst |}
            else {| vDepth := tfar; vColor := splat 0; vOpacity := 0;
                    vObjID := NO_ID; vInstID := NO_ID |}
        | None => {| vDepth := tfar; vColor := splat 0; vOpacity := 0;
                     vObjID := NO_ID; vInstID := NO_ID |}
        end;
  getMaterialValues h := {| baseColor := splat 1; opacity := alpha h |};
  computeAO _ _ := ret 1;
  sampleLight _ _ :=
    ret {| ls_radiance := splat 1; ls_dir := mk_vec3 0 0 (-1); ls_dist := 10 |};
  surfaceCandidates r :=
    List.filter (fun s => negb (Qltb (Surf.t s) (lower (t r)))) surfs;
  volumeCandidates _ := [];
  volume_t _ := 0;
  rayMarchVolume _ a := ret a
|}.

Definition primary : Ray :=
  {| org := mk_vec3 0 0 0; dir := mk_vec3 0 0 1;
     t := {| lower := 0; upper := 100 |} |}.

(** Three fully opaque surfaces at distances 1, 2 and 3, listed out of
    order. *)
Definition three_opaque : ShadingAPI unit unit :=
  scene [surfaceAt 3 30; surfaceAt 1 10; surfaceAt 2 20]
    (fun _ => 1) None.

(** A surface at distance [s] and a volume whose first sample lies at
    distance [v]. *)
Definition surface_and_volume (s v : Q) : ShadingAPI unit unit :=
  scene [surfaceAt s 7] (fun _ => 1) (Some (v, 42%N, 9%N)).


(** Only a half transparent surface between shade point and light. *)
Definition veil : ShadingAPI unit unit :=
  scene [surfaceAt 2 1] (fun _ => 1 # 2) None.

(** The locals a finished [raygen] hands to [accumResults]. *)
Definition reported (res : option (Locals * list TraceEvent) * unit) : Locals :=
  match fst res with
  | Some (l, _) => l
  | None => initial primary
  end.

Definition traced (res : option (Locals * list TraceEvent) * unit)
    : list TraceEvent :=
  match fst res with
  | Some (_, evs) => evs
  | None => []
  end.

End Stack.

End SciVis.

(** ** [TransferFunction1D] *)

Module TransferFunction1D.

Import SciVis.

(** [m_params] after the [getParam] calls at the top of [commit].  An
    [Array1D] is the list of its elements; an unset array parameter is a
    null pointer. *)
Record Params : Type := {
  color : option (list vec3);
  colorPosition : option (list Q);
  opacity : option (list Q);
  opacityPosition : option (list Q);
  densityScale : Q;
  field : option Handle;
  valueRange : box1
}.

Inductive CommitResult : Type :=
| Rejected (severity : ANARIStatusSeverity) (msg : string)
| NullDereference
| Committed (m_tf : list (vec3 * Q)).

Section Discretize.

(** [m_tfDim] *)
Variable m_tfDim : nat.
(** [utility/colorMapHelpers.h] *)
Variable generateLinearPositions : nat -> box1 -> list Q.
Variable getInterpolatedValue : forall {A : Type}, list A -> list Q -> box1 -> Q -> A.

(** [TransferFunction1D::discritizeTFData]; [None] when it reads through a
    null pointer. *)
Definition discritizeTFData (p : Params) : option (list (vec3 * Q)) :=
  match color p, opacity p with
  | Some colors, Some opacities =>
      let cPositions :=
        match colorPosition p with
        | Some a => a
        | None => generateLinearPositions (length colors) (valueRange p)
        end in
      let oPositions :=
        match colorPosition p with
        | Some _ => opacityPosition p (* m_params.opacityPosition->beginAs *)
        | None =>
            Some (generateLinearPositions (length opacities) (valueRange p))
        end in
      match oPositions with
      | Some oPositions =>
          Some (List.map
                  (fun i =>
                     let x := (inject_Z (Z.of_nat i)
                               / inject_Z (Z.of_nat m_tfDim - 1))%Q in
                     (getInterpolatedValue colors cPositions (valueRange p) x,
                      getInterpolatedValue opacities oPositions (valueRange p) x))
                  (seq 0 m_tfDim))
      | None => None
      end
  | _, _ => None
  end.

(** The parameter checks of [TransferFunction1D::commit]: the message of
    the first check that fails. *)
Definition checkParams (p : Params) : option (ANARIStatusSeverity * string) :=
  let differ {A B} (a : option (list A)) (b : option (list B)) : bool :=
    match a, b with
    | Some x, Some y => negb (length x =? length y)%nat
    | _, _ => false
    end in
  match field p, color p, opacity p with
  | None, _, _ =>
      Some (ANARI_SEVERITY_WARNING,
            "missing parameter 'field' on transferFunction1D ANARIVolume")
  | _, None, _ =>
      Some (ANARI_SEVERITY_WARNING,
            "missing parameter 'color' on transferFunction1D ANARIVolume")
  | _, _, None =>
      Some (ANARI_SEVERITY_WARNING,
            "missing parameter 'opacity' on transferFunction1D ANARIVolume")
  | _, _, _ =>
      if differ (color p) (colorPosition p) then
        Some (ANARI_SEVERITY_ERROR,
              "TransferFunction1D 'color' and 'color.position' arrays are of different size")
      else if differ (opacity p) (opacityPosition p) then
        Some (ANARI_SEVERITY_ERROR,
              "TransferFunction1D 'opacity' and 'opacity.position' arrays are of different size")
      else None
  end.

(** [TransferFunction1D::commit] up to the table it uploads. *)
Definition commit (p : Params) : CommitResult :=
  match checkParams p with
  | Some (sev, msg) => Rejected sev msg
  | None =>
      match discritizeTFData p with
      | Some tf => Committed tf
      | None => NullDereference
      end
  end.

End Discretize.

(** 'field', 'color', 'opacity' and 'color.position' set, 'opacity.position'
    left unset. *)
Definition positions_for_color_only : Params :=
  {| color := Some [mk_vec3 0 0 0; mk_vec3 1 1 1];
     colorPosition := Some [0%Q; 1%Q];
     opacity := Some [0%Q; 1%Q];
     opacityPosition := None;
     densityScale := 1;
     field := Some 1%positive;
     valueRange := {| lower := 0; upper := 1 |} |}.

End TransferFunction1D.

(** ** [Frame::getProperty] *)

Inductive PropertyValue : Type :=
| PvFloat (q : Q)
| PvInt (z : Z)
| PvBool (b : bool).

Section FrameQueries.

Context {Contents : Type} `{FrameStorage Contents}.

(** [Frame::getProperty].  [elapsed] is what [cudaEventElapsedTime] reports
    between the two events of the frame, in milliseconds; [d] is the device
    state that [checkAccumulationReset] gets to see, that is after
    [commitBufferFlush()] when the frame was ready.  The second component
    is the value written through [ptr]; [None] stands for the return value
    0, with nothing written. *)
Definition getProperty (name : string) (type : ANARIDataType) (elapsed : Q)
    (d : DeviceGlobalState) (f : Frame Contents)
    : Frame Contents * option PropertyValue :=
  if bool_decide (type = ANARI_FLOAT32) && bool_decide (name = "duration")
  then (f, Some (PvFloat (elapsed / 1000)%Q))
  else if bool_decide (type = ANARI_INT32) && bool_decide (name = "numSamples")
  then (f, Some (PvInt (frameID (fb f))))
  else if bool_decide (type = ANARI_BOOL)
          && bool_decide (name = "nextFrameReset")
  then
    let f' := checkAccumulationReset d f in
    (f', Some (PvBool (m_nextFrameReset f')))
  else (f, None).

(** [n] successive [newFrame] calls. *)
Fixpoint newFrames (d : DeviceGlobalState) (n : nat) (f : Frame Contents)
    : Frame Contents :=
  match n with
  | O => f
  | S n' => newFrames d n' (newFrame d f)
  end.

(** The launches recorded in a log. *)
Definition launches (l : list Event) : list FramebufferGPUData :=
  flat_map (fun e => match e with EvLaunch g _ _ => [g] | _ => [] end) l.

(** The frame's copies of the flush stamps are not ahead of the device. *)
Definition stampsBehind (d : DeviceGlobalState) (f : Frame Contents) : Prop :=
  (m_lastCommitOccured f <= commitBufferLastFlush d)%N
  /\ (m_lastUploadOccured f <= uploadBuffer_lastFlush d)%N.

End FrameQueries.

(** ** [Quad] *)

Module Quad.

Definition uvec3 : Type := N * N * N.
Definition uvec4 : Type := N * N * N * N.

(** The two arrays that decide the triangle list: 'primitive.index' (one
    [uvec4] per quad) and 'vertex.position'. *)
Record Params : Type := {
  p_index : option (list uvec4);
  p_vertex : option (list SciVis.vec3)
}.

Record State : Type := {
  m_index : option (list uvec4);
  m_vertex : option (list SciVis.vec3);
  m_indices : list uvec3
}.

(** [uvec3(4 * i) + uvec3(a, b, c)] in [uint32_t] arithmetic. *)
Definition corner (i : nat) (a b c : N) : uvec3 :=
  let base := wrap_u32 (4 * N.of_nat i) in
  (wrap_u32 (base + a), wrap_u32 (base + b), wrap_u32 (base + c)).

(** [Quad::generateIndices]: two triangles per quad. *)
Definition generateIndices (index : option (list uvec4)) (numVertices : nat)
    : list uvec3 :=
  match index with
  | Some quads =>
      flat_map (fun idx : uvec4 =>
                  let '(x, y, z, w) := idx in [(x, y, w); (z, w, y)]) quads
  | None =>
      flat_map (fun i => [corner i 0 1 3; corner i 2 3 1])
        (seq 0 (numVertices / 4))
  end.

(** [Quad::commit] *)
Definition commit (p : Params) (s : State) : State * list Event :=
  match p_vertex p with
  | None =>
      ({| m_index := p_index p; m_vertex := None; m_indices := m_indices s |},
       [EvMessage ANARI_SEVERITY_WARNING
          "missing required parameter 'vertex.position' on quad geometry"])
  | Some vertices =>
      match p_index p with
      | None =>
          if negb (length vertices mod 4 =? 0)%nat then
            ({| m_index := None; m_vertex := Some vertices;
                m_indices := m_indices s |},
             [EvMessage ANARI_SEVERITY_ERROR
                "'vertex.position' on quad geometry is a non-multiple of 4 without 'primitive.index' present"])
          else
            ({| m_index := None; m_vertex := Some vertices;
                m_indices := generateIndices None (length vertices) |},
             [EvMessage ANARI_SEVERITY_DEBUG "committing soup quad geometry"])
      | Some quads =>
          ({| m_index := Some quads; m_vertex := Some vertices;
              m_indices := generateIndices (Some quads) (length vertices) |},
           [EvMessage ANARI_SEVERITY_DEBUG "committing indexed quad geometry"])
      end
  end.

(** [Quad::isValid] *)
Definition isValid (s : State) : bool :=
  match m_vertex s with Some _ => true | None => false end.

(** [Quad::populateBuildInput]: [numVertices] and [numIndexTriplets];
    [None] when it reads [m_vertex->size()] through a null pointer. *)
Definition populateBuildInput (s : State) : option (nat * nat) :=
  match m_vertex s with
  | Some vertices => Some (length vertices, length (m_indices s))
  | None => None
  end.

(** The directed edges of a triangle, in winding order. *)
Definition edges (tr : uvec3) : list (N * N) :=
  let '(a, b, c) := tr in [(a, b); (b, c); (c, a)].

Definition corners (tr : uvec3) : list N :=
  let '(a, b, c) := tr in [a; b; c].

End Quad.

(** ** [StructuredRegularField] *)

Module StructuredRegular.

Import SciVis.
Local Open Scope Q_scope.

(** The element types that the switch statements of this file tell apart;
    [UNSUPPORTED] is every other [ANARIDataType]. *)
Inductive ElementType : Type :=
| UINT8 | INT16 | UINT16 | UFIXED8 | FIXED16 | UFIXED16 | FLOAT32 | FLOAT64
| UNSUPPORTED.

(** An [Array3D]: element type, [size()] and the elements in memory order,
    each with the value it holds. *)
Record Array3D : Type := {
  elementType : ElementType;
  dims : N * N * N;
  elements : list Q
}.

Record Params : Type := {
  origin : vec3;
  spacing : vec3;
  filter : string;
  data : option Array3D
}.

Inductive FilterMode : Type := cudaFilterModePoint | cudaFilterModeLinear.

(** What [commit] uploads into the CUDA array behind [m_textureObject]. *)
Record Texture : Type := {
  texels : list Q;
  extent : N * N * N;
  filterMode : FilterMode
}.

Record State : Type := {
  m_params : Params;
  m_textureObject : option Texture
}.

(** [std::numeric_limits<FROM_T>::max()] of the normalized formats *)
Definition UINT8_MAX : Z := 255.
Definition INT16_MAX : Z := 32767.
Definition UINT16_MAX : Z := 65535.

(** [makeFloatStagingBuffer]: a zero-initialised vector of [totalSize]
    floats, overwritten by the conversion the format selects.  An element
    of an array of an integer type is an integer, read off by [Qfloor];
    [TO_T(c)] converts it to [float], and the normalized formats divide
    that [float] by the [float] of the type's largest value.  A [double]
    is narrowed to the nearest [float]. *)
Definition makeFloatStagingBuffer (array : Array3D) : list Q :=
  let toFloat (c : Q) : Q := Float32.toQ (Float32.of_int (Qfloor c)) in
  let toFloatNormalized (limit : Z) (c : Q) : Q :=
    Float32.toQ
      (Float32.div (Float32.of_int (Qfloor c)) (Float32.of_int limit)) in
  match elementType array with
  | UINT8 | INT16 | UINT16 => List.map toFloat (elements array)
  | FLOAT32 => List.map (fun c : Q => c) (elements array)
  | FLOAT64 => List.map Float32.narrow (elements array)
  | UFIXED8 => List.map (toFloatNormalized UINT8_MAX) (elements array)
  | FIXED16 => List.map (toFloatNormalized INT16_MAX) (elements array)
  | UFIXED16 => List.map (toFloatNormalized UINT16_MAX) (elements array)
  | UNSUPPORTED => List.map (fun _ => 0) (elements array)
  end.
(** [validFieldDataType] *)
Definition validFieldDataType (format : ElementType) : bool :=
  match format with
  | UNSUPPORTED => false
  | _ => true
  end.

Definition isFloat32 (format : ElementType) : bool :=
  match format with FLOAT32 => true | _ => false end.

(** [StructuredRegularField::commit], up to [buildGrid()] and [upload()].
    [cleanup()] at the top destroys the texture of the previous commit. *)
Definition commit (p : Params) (s : State) : State * list Event :=
  match data p with
  | None =>
      ({| m_params := p; m_textureObject := None |},
       [EvMessage ANARI_SEVERITY_WARNING
          "missing required parameter 'data' on structuredRegular spatial field"])
  | Some array =>
      if negb (validFieldDataType (elementType array)) then
        ({| m_params := p; m_textureObject := None |},
         [EvMessage ANARI_SEVERITY_WARNING
            "invalid data array type encountered in structuredRegular spatial field(%s)"])
      else
        let stagingBuffer :=
          if negb (isFloat32 (elementType array))
          then makeFloatStagingBuffer array else [] in
        ({| m_params := p;
            m_textureObject :=
              Some {| texels := match stagingBuffer with
                                | [] => elements array
                                | _ => stagingBuffer
                                end;
                      extent := dims array;
                      filterMode :=
                        if bool_decide (filter p = "nearest")
                        then cudaFilterModePoint else cudaFilterModeLinear |} |},
         [])
  end.

(** [StructuredRegularField::isValid] *)
Definition isValid (s : State) : bool :=
  match data (m_params s) with
  | Some array => validFieldDataType (elementType array)
  | None => false
  end.







End StructuredRegular.

(** ** [TransferFunction1D::isValid] *)

Module TransferFunctionState.

Import TransferFunction1D.

(** [TransferFunction1D::isValid] on the parameters that [commit] has
    stored; [fieldValid] is [m_params.field->isValid()]. *)
Definition isValid (fieldValid : Handle -> bool) (p : Params) : bool :=
  match color p, opacity p, field p with
  | Some _, Some _, Some fld => fieldValid fld
  | _, _, _ => false
  end.

End TransferFunctionState.

(** ** Helpers for the shadow and volume properties *)

Module Shadow.

Import SciVis.
Local Open Scope Q_scope.

Section Marching.

Context {ScreenSample VolumeHit : Type} {api : ShadingAPI ScreenSample VolumeHit}.


End Marching.

(** A direction of the unit cube's diagonal family used by the sample
    scenes below. *)
Definition towardsLight : vec3 := mk_vec3 0 0 (-1).

(** A scene for shadow rays: [lights] light instances, the surfaces
    [surfs] along every shadow ray with the opacities [alpha], and volume
    bounds along it, each given by the distance it is reported at and the
    opacity its march adds in front-to-back order. *)
Definition scene (lights : list (list Handle)) (surfs : list SurfaceHit)
    (alpha : SurfaceHit -> Q) (volumes : list (Q * Q))
    : ShadingAPI unit (Q * Q) := {|
  lightFalloff := 1;
  aoSamples := 0;
  ambientColor := splat 0;
  ambientIntensity := 1;
  background := (splat 0, 0);
  lightInstances := lights;
  ray_t_lower := 0;
  intersectSurface r :=
    ret (Stack.nearestHit (lower (t r)) (upper (t r)) surfs);
  rayMarchAllVolumes r tfar :=
    ret {| vDepth := tfar; vColor := splat 0; vOpacity := 0;
           vObjID := NO_ID; vInstID := NO_ID |};
  getMaterialValues h := {| baseColor := splat 1; opacity := alpha h |};
  computeAO _ _ := ret 1;
  sampleLight _ _ :=
    ret {| ls_radiance := splat 2; ls_dir := towardsLight; ls_dist := 10 |};
  surfaceCandidates _ := surfs;
  volumeCandidates _ := volumes;
  volume_t v := fst v;
  rayMarchVolume v a := ret (a + snd v * (1 - a))
|}.

(** Two lights behind an opaque surface at distance 4. *)
Definition eclipsed : ShadingAPI unit (Q * Q) :=
  scene [[1%positive]; [2%positive]] [Stack.surfaceAt 4 2] (fun _ => 1) [].


(** A fully transparent surface at distance 3 in front of an opaque one. *)
Definition glass : ShadingAPI unit (Q * Q) :=
  scene [] [Stack.surfaceAt 3 5; Stack.surfaceAt 6 8]
    (fun h => if (Surf.primID h =? 5)%N then 0 else 1) [].

End Shadow.

(** ** Sample sessions for the frame properties *)

Module Session.

(** The application replaces the frame's parameters between two commits. *)
Definition withParams (ps : gmap string Param) (f : Frame (list StorageOp))
    : Frame (list StorageOp) :=
  {| params := ps; m_valid := m_valid f; m_denoise := m_denoise f;
     m_renderer := m_renderer f; m_camera := m_camera f; m_world := m_world f;
     m_colorType := m_colorType f; m_depthType := m_depthType f;
     m_primIDType := m_primIDType f; m_objIDType := m_objIDType f;
     m_instIDType := m_instIDType f; m_albedoType := m_albedoType f;
     m_normalType := m_normalType f; m_perPixelBytes := m_perPixelBytes f;
     m_nextFrameReset := m_nextFrameReset f;
     m_lastCommitOccured := m_lastCommitOccured f;
     m_lastUploadOccured := m_lastUploadOccured f;
     m_frameChanged := m_frameChanged f;
     m_frameMappedOnce := m_frameMappedOnce f;
     m_invFrameID := m_invFrameID f; fb := fb f; storage := storage f |}.

(** Only the world is left bound. *)
Definition world_only : gmap string Param :=
  <["world" := ParamObject ANARI_WORLD 3%positive]> ∅.

(** A frame committed with the object ID channel whose renderer and camera
    were then removed. *)
Definition stripped : Frame (list StorageOp) :=
  withParams world_only
    (fst (commit (Demo.device false 0 1%N 1%N) (Demo.fresh Demo.with_objectId))).

(** A device whose renderers take [spp] samples per pixel and call, without
    checkerboarding and without a sample limit. *)
Definition sampling (spp : Z) : DeviceGlobalState :=
  {| commitBufferLastFlush := 1%N; uploadBuffer_lastFlush := 1%N;
     renderers := fun _ =>
       {| r_isValid := true; r_denoise := false; r_sampleLimit := 0;
          r_spp := spp; r_checkerboarding := false |};
     camera_isValid := fun _ => true; world_isValid := fun _ => true |}.

(** A frame in the middle of an accumulation that has reached the sample
    count [n]. *)
Definition counted (n : Z) : Frame (list StorageOp) :=
  let f := Demo.rendered (Demo.device false 0 1%N 1%N) 3
             (Demo.committed false) in
  {| params := params f; m_valid := m_valid f; m_denoise := m_denoise f;
     m_renderer := m_renderer f; m_camera := m_camera f; m_world := m_world f;
     m_colorType := m_colorType f; m_depthType := m_depthType f;
     m_primIDType := m_primIDType f; m_objIDType := m_objIDType f;
     m_instIDType := m_instIDType f; m_albedoType := m_albedoType f;
     m_normalType := m_normalType f; m_perPixelBytes := m_perPixelBytes f;
     m_nextFrameReset := false;
     m_lastCommitOccured := m_lastCommitOccured f;
     m_lastUploadOccured := m_lastUploadOccured f;
     m_frameChanged := m_frameChanged f;
     m_frameMappedOnce := m_frameMappedOnce f;
     m_invFrameID := Float32.inverse (n + 1);
     fb := {| buffers := buffers (fb f); frameID := n;
              checkerboardID := checkerboardID (fb f);
              invFrameID := Float32.inverse (n + 1); format := format (fb f);
              size := size (fb f); invSize := invSize (fb f) |};
     storage := storage f |}.

End Session.

(** ** The transfer function table at the types it is filled from *)

Module TransferFunctionTable.

Import SciVis TransferFunction1D.
Local Open Scope Q_scope.

Section Table.

(** [m_tfDim] *)
Variable m_tfDim : nat.
(** [utility/colorMapHelpers.h]; [getInterpolatedValue] at the two types
    [discritizeTFData] calls it with, [vec3] and [float]. *)
Variable generateLinearPositions : nat -> box1 -> list Q.
Variable getInterpolatedColor : list vec3 -> list Q -> box1 -> Q -> vec3.
Variable getInterpolatedOpacity : list Q -> list Q -> box1 -> Q -> Q.

(** [TransferFunction1D::discritizeTFData]; [None] when it reads through a
    null pointer. *)
Definition discritizeTFData (p : Params) : option (list (vec3 * Q)) :=
  match color p, opacity p with
  | Some colors, Some opacities =>
      let cPositions :=
        match colorPosition p with
        | Some a => a
        | None => generateLinearPositions (length colors) (valueRange p)
        end in
      let oPositions :=
        match colorPosition p with
        | Some _ => opacityPosition p (* m_params.opacityPosition->beginAs *)
        | None =>
            Some (generateLinearPositions (length opacities) (valueRange p))
        end in
      match oPositions with
      | Some oPositions =>
          Some (List.map
                  (fun i =>
                     let x := inject_Z (Z.of_nat i)
                              / inject_Z (Z.of_nat m_tfDim - 1) in
                     (getInterpolatedColor colors cPositions (valueRange p) x,
                      getInterpolatedOpacity opacities oPositions
                        (valueRange p) x))
                  (seq 0 m_tfDim))
      | None => None
      end
  | _, _ => None
  end.

(** [TransferFunction1D::commit] up to the table it uploads. *)
Definition commit (p : Params) : CommitResult :=
  match checkParams p with
  | Some (sev, msg) => Rejected sev msg
  | None =>
      match discritizeTFData p with
      | Some tf => Committed tf
      | None => NullDereference
      end
  end.

End Table.

(** The same parameters with 'opacity.position' unset. *)
Definition withoutOpacityPosition (p : Params) : Params :=
  {| color := color p; colorPosition := colorPosition p;
     opacity := opacity p; opacityPosition := None;
     densityScale := densityScale p; field := field p;
     valueRange := valueRange p |}.

(** Sample helpers for running a commit: evenly spaced positions, and the
    value at the last position that is not beyond [x]. *)
Definition evenPositions (n : nat) (range : box1) : list Q :=
  List.map (fun i => lower range
                     + (upper range - lower range)
                       * (inject_Z (Z.of_nat i) / inject_Z (Z.of_nat n - 1)))
    (seq 0 n).

Fixpoint stepValue {A : Type} (default : A) (values : list A)
    (positions : list Q) (x : Q) : A :=
  match values, positions with
  | v :: values', p :: positions' =>
      if Qltb x p then default else stepValue v values' positions' x
  | _, _ => default
  end.

Definition stepColor (values : list vec3) (positions : list Q) (_ : box1)
    (x : Q) : vec3 := stepValue (splat 0) values positions x.
Definition stepOpacity (values : list Q) (positions : list Q) (_ : box1)
    (x : Q) : Q := stepValue 0 values positions x.

Definition sampleCommit (p : Params) : CommitResult :=
  commit 4 evenPositions stepColor stepOpacity p.

(** 'field', 'color' and 'opacity' set, 'opacity.position' set to three
    positions for two opacities, 'color.position' left unset. *)
Definition positions_for_opacity_only (positions : list Q) : Params :=
  {| color := Some [mk_vec3 0 0 0; mk_vec3 1 1 1];
     colorPosition := None;
     opacity := Some [0; 1];
     opacityPosition := Some positions;
     densityScale := 1;
     field := Some 1%positive;
     valueRange := {| lower := 0; upper := 1 |} |}.

End TransferFunctionTable.

(** * Properties *)

Section MachineIntFacts.

Lemma wrap_int_id z : in_int z -> wrap_int z = z.
Proof.
  unfold in_int, wrap_int, INT_MIN, INT_MAX. intros H.
  rewrite Z.mod_small by lia. lia.
Qed.

Lemma wrap_int_range z : in_int (wrap_int z).
Proof.
  unfold in_int, wrap_int, INT_MIN, INT_MAX.
  pose proof (Z.mod_pos_bound (z + 2147483648) 4294967296 eq_refl). lia.
Qed.

Lemma land3_mod z : Z.land z 3 = z mod 4.
Proof. change 3 with (Z.ones 2). rewrite Z.land_ones by lia. reflexivity. Qed.

Lemma land3_range z : 0 <= Z.land z 3 <= 3.
Proof. rewrite land3_mod. pose proof (Z.mod_pos_bound z 4 eq_refl). lia. Qed.

End MachineIntFacts.

(** ** Single precision floats *)

Section Float32Facts.

Import SpecFloat.

Local Abbreviation fl := (binary_round_aux Float32.prec Float32.emax).

Lemma digits2_log2 p : Zpos (digits2_pos p) = Z.log2 (Zpos p) + 1.
Proof.
  induction p as [p IH | p IH |]; cbn [digits2_pos]; [| | reflexivity].
  - rewrite Pos2Z.inj_succ, IH.
    change (Zpos p~1) with (2 * Zpos p + 1).
    rewrite Z.log2_succ_double by lia. lia.
  - rewrite Pos2Z.inj_succ, IH.
    change (Zpos p~0) with (2 * Zpos p).
    rewrite Z.log2_double by lia. lia.
Qed.

Lemma digits2_shift p d :
  digits2_pos (Pos.iter xO p d) = (digits2_pos p + d)%positive.
Proof.
  induction d as [| d IH] using Pos.peano_ind.
  - cbn. lia.
  - rewrite Pos.iter_succ. cbn [digits2_pos]. rewrite IH. lia.
Qed.

Lemma shift_value p d : Zpos (Pos.iter xO p d) = Zpos p * 2 ^ Zpos d.
Proof.
  induction d as [| d IH] using Pos.peano_ind.
  - cbn. lia.
  - rewrite Pos.iter_succ, Pos2Z.inj_succ, Z.pow_succ_r by lia.
    change (Zpos (Pos.iter xO p d)~0) with (2 * Zpos (Pos.iter xO p d)).
    rewrite IH. lia.
Qed.

Lemma digits2_between q n :
  0 < n -> 2 ^ (n - 1) <= q < 2 ^ n -> Zdigits2 q = n.
Proof.
  intros Hn Hq.
  assert (0 < 2 ^ (n - 1)) by (apply Z.pow_pos_nonneg; lia).
  destruct q as [| p |]; try lia.
  cbn [Zdigits2]. rewrite digits2_log2.
  rewrite (Z.log2_unique (Zpos p) (n - 1)); [lia | lia |].
  replace (Z.succ (n - 1)) with n by lia. lia.
Qed.

Lemma digits2_24_range m :
  Zpos (digits2_pos m) = 24 -> 8388608 <= Zpos m < 16777216.
Proof.
  intros E24. rewrite digits2_log2 in E24.
  assert (Hl : Z.log2 (Zpos m) = 23) by lia.
  pose proof (Z.log2_spec (Zpos m) ltac:(lia)) as Hs. rewrite Hl in Hs.
  change (2 ^ 23) with 8388608 in Hs.
  change (2 ^ Z.succ 23) with 16777216 in Hs. lia.
Qed.


Lemma pow2_succ e : (Float32.pow2 (e + 1) == 2 * Float32.pow2 e)%Q.
Proof.
  destruct e as [| p | p].
  - reflexivity.
  - replace (Zpos p + 1) with (Zpos (Pos.add p 1)) by lia.
    cbv [Float32.pow2 Qeq Qmult Qnum Qden].
    rewrite !Pos2Z.inj_pow, Pos2Z.inj_add, Z.pow_add_r by lia. lia.
  - destruct (Pos.eq_dec p 1%positive) as [-> | Hp]; [reflexivity |].
    replace (Zneg p + 1) with (Zneg (Pos.sub p 1)) by lia.
    cbv [Float32.pow2 Qeq Qmult Qnum Qden].
    rewrite Pos.mul_1_l, !Pos2Z.inj_pow.
    assert (Ep : Zpos p = Zpos (Pos.sub p 1) + 1) by lia.
    rewrite Ep at 1. rewrite Z.pow_add_r by lia. lia.
Qed.


(** A mantissa of 24 bits with an exponent in range is not rounded. *)
Lemma binary_round_aux_canonical s m e :
  Zpos (digits2_pos m) = 24 -> -149 <= e <= 104 ->
  fl s (Zpos m) e loc_Exact = S754_finite s m e.
Proof.
  intros E24 He.
  assert (Ef : fexp Float32.prec Float32.emax (24 + e) - e = 0).
  { unfold fexp, emin, Float32.prec, Float32.emax. lia. }
  unfold binary_round_aux, shr_fexp. cbn [Zdigits2 shr_record_of_loc].
  rewrite E24, Ef.
  cbn [shr shr_m loc_of_shr_record round_nearest_even Zdigits2
       shr_record_of_loc].
  rewrite E24, Ef. cbn [shr shr_m].
  assert (Hle : (e <=? Float32.emax - Float32.prec) = true).
  { apply Z.leb_le. unfold Float32.emax, Float32.prec. lia. }
  rewrite Hle. reflexivity.
Qed.

(** The float an integer of at most 24 bits becomes: the integer itself,
    its mantissa shifted up to 24 bits. *)
Lemma binary_round_shape s m :
  Zpos m < 16777216 ->
  exists mz e,
    binary_round Float32.prec Float32.emax s m 0 = S754_finite s mz e
    /\ Zpos (digits2_pos mz) = 24 /\ -23 <= e <= 0
    /\ Zpos mz = Zpos m * 2 ^ (- e)
    /\ e = Zpos (digits2_pos m) - 24.
Proof.
  intros Hlt.
  assert (Hd : 1 <= Zpos (digits2_pos m) <= 24).
  { rewrite digits2_log2. pose proof (Z.log2_nonneg (Zpos m)).
    assert (Z.log2 (Zpos m) < 24) by (apply Z.log2_lt_pow2; lia). lia. }
  unfold binary_round.
  assert (Ef : fexp Float32.prec Float32.emax (Zpos (digits2_pos m) + 0)
               = Zpos (digits2_pos m) - 24).
  { unfold fexp, emin, Float32.prec, Float32.emax. lia. }
  rewrite Ef. unfold shl_align.
  destruct (Zpos (digits2_pos m) - 24 - 0) as [| d | d] eqn:Ed; try lia.
  - rewrite binary_round_aux_canonical by lia.
    exists m, 0. repeat split; lia.
  - assert (Ee : Zpos (digits2_pos m) - 24 = Zneg d) by lia.
    rewrite Ee.
    assert (E24 : Zpos (digits2_pos (Pos.iter xO m d)) = 24).
    { rewrite digits2_shift, Pos2Z.inj_add. lia. }
    rewrite binary_round_aux_canonical by (try exact E24; lia).
    exists (Pos.iter xO m d), (Zneg d).
    repeat split; try lia.
    rewrite shift_value. reflexivity.
Qed.

Lemma Qred_inject_Z z : Qred (inject_Z z) = inject_Z z.
Proof.
  unfold Qred, inject_Z.
  pose proof (Z.ggcd_gcd z 1) as Hg.
  pose proof (Z.ggcd_correct_divisors z 1) as Hd.
  destruct (Z.ggcd z 1) as [g [aa bb]]. cbn [fst snd] in *.
  rewrite Z.gcd_1_r in Hg. subst g. destruct Hd as [Ha Hb].
  replace aa with z by lia. replace bb with 1 by lia. reflexivity.
Qed.

Lemma value_exact s m mz e :
  -23 <= e <= 0 -> Zpos mz = Zpos m * 2 ^ (- e) ->
  (Float32.value (S754_finite s mz e)
   == inject_Z (Float32.signed s (Zpos m)))%Q.
Proof.
  intros He Hm. cbn [Float32.value].
  destruct e as [| p | p]; try lia.
  - change (2 ^ (- 0)) with 1 in Hm. rewrite Hm, Z.mul_1_r.
    change (Float32.pow2 0) with 1%Q. ring.
  - change (- Zneg p) with (Zpos p) in Hm.
    assert (Hs : Float32.signed s (Zpos mz)
                 = Float32.signed s (Zpos m) * 2 ^ Zpos p).
    { destruct s; cbn [Float32.signed]; lia. }
    rewrite Hs.
    cbv [Float32.pow2 Qeq Qmult inject_Z Qnum Qden].
    rewrite Pos.mul_1_l, Pos2Z.inj_pow. lia.
Qed.

(** An [int] of at most 24 bits is a [float]: the conversion is exact. *)
Lemma of_int_exact z :
  - 16777216 < z < 16777216 -> Float32.toQ (Float32.of_int z) = inject_Z z.
Proof.
  intros Hz. unfold Float32.toQ.
  rewrite <- (Qred_inject_Z z). apply Qred_complete.
  destruct z as [| m | m].
  - reflexivity.
  - unfold Float32.of_int, binary_normalize.
    destruct (binary_round_shape false m ltac:(lia))
      as (mz & e & -> & _ & He & Hm & _).
    apply (value_exact false m mz e He Hm).
  - unfold Float32.of_int, binary_normalize.
    destruct (binary_round_shape true m ltac:(lia))
      as (mz & e & -> & _ & He & Hm & _).
    apply (value_exact true m mz e He Hm).
Qed.

Lemma loc_roundtrip m l :
  loc_of_shr_record (shr_record_of_loc m l) = l
  /\ shr_m (shr_record_of_loc m l) = m.
Proof. destruct l as [| []]; split; reflexivity. Qed.

Lemma round_nearest_even_cases m l :
  round_nearest_even m l = m \/ round_nearest_even m l = m + 1.
Proof.
  destruct l as [| []]; cbn [round_nearest_even]; auto.
  destruct (Z.even m); auto.
Qed.

(** The second rounding step: a mantissa of 24 bits stays, [2^24] is
    renormalised; the value is the same. *)
Lemma binary_round_aux_final s k e :
  8388608 <= k <= 16777216 -> -149 <= e <= 102 ->
  (Float32.value
     (let '(mrs, e') :=
        shr_fexp Float32.prec Float32.emax k e loc_Exact in
      match shr_m mrs with
      | Z0 => S754_zero s
      | Zpos m =>
          if e' <=? Float32.emax - Float32.prec
          then S754_finite s m e' else S754_infinity s
      | Zneg _ => S754_nan
      end)
   == inject_Z (Float32.signed s k) * Float32.pow2 e)%Q.
Proof.
  intros Hk He. unfold shr_fexp. cbn [shr_record_of_loc].
  destruct (Z.eq_dec k 16777216) as [-> | Hne].
  - change (Zdigits2 16777216) with 25.
    assert (E1 : fexp Float32.prec Float32.emax (25 + e) - e = 1).
    { unfold fexp, emin, Float32.prec, Float32.emax. lia. }
    rewrite E1. cbn [shr iter_pos shr_1 shr_m orb].
    assert (Hle : (e + 1 <=? Float32.emax - Float32.prec) = true).
    { apply Z.leb_le. unfold Float32.emax, Float32.prec. lia. }
    rewrite Hle. cbn [Float32.value]. rewrite pow2_succ.
    destruct s; cbv [Float32.signed Float32.pow2 Qeq Qmult inject_Z Qnum Qden]; lia.
  - assert (Ed : Zdigits2 k = 24) by (apply digits2_between; lia).
    assert (Ef : fexp Float32.prec Float32.emax (24 + e) - e = 0).
    { unfold fexp, emin, Float32.prec, Float32.emax. lia. }
    rewrite Ed, Ef. cbn [shr shr_m].
    destruct k as [| kp |]; try lia.
    assert (Hle : (e <=? Float32.emax - Float32.prec) = true).
    { apply Z.leb_le. unfold Float32.emax, Float32.prec. lia. }
    rewrite Hle. reflexivity.
Qed.

(** Rounding a quotient of 24 or 25 bits together with the location of
    its remainder: the result is the quotient cut to 24 bits, or the next
    24-bit integer. *)
Lemma binary_round_aux_bracket s q e loc :
  8388608 <= q < 33554432 -> -148 <= e <= 100 ->
  exists k0 k w,
    (k = k0 \/ k = k0 + 1)
    /\ (w = 0 /\ q = k0 \/ w = 1 /\ (q = 2 * k0 \/ q = 2 * k0 + 1))
    /\ 8388608 <= k0 < 16777216
    /\ (Float32.value (fl s q e loc)
        == inject_Z (Float32.signed s k) * Float32.pow2 (e + w))%Q.
Proof.
  intros Hq He. unfold binary_round_aux.
  destruct (Z_lt_le_dec q 16777216) as [Hlt | Hge].
  - (* 24 bits *)
    assert (Ed : Zdigits2 q = 24) by (apply digits2_between; lia).
    assert (Ef : fexp Float32.prec Float32.emax (24 + e) - e = 0).
    { unfold fexp, emin, Float32.prec, Float32.emax. lia. }
    unfold shr_fexp at 1. rewrite Ed, Ef. cbn [shr].
    destruct (loc_roundtrip q loc) as [-> ->].
    exists q, (round_nearest_even q loc), 0.
    split; [apply round_nearest_even_cases |].
    split; [left; split; reflexivity |]. split; [lia |].
    rewrite Z.add_0_r.
    apply binary_round_aux_final; [| lia].
    destruct (round_nearest_even_cases q loc) as [-> | ->]; lia.
  - (* 25 bits: one bit is shifted out first *)
    assert (Ed : Zdigits2 q = 25) by (apply digits2_between; lia).
    assert (Ef : fexp Float32.prec Float32.emax (25 + e) - e = 1).
    { unfold fexp, emin, Float32.prec, Float32.emax. lia. }
    unfold shr_fexp at 1. rewrite Ed, Ef. cbn [shr iter_pos].
    assert (Hs : exists h b t,
               shr_1 (shr_record_of_loc q loc)
               = {| shr_m := h; shr_r := b; shr_s := t |}
               /\ (q = 2 * h \/ q = 2 * h + 1)).
    { destruct q as [| [p | p |] |]; try lia;
        destruct loc as [| []]; cbn [shr_record_of_loc shr_1];
        eexists _, _, _; (split; [reflexivity |]); lia. }
    destruct Hs as (h & b & t & -> & Hh).
    cbn [shr_m].
    set (l' := loc_of_shr_record {| shr_m := h; shr_r := b; shr_s := t |}).
    exists h, (round_nearest_even h l'), 1.
    split; [apply round_nearest_even_cases |].
    split; [right; split; [reflexivity | exact Hh] |]. split; [lia |].
    apply binary_round_aux_final; [| lia].
    destruct (round_nearest_even_cases h l') as [-> | ->]; lia.
Qed.

(** The quotient of two floats with 24-bit mantissas: the integer
    quotient of the mantissas at 23 or 24 extra bits, or the integer after
    it, at the matching exponent. *)
Lemma div_bracket s1 m1 e1 s2 m2 e2 :
  Zpos (digits2_pos m1) = 24 -> Zpos (digits2_pos m2) = 24 ->
  -23 <= e1 <= 0 -> -23 <= e2 <= 0 ->
  exists k0 k w,
    (k = k0 \/ k = k0 + 1)
    /\ (w = 23 \/ w = 24)
    /\ 8388608 <= k0 < 16777216
    /\ k0 * Zpos m2 <= Zpos m1 * 2 ^ w < (k0 + 1) * Zpos m2
    /\ (Float32.value
          (Float32.div (S754_finite s1 m1 e1) (S754_finite s2 m2 e2))
        == inject_Z (Float32.signed (xorb s1 s2) k)
           * Float32.pow2 (e1 - e2 - w))%Q.
Proof.
  intros D1 D2 He1 He2.
  pose proof (digits2_24_range m1 D1) as R1.
  pose proof (digits2_24_range m2 D2) as R2.
  unfold Float32.div, SFdiv, SFdiv_core_binary.
  cbn [Zdigits2]. rewrite D1, D2.
  assert (Ee : Z.min (fexp Float32.prec Float32.emax (24 + e1 - (24 + e2)))
                 (e1 - e2) = e1 - e2 - 24).
  { unfold fexp, emin, Float32.prec, Float32.emax. lia. }
  rewrite Ee. replace (e1 - e2 - (e1 - e2 - 24)) with 24 by lia.
  rewrite Z.shiftl_mul_pow2 by lia.
  change (2 ^ 24) with 16777216.
  pose proof (Z_div_mod (Zpos m1 * 16777216) (Zpos m2) ltac:(lia)) as Hdm.
  destruct (Z.div_eucl (Zpos m1 * 16777216) (Zpos m2)) as [q r].
  destruct Hdm as [Hq Hr].
  assert (Hq25 : 8388608 <= q < 33554432) by nia.
  destruct (binary_round_aux_bracket (xorb s1 s2) q (e1 - e2 - 24)
              (new_location (Zpos m2) r) Hq25 ltac:(lia))
    as (k0 & k & w & Hk & Hw & Hk0 & Hv).
  destruct Hw as [[-> <-] | [-> Hw]].
  - exists q, k, 24. split; [exact Hk |]. split; [right; reflexivity |].
    split; [exact Hk0 |].
    change (2 ^ 24) with 16777216. split; [lia |].
    rewrite Z.add_0_r in Hv. exact Hv.
  - exists k0, k, 23. split; [exact Hk |]. split; [left; reflexivity |].
    split; [exact Hk0 |].
    change (2 ^ 23) with 8388608. split; [destruct Hw; nia |].
    replace (e1 - e2 - 23) with (e1 - e2 - 24 + 1) by lia. exact Hv.
Qed.


(** The float of a non-zero integer of at most 24 bits. *)
Lemma of_int_shape z :
  0 < Z.abs z < 16777216 ->
  exists m e,
    Float32.of_int z = S754_finite (z <? 0) m e
    /\ Zpos (digits2_pos m) = 24 /\ -23 <= e <= 0
    /\ Zpos m = Z.abs z * 2 ^ (- e)
    /\ e = Z.log2 (Z.abs z) - 23.
Proof.
  intros Hz. unfold Float32.of_int, binary_normalize.
  destruct z as [| p | p]; try lia.
  - destruct (binary_round_shape false p ltac:(lia))
      as (m & e & E & D & He & Hm & Ee).
    exists m, e. rewrite digits2_log2 in Ee.
    change (Z.abs (Zpos p)) with (Zpos p).
    repeat split; try assumption; try lia.
  - destruct (binary_round_shape true p ltac:(lia))
      as (m & e & E & D & He & Hm & Ee).
    exists m, e. rewrite digits2_log2 in Ee.
    change (Z.abs (Zneg p)) with (Zpos p).
    repeat split; try assumption; try lia.
Qed.

(** [k * 2^(-n)] as a fraction *)
Lemma pow2_neg k n :
  0 <= n ->
  (inject_Z k * Float32.pow2 (- n) == k # Z.to_pos (2 ^ n))%Q.
Proof.
  intros Hn. destruct n as [| p |]; try lia.
  - change (Float32.pow2 (- 0)) with 1%Q. change (Z.to_pos (2 ^ 0)) with 1%positive.
    unfold inject_Z. ring.
  - change (- Zpos p) with (Zneg p).
    cbv [Float32.pow2 Qeq Qmult inject_Z Qnum Qden].
    rewrite Pos.mul_1_l, Pos2Z.inj_pow.
    rewrite Z2Pos.id by (apply Z.pow_pos_nonneg; lia). lia.
Qed.

(** The stored inverse of a count of at most 2^24 is within one unit in
    the last place of the true inverse: the relative error is at most
    2^-23. *)
Lemma inverse_accuracy z :
  0 < z <= 16777216 ->
  (1 - (1 # 8388608) <= Float32.inverse z * inject_Z z
                     <= 1 + (1 # 8388608))%Q.
Proof.
  intros Hz.
  destruct (Z.eq_dec z 16777216) as [-> | Hne];
    [vm_compute; split; discriminate |].
  destruct (of_int_shape z ltac:(lia)) as (m & e & Eo & E24 & He & Hm & _).
  replace (Z.abs z) with z in Hm by lia.
  unfold Float32.inverse, Float32.toQ. rewrite Qred_correct, Eo.
  change Float32.one with (S754_finite false 8388608 (-23)).
  destruct (div_bracket false 8388608 (-23) (z <? 0) m e eq_refl E24
              ltac:(lia) He)
    as (k0 & k & w & Hk & Hw & Hk0 & Hq & Hv).
  rewrite Hv. clear Hv.
  replace (z <? 0) with false by (symmetry; apply Z.ltb_ge; lia).
  cbn [xorb Float32.signed].
  pose proof (digits2_24_range m E24) as Hm24.
  set (n := 23 + e + w).
  replace (-23 - e - w) with (- n) by (unfold n; lia).
  assert (Hn : 0 <= n) by (unfold n; lia).
  rewrite (pow2_neg k n Hn).
  set (P := 2 ^ (- e)) in *.
  assert (HP : 0 < P) by (apply Z.pow_pos_nonneg; lia).
  assert (HD : 2 ^ n * P = 8388608 * 2 ^ w).
  { unfold P, n. rewrite <- Z.pow_add_r by lia.
    replace (23 + e + w + - e) with (23 + w) by lia.
    rewrite Z.pow_add_r by lia. reflexivity. }
  assert (HDpos : 0 < 2 ^ n) by (apply Z.pow_pos_nonneg; lia).
  set (D := 2 ^ n) in *.
  rewrite Hm in Hq, Hm24.
  assert (Hw' : z * P <= 2 ^ w).
  { destruct Hw as [-> | ->].
    - change (2 ^ 23) with 8388608 in *. nia.
    - change (2 ^ 24) with 16777216. lia. }
  assert (Hkz : - (z * P) <= k * (z * P) - 8388608 * 2 ^ w <= z * P)
    by (destruct Hk; subst k; lia).
  assert (Hup : k * z - D <= z).
  { apply (Z.mul_le_mono_pos_r _ _ P HP).
    replace ((k * z - D) * P) with (k * (z * P) - D * P) by ring.
    rewrite HD. lia. }
  assert (Hlo : - z <= k * z - D).
  { apply (Z.mul_le_mono_pos_r _ _ P HP).
    replace ((k * z - D) * P) with (k * (z * P) - D * P) by ring.
    replace (- z * P) with (- (z * P)) by ring.
    rewrite HD. lia. }
  assert (HzD : z * 8388608 <= D).
  { apply (Z.mul_le_mono_pos_r _ _ P HP).
    replace (z * 8388608 * P) with (8388608 * (z * P)) by ring.
    rewrite HD. nia. }
  change (1 - (1 # 8388608))%Q with (8388607 # 8388608)%Q.
  change (1 + (1 # 8388608))%Q with (8388609 # 8388608)%Q.
  cbv [Qle Qmult inject_Z Qnum Qden].
  rewrite !Pos.mul_1_r, Z2Pos.id by exact HDpos. lia.
Qed.


End Float32Facts.

Example demo_commit_valid : m_valid (Demo.committed false) = true.
Proof. vm_compute. reflexivity. Qed.

Example demo_first_render :
  match renderFrame (Demo.device false 0 1%N 1%N) (Demo.committed false) with
  | Done f _ => frameID (fb f) = 0 /\ m_nextFrameReset f = false
  | Crashed => False
  end.
Proof. vm_compute. split; reflexivity. Qed.

(** ** The accumulation state machine *)

Section FrameProperties.

Context {Contents : Type} `{FrameStorage Contents}.
Implicit Types (d : DeviceGlobalState) (f : Frame Contents).

Lemma wrap_int_mod4 z : wrap_int z mod 4 = z mod 4.
Proof.
  unfold wrap_int. rewrite (Z.mod_eq (z + 2147483648) 4294967296) by lia.
  replace (z + 2147483648 - 4294967296 * ((z + 2147483648) / 4294967296)
           - 2147483648)
    with (z + (- (1073741824 * ((z + 2147483648) / 4294967296))) * 4) by lia.
  apply Z_mod_plus_full.
Qed.

Lemma newFrame_frameID d f :
  frameID (fb (newFrame d f)) =
  if m_nextFrameReset f then 0
  else wrap_int (frameID (fb f)
                 + b2i (negb (checkerboarding d f)
                        || (checkerboardID (fb f) =? 3))).
Proof. reflexivity. Qed.

Lemma newFrame_checkerboardID d f :
  checkerboardID (fb (newFrame d f)) =
  if m_nextFrameReset f then (if checkerboarding d f then 0 else -1)
  else if checkerboarding d f
       then Z.land (wrap_int (checkerboardID (fb f) + 1)) 3 else -1.
Proof. reflexivity. Qed.

Lemma newFrame_clears_reset d f : m_nextFrameReset (newFrame d f) = false.
Proof. reflexivity. Qed.

Lemma newFrame_checkerboarding d d' f :
  checkerboarding d' (newFrame d f) = checkerboarding d' f.
Proof. reflexivity. Qed.

Lemma newFrame_invFrameID d f :
  invFrameID (fb (newFrame d f))
  = Float32.inverse (wrap_int (frameID (fb (newFrame d f)) + 1))
  /\ m_invFrameID (newFrame d f) = invFrameID (fb (newFrame d f)).
Proof. split; reflexivity. Qed.

(** The phase and the count after one accumulating sub-frame. *)
Lemma newFrame_accumulate_checkerboard d f :
  m_nextFrameReset f = false -> checkerboarding d f = true ->
  in_int (frameID (fb f)) -> frameID (fb f) < INT_MAX ->
  checkerboardID (fb (newFrame d f)) = (checkerboardID (fb f) + 1) mod 4
  /\ frameID (fb (newFrame d f))
     = frameID (fb f) + (if checkerboardID (fb f) =? 3 then 1 else 0).
Proof.
  intros Hr Hcb Hi Hm.
  rewrite newFrame_frameID, newFrame_checkerboardID, Hr, Hcb. simpl.
  split.
  - rewrite land3_mod. apply wrap_int_mod4.
  - unfold in_int, INT_MIN, INT_MAX in *.
    destruct (checkerboardID (fb f) =? 3); simpl;
      apply wrap_int_id; unfold in_int, INT_MIN, INT_MAX; lia.
Qed.

(** C2 -- checkerboard phase cycle.  While accumulating with checkerboarding
    enabled, [newFrame] moves [checkerboardID] to the next phase of the
    cycle 0,1,2,3,0,... (always inside 0..3) and adds one to [frameID]
    exactly when the phase leaves 3 for 0; starting from a pending reset the
    first five calls give phases 0,1,2,3,0 and counts 0,0,0,0,1.  With
    checkerboarding disabled every accumulating call adds one to [frameID]
    and the phase stays at the sentinel -1.  A resetting call sets [frameID]
    to 0 and the phase to 0 (enabled) or -1 (disabled) without advancing
    it.  [frameID] is assumed below [INT_MAX], where [int] addition is
    defined. *)
Theorem newFrame_checkerboard_cycle d f :
  in_int (frameID (fb f)) -> frameID (fb f) < INT_MAX ->
  let f' := newFrame d f in
  let phase_count (g : Frame Contents) :=
    (checkerboardID (fb g), frameID (fb g)) in
  (m_nextFrameReset f = false -> checkerboarding d f = true ->
     0 <= checkerboardID (fb f') <= 3
     /\ checkerboardID (fb f') = (checkerboardID (fb f) + 1) mod 4
     /\ (checkerboardID (fb f) = 3 ->
           phase_count f' = (0, frameID (fb f) + 1))
     /\ (checkerboardID (fb f) <> 3 -> frameID (fb f') = frameID (fb f)))
  /\ (m_nextFrameReset f = false -> checkerboarding d f = false ->
        phase_count f' = (-1, frameID (fb f) + 1))
  /\ (m_nextFrameReset f = true ->
        phase_count f' = (if checkerboarding d f then 0 else -1, 0))
  /\ (m_nextFrameReset f = true -> checkerboarding d f = true ->
        let f1 := f' in
        let f2 := newFrame d f1 in
        let f3 := newFrame d f2 in
        let f4 := newFrame d f3 in
        let f5 := newFrame d f4 in
        List.map phase_count [f1; f2; f3; f4; f5]
        = [(0, 0); (1, 0); (2, 0); (3, 0); (0, 1)]).
Proof.
  intros Hi Hm f' phase_count. subst f' phase_count. cbv zeta.
  repeat split.
  - rewrite newFrame_checkerboardID, H0, H1. apply land3_range.
  - rewrite newFrame_checkerboardID, H0, H1.
    apply land3_range.
  - apply newFrame_accumulate_checkerboard; assumption.
  - intros H3.
    destruct (newFrame_accumulate_checkerboard d f H0 H1 Hi Hm) as [-> ->].
    rewrite H3. reflexivity.
  - intros Hne.
    destruct (newFrame_accumulate_checkerboard d f H0 H1 Hi Hm) as [_ ->].
    destruct (Z.eqb_spec (checkerboardID (fb f)) 3); [contradiction | lia].
  - intros Hr Hcb.
    rewrite newFrame_frameID, newFrame_checkerboardID, Hr, Hcb. simpl.
    rewrite wrap_int_id; [reflexivity |].
    unfold in_int, INT_MIN, INT_MAX in *. lia.
  - intros Hr.
    rewrite newFrame_frameID, newFrame_checkerboardID, Hr. reflexivity.
  - intros Hr Hcb. cbn [List.map].
    rewrite !newFrame_frameID, !newFrame_checkerboardID,
      !newFrame_clears_reset, !newFrame_checkerboarding, Hr, Hcb.
    reflexivity.
Qed.

(** C9 -- after every [newFrame], resetting or accumulating, both copies of
    the inverse count hold the [float] quotient [1.f / float(frameID + 1)]
    for the [frameID] the call has just established.  While that
    [frameID] is a count below 2^24 the conversion of [frameID + 1] to
    [float] is exact, and the stored quotient is within one unit in the
    last place of [1 / (frameID + 1)]: the relative error is at most
    2^-23.  After a reset it is exactly 1. *)
Theorem newFrame_inverse_count d f :
  let f' := newFrame d f in
  let count := frameID (fb f') in
  m_invFrameID f' = invFrameID (fb f')
  /\ invFrameID (fb f')
     = Float32.toQ
         (Float32.div Float32.one (Float32.of_int (wrap_int (count + 1))))
  /\ (0 <= count < 16777216 ->
      wrap_int (count + 1) = count + 1
      /\ Float32.toQ (Float32.of_int (count + 1)) = inject_Z (count + 1)
      /\ (1 - (1 # 8388608) <= invFrameID (fb f') * inject_Z (count + 1)
                            <= 1 + (1 # 8388608))%Q)
  /\ (m_nextFrameReset f = true -> count = 0 /\ invFrameID (fb f') = 1%Q).
Proof.
  cbv zeta.
  destruct (newFrame_invFrameID d f) as [E1 E2].
  split; [exact E2 |]. split; [exact E1 |]. split.
  - intros Hc.
    assert (Hw : wrap_int (frameID (fb (newFrame d f)) + 1)
                 = frameID (fb (newFrame d f)) + 1).
    { apply wrap_int_id. unfold in_int, INT_MIN, INT_MAX. lia. }
    split; [exact Hw |]. split.
    + destruct (Z.eq_dec (frameID (fb (newFrame d f)) + 1) 16777216) as [-> | Hn];
        [vm_compute; reflexivity | apply of_int_exact; lia].
    + rewrite E1, Hw. apply inverse_accuracy. lia.
  - intros Hr. rewrite E1, newFrame_frameID, Hr. split; reflexivity.
Qed.

(** *** What [commit] and the sample loop leave alone *)

Lemma commit_accumulation d f : accumulation (fst (commit d f)) = accumulation f.
Proof. unfold commit. cbv zeta. case (negb _); reflexivity. Qed.

Lemma commit_m_denoise d f : m_denoise (fst (commit d f)) = m_denoise f.
Proof. unfold commit. cbv zeta. case (negb _); reflexivity. Qed.

Lemma syncDenoise_accumulation d r f :
  accumulation (fst (syncDenoise d r f)) = accumulation f.
Proof.
  unfold syncDenoise. cbv zeta. case (negb _); [| reflexivity].
  rewrite commit_accumulation. reflexivity.
Qed.

Lemma syncDenoise_same d r f :
  r_denoise (renderers d r) = m_denoise f ->
  syncDenoise d r f = (set_m_denoise (m_denoise f) f, []).
Proof.
  intros E. unfold syncDenoise. cbv zeta. rewrite E. simpl.
  rewrite Bool.eqb_reflx. reflexivity.
Qed.

Lemma set_m_denoise_id f : set_m_denoise (m_denoise f) f = f.
Proof. destruct f; reflexivity. Qed.

Lemma checkAccumulationReset_flag d f :
  m_nextFrameReset (checkAccumulationReset d f) = resetPending d f.
Proof.
  unfold checkAccumulationReset, resetPending.
  destruct (m_nextFrameReset f) eqn:E; [rewrite E |]; reflexivity.
Qed.

Lemma checkAccumulationReset_fb d f : fb (checkAccumulationReset d f) = fb f.
Proof. unfold checkAccumulationReset. destruct (m_nextFrameReset f); reflexivity. Qed.

Lemma checkAccumulationReset_objects d f :
  let f' := checkAccumulationReset d f in
  m_renderer f' = m_renderer f /\ m_camera f' = m_camera f
  /\ m_world f' = m_world f /\ m_valid f' = m_valid f
  /\ m_denoise f' = m_denoise f /\ storage f' = storage f.
Proof.
  unfold checkAccumulationReset.
  destruct (m_nextFrameReset f); repeat split; reflexivity.
Qed.

Lemma checkAccumulationReset_stamps d f :
  m_nextFrameReset f = false ->
  m_lastCommitOccured (checkAccumulationReset d f)
  = N.max (m_lastCommitOccured f) (commitBufferLastFlush d)
  /\ m_lastUploadOccured (checkAccumulationReset d f)
     = N.max (m_lastUploadOccured f) (uploadBuffer_lastFlush d).
Proof.
  intros E. unfold checkAccumulationReset. rewrite E. simpl.
  split.
  - destruct (N.ltb_spec (m_lastCommitOccured f) (commitBufferLastFlush d)); lia.
  - destruct (N.ltb_spec (m_lastUploadOccured f) (uploadBuffer_lastFlush d)); lia.
Qed.

Lemma checkAccumulationReset_idle d f :
  resetPending d f = false -> checkAccumulationReset d f = f.
Proof.
  unfold resetPending, checkAccumulationReset. intros E.
  apply orb_false_iff in E as [E Eu]. apply orb_false_iff in E as [Ef Ec].
  rewrite Ef, Ec, Eu. destruct f; simpl in *. subst. reflexivity.
Qed.

Lemma renderSample_accumulation d f :
  accumulation (fst (renderSample d f)) = accumulation (newFrame d f).
Proof. reflexivity. Qed.

Lemma renderSample_checkerboarding d d' f :
  checkerboarding d' (fst (renderSample d f)) = checkerboarding d' f.
Proof. reflexivity. Qed.

Lemma renderSamples_one d f : renderSamples d 1 f = renderSample d f.
Proof. reflexivity. Qed.

Lemma renderSamples_S d n f :
  renderSamples d (S n) f
  = (fst (renderSamples d n (fst (renderSample d f))),
     snd (renderSample d f) ++ snd (renderSamples d n (fst (renderSample d f)))).
Proof.
  cbn [renderSamples]. destruct (renderSample d f) as [f1 l1].
  cbn [fst snd]. destruct (renderSamples d n f1) as [f2 l2]. reflexivity.
Qed.

Lemma renderSamples_stamps d n f :
  m_lastCommitOccured (fst (renderSamples d n f)) = m_lastCommitOccured f
  /\ m_lastUploadOccured (fst (renderSamples d n f)) = m_lastUploadOccured f.
Proof.
  revert f. induction n as [| n IH]; intros f; [split; reflexivity |].
  rewrite renderSamples_S. cbn [fst].
  destruct (IH (fst (renderSample d f))) as [-> ->]. split; reflexivity.
Qed.

Lemma renderSamples_clears_reset d n f :
  m_nextFrameReset (fst (renderSamples d (S n) f)) = false.
Proof.
  revert f. induction n as [| n IH]; intros f; [reflexivity |].
  rewrite renderSamples_S. cbn [fst]. apply IH.
Qed.

Lemma renderSamples_launches d n f e :
  In e (snd (renderSamples d n f)) -> exists g w h, e = EvLaunch g w h.
Proof.
  revert f. induction n as [| n IH]; intros f; [intros [] |].
  rewrite renderSamples_S. cbn [snd]. rewrite in_app_iff.
  intros [[<- | []] | Hin]; eauto.
Qed.

(** *** [renderFrame] on a valid frame *)

Lemma prepared_accumulation d r f :
  m_nextFrameReset (prepared d r f) = resetPending d f
  /\ fb (prepared d r f) = fb (fst (syncDenoise d r f))
  /\ frameID (fb (prepared d r f)) = frameID (fb f).
Proof.
  unfold prepared.
  pose proof (syncDenoise_accumulation d r f) as E.
  unfold accumulation in E. injection E as E1 E2 E3 E4 E5 E6 E7.
  rewrite checkAccumulationReset_flag, checkAccumulationReset_fb.
  repeat split; [| exact E4].
  unfold resetPending. cbn. rewrite E1, E2, E3. reflexivity.
Qed.

Lemma renderFrame_valid d f r w :
  m_valid f = true -> m_renderer f = Some r -> m_world f = Some w ->
  renderFrame d f =
  let f4 := prepared d r f in
  let lc := snd (syncDenoise d r f) in
  match m_renderer f4 with
  | None => Crashed
  | Some r' =>
      let sampleLimit := r_sampleLimit (renderers d r') in
      if negb (m_nextFrameReset f4) && (0 <? sampleLimit)
         && (sampleLimit <=? frameID (fb f4))
      then Done f4 (flushLog w ++ lc)
      else
        match m_camera f4, m_world f4 with
        | Some _, Some _ =>
            let n := Z.to_nat (Z.max (r_spp (renderers d r')) 1) in
            let f5 := fst (renderSamples d n f4) in
            Done (if m_denoise f5
                  then set_storage (denoiser_launch (storage f5)) f5 else f5)
              (flushLog w ++ lc ++ [EvRecordStart] ++ snd (renderSamples d n f4)
               ++ (if m_denoise f5 then [EvDenoise] else []) ++ [EvRecordEnd])
        | _, _ => Crashed
        end
  end.
Proof.
  intros Hv Hr Hw. unfold renderFrame, isValid, prepared.
  rewrite Hw, Hv, Hr. cbn [negb].
  destruct (syncDenoise d r f) as [f2 lc]. cbn [fst snd]. cbv zeta.
  set (f4 := checkAccumulationReset d (set_m_frameMappedOnce false f2)).
  destruct (m_renderer f4) as [r' |]; [| reflexivity].
  destruct (_ && _); [reflexivity |].
  destruct (m_camera f4); [| reflexivity].
  destruct (m_world f4); [| reflexivity].
  destruct (renderSamples d _ f4) as [f5 ls]. reflexivity.
Qed.

(** C8 -- sample-count cap.  On a valid frame whose renderer has not changed
    its denoising mode: when no reset is pending, the sample limit is
    positive and [frameID] has reached it, [renderFrame] returns before any
    launch and leaves [frameID], [checkerboardID], [invFrameID] (both
    copies), the pending flag and stamps, and the contents of every buffer
    as they were; when a reset is pending the limit is not consulted, the
    frame is rendered and its first launch runs with [frameID] 0. *)
Theorem renderFrame_sample_limit d f r c w :
  m_valid f = true ->
  m_renderer f = Some r -> m_camera f = Some c -> m_world f = Some w ->
  r_denoise (renderers d r) = m_denoise f ->
  (resetPending d f = false ->
   0 < r_sampleLimit (renderers d r) ->
   r_sampleLimit (renderers d r) <= frameID (fb f) ->
   exists f' l,
     renderFrame d f = Done f' l
     /\ (forall g x y, ~ In (EvLaunch g x y) l)
     /\ fb f' = fb f
     /\ accumulation f' = accumulation f
     /\ storage f' = storage f)
  /\ (resetPending d f = true ->
      exists f' g x y rest,
        renderFrame d f
        = Done f' (flushLog w ++ EvRecordStart :: EvLaunch g x y :: rest)
        /\ frameID g = 0
        /\ m_nextFrameReset f' = false).
Proof.
  intros Hv Hr Hc Hw Hd.
  rewrite (renderFrame_valid d f r w Hv Hr Hw).
  assert (Ep : prepared d r f
               = checkAccumulationReset d (set_m_frameMappedOnce false f)).
  { unfold prepared. rewrite (syncDenoise_same d r f Hd), set_m_denoise_id.
    reflexivity. }
  rewrite (syncDenoise_same d r f Hd). cbn [snd]. cbv zeta. rewrite Ep.
  split.
  - intros Hp Hpos Hle.
    rewrite checkAccumulationReset_idle by exact Hp.
    cbn [set_m_frameMappedOnce m_renderer m_nextFrameReset fb].
    rewrite Hr.
    assert (Ef : m_nextFrameReset f = false).
    { unfold resetPending in Hp. destruct (m_nextFrameReset f); [discriminate | reflexivity]. }
    rewrite Ef.
    destruct (Z.ltb_spec 0 (r_sampleLimit (renderers d r))); [| lia].
    destruct (Z.leb_spec (r_sampleLimit (renderers d r)) (frameID (fb f))); [| lia].
    cbn [negb andb].
    eexists _, _. split; [reflexivity |].
    repeat split.
    intros g x y Hin. rewrite app_nil_r in Hin. unfold flushLog in Hin.
    simpl in Hin. intuition discriminate.
  - intros Hp.
    set (f4 := checkAccumulationReset d (set_m_frameMappedOnce false f)).
    assert (E4 : m_nextFrameReset f4 = true).
    { unfold f4. rewrite checkAccumulationReset_flag. exact Hp. }
    assert (Er : m_renderer f4 = Some r /\ m_camera f4 = Some c
                 /\ m_world f4 = Some w).
    { unfold f4.
      destruct (checkAccumulationReset_objects d (set_m_frameMappedOnce false f))
        as (-> & -> & -> & _). auto. }
    destruct Er as (-> & -> & ->). rewrite E4. cbn [negb andb].
    destruct (Z.to_nat (Z.max (r_spp (renderers d r)) 1)) as [| n] eqn:En; [lia |].
    rewrite renderSamples_S. cbn [fst snd].
    set (f5 := fst (renderSamples d n (fst (renderSample d f4)))).
    assert (E5 : m_nextFrameReset f5 = false).
    { unfold f5. destruct n; [reflexivity | apply renderSamples_clears_reset]. }
    eexists _, (fb (newFrame d f4)), _, _, _. split; [| split].
    + unfold renderSample at 1. cbn [snd app]. reflexivity.
    + rewrite newFrame_frameID, E4. reflexivity.
    + destruct (m_denoise f5); [cbn |]; exact E5.
Qed.

Lemma prepared_stamps d r f :
  (m_nextFrameReset f = false ->
   m_lastCommitOccured (prepared d r f)
   = N.max (m_lastCommitOccured f) (commitBufferLastFlush d)
   /\ m_lastUploadOccured (prepared d r f)
      = N.max (m_lastUploadOccured f) (uploadBuffer_lastFlush d))
  /\ (m_nextFrameReset f = true ->
      m_lastCommitOccured (prepared d r f) = m_lastCommitOccured f
      /\ m_lastUploadOccured (prepared d r f) = m_lastUploadOccured f).
Proof.
  unfold prepared.
  pose proof (syncDenoise_accumulation d r f) as E.
  unfold accumulation in E. injection E as E1 E2 E3 _ _ _ _.
  set (f3 := set_m_frameMappedOnce false (fst (syncDenoise d r f))).
  split; intros Ef.
  - assert (E0 : m_nextFrameReset f3 = false) by (cbn; congruence).
    destruct (checkAccumulationReset_stamps d f3 E0) as [-> ->].
    cbn. rewrite E2, E3. split; reflexivity.
  - assert (E0 : m_nextFrameReset f3 = true) by (cbn; congruence).
    unfold checkAccumulationReset. rewrite E0. cbn. auto.
Qed.

(** What a render call that returns does to the accumulation state of a
    valid frame. *)
Lemma renderFrame_done d f f' l :
  m_valid f = true -> renderFrame d f = Done f' l ->
  m_nextFrameReset f' = false
  /\ (m_nextFrameReset f = false ->
      m_lastCommitOccured f'
      = N.max (m_lastCommitOccured f) (commitBufferLastFlush d)
      /\ m_lastUploadOccured f'
         = N.max (m_lastUploadOccured f) (uploadBuffer_lastFlush d))
  /\ (m_nextFrameReset f = true ->
      m_lastCommitOccured f' = m_lastCommitOccured f
      /\ m_lastUploadOccured f' = m_lastUploadOccured f)
  /\ (resetPending d f = true ->
      exists g x y, In (EvLaunch g x y) l /\ frameID g = 0)
  /\ (singleSample d -> resetPending d f = true -> frameID (fb f') = 0)
  /\ (singleSample d -> resetPending d f = false -> frameID (fb f) = 0 ->
      frameID (fb f') = 1).
Proof.
  intros Hv.
  destruct (m_world f) as [w |] eqn:Hw;
    [| unfold renderFrame; rewrite Hw; discriminate].
  destruct (m_renderer f) as [r |] eqn:Hr;
    [| unfold renderFrame, isValid; rewrite Hw, Hv, Hr; discriminate].
  rewrite (renderFrame_valid d f r w Hv Hr Hw). cbv zeta.
  destruct (prepared_accumulation d r f) as (Eflag & _ & Efid).
  destruct (prepared_stamps d r f) as [Est Est'].
  set (f4 := prepared d r f) in *.
  destruct (m_renderer f4) as [r' |] eqn:Hr'; [| discriminate].
  destruct (negb (m_nextFrameReset f4) && (0 <? r_sampleLimit (renderers d r'))
            && (r_sampleLimit (renderers d r') <=? frameID (fb f4))) eqn:Hcap.
  - (* the sample limit stops the call *)
    intros [= <- <-].
    apply andb_prop in Hcap as [Hcap Hle]. apply andb_prop in Hcap as [Hn Hpos].
    apply negb_true_iff in Hn.
    apply Z.ltb_lt in Hpos. apply Z.leb_le in Hle.
    split; [exact Hn |]. split; [exact Est |]. split; [exact Est' |].
    split; [congruence |].
    split; intros _ Hp; [congruence |]. lia.
  - destruct (m_camera f4); [| discriminate].
    destruct (m_world f4); [| discriminate].
    set (n := Z.to_nat (Z.max (r_spp (renderers d r')) 1)).
    assert (Hn : exists m, n = S m).
    { exists (Nat.pred n). unfold n. lia. }
    destruct Hn as [m Hm].
    set (f5 := fst (renderSamples d n f4)).
    assert (E5 : m_nextFrameReset f5 = false).
    { unfold f5. rewrite Hm. apply renderSamples_clears_reset. }
    assert (S5 : m_lastCommitOccured f5 = m_lastCommitOccured f4
                 /\ m_lastUploadOccured f5 = m_lastUploadOccured f4).
    { apply renderSamples_stamps. }
    assert (F5 : singleSample d ->
                 frameID (fb f5)
                 = if m_nextFrameReset f4 then 0
                   else wrap_int (frameID (fb f4) + 1)).
    { intros Hs. unfold f5, n. destruct (Hs r') as [Hspp Hcb].
      replace (Z.to_nat (Z.max (r_spp (renderers d r')) 1)) with 1%nat by lia.
      rewrite renderSamples_one.
      change (frameID (fb (fst (renderSample d f4))))
        with (frameID (fb (newFrame d f4))).
      rewrite newFrame_frameID. unfold checkerboarding. rewrite Hr', Hcb.
      reflexivity. }
    intros [= <- <-].
    assert (Same : forall g : Frame Contents,
              accumulation (if m_denoise g
                            then set_storage (denoiser_launch (storage g)) g
                            else g) = accumulation g).
    { intros g. destruct (m_denoise g); reflexivity. }
    specialize (Same f5). unfold accumulation in Same.
    injection Same as A1 A2 A3 A4 _ _ _.
    rewrite A1, A2, A3, A4. destruct S5 as [-> ->].
    split; [exact E5 |]. split; [exact Est |]. split; [exact Est' |].
    split.
    { intros Hp. exists (fb (newFrame d f4)).
      rewrite Hm, renderSamples_S. cbn [snd]. unfold renderSample at 1.
      cbn [snd]. eexists _, _. split.
      - do 3 right. apply in_or_app. right. right.
        apply in_or_app. left. apply in_or_app. left. left. reflexivity.
      - rewrite newFrame_frameID, Eflag, Hp. reflexivity. }
    split; intros Hs Hp; rewrite (F5 Hs), Eflag, Hp; [reflexivity |].
    intros E0. rewrite Efid, E0. reflexivity.
Qed.

(** C1 -- reset correctness.  Take three successive [renderFrame] calls on a
    valid frame, each with one sample per pixel and checkerboarding off.
    If a commit flush or an upload flush advanced its stamp between the
    first and the second call, the second call renders with [frameID] 0,
    and the third, with no flush in between, brings [frameID] to 1.  The
    second call decides to reset before its launch, and only because the
    frame's cached stamps fall behind the device's. *)
Theorem renderFrame_reset_after_flush
    d0 d1 d2 f0 f1 f2 f3 l1 l2 l3 :
  singleSample d1 -> singleSample d2 ->
  m_valid f0 = true -> m_valid f1 = true -> m_valid f2 = true ->
  (m_lastCommitOccured f0 <= commitBufferLastFlush d0)%N ->
  (m_lastUploadOccured f0 <= uploadBuffer_lastFlush d0)%N ->
  renderFrame d0 f0 = Done f1 l1 ->
  (commitBufferLastFlush d0 <= commitBufferLastFlush d1)%N ->
  (uploadBuffer_lastFlush d0 <= uploadBuffer_lastFlush d1)%N ->
  (commitBufferLastFlush d0 < commitBufferLastFlush d1
   \/ uploadBuffer_lastFlush d0 < uploadBuffer_lastFlush d1)%N ->
  renderFrame d1 f1 = Done f2 l2 ->
  commitBufferLastFlush d2 = commitBufferLastFlush d1 ->
  uploadBuffer_lastFlush d2 = uploadBuffer_lastFlush d1 ->
  renderFrame d2 f2 = Done f3 l3 ->
  frameID (fb f2) = 0 /\ frameID (fb f3) = 1
  /\ m_nextFrameReset f1 = false
  /\ m_nextFrameReset (checkAccumulationReset d1 f1)
     = (m_lastCommitOccured f1 <? commitBufferLastFlush d1)%N
       || (m_lastUploadOccured f1 <? uploadBuffer_lastFlush d1)%N
  /\ (exists g x y, In (EvLaunch g x y) l2 /\ frameID g = 0).
Proof.
  intros Hs1 Hs2 Hv0 Hv1 Hv2 Hc0 Hu0 R1 Hc Hu Hflush R2 Ec Eu R3.
  destruct (renderFrame_done d0 f0 f1 l1 Hv0 R1) as (E1 & St1 & St1' & _).
  destruct (renderFrame_done d1 f1 f2 l2 Hv1 R2)
    as (E2 & St2 & _ & L2 & Z2 & _).
  destruct (renderFrame_done d2 f2 f3 l3 Hv2 R3) as (_ & _ & _ & _ & _ & O3).
  assert (B1 : (m_lastCommitOccured f1 <= commitBufferLastFlush d0
                /\ m_lastUploadOccured f1 <= uploadBuffer_lastFlush d0)%N).
  { destruct (m_nextFrameReset f0) eqn:E0.
    - destruct (St1' eq_refl) as [-> ->]. lia.
    - destruct (St1 eq_refl) as [-> ->]. lia. }
  destruct B1 as [Bc Bu].
  assert (P1 : resetPending d1 f1
               = (m_lastCommitOccured f1 <? commitBufferLastFlush d1)%N
                 || (m_lastUploadOccured f1 <? uploadBuffer_lastFlush d1)%N).
  { unfold resetPending. rewrite E1. reflexivity. }
  assert (P1' : resetPending d1 f1 = true).
  { rewrite P1. apply orb_true_iff.
    destruct Hflush; [left | right]; apply N.ltb_lt; lia. }
  assert (P2 : resetPending d2 f2 = false).
  { unfold resetPending. rewrite E2, Ec, Eu.
    destruct (St2 E1) as [-> ->]. cbn [orb].
    apply orb_false_iff. split; apply N.ltb_ge; lia. }
  pose proof (Z2 Hs1 P1') as F2.
  split; [exact F2 |]. split; [exact (O3 Hs2 P2 F2) |].
  split; [exact E1 |].
  split; [rewrite checkAccumulationReset_flag; exact P1 |].
  exact (L2 P1').
Qed.

(** *** Frames without their required objects *)

Lemma commit_objects d f :
  let f' := fst (commit d f) in
  m_renderer f' = getParamObject ANARI_RENDERER "renderer" (params f)
  /\ m_camera f' = getParamObject ANARI_CAMERA "camera" (params f)
  /\ m_world f' = getParamObject ANARI_WORLD "world" (params f).
Proof. unfold commit. cbv zeta. case (negb _); repeat split; reflexivity. Qed.

Lemma commit_valid d f :
  m_valid (fst (commit d f)) = true <->
  exists r c w,
    getParamObject ANARI_RENDERER "renderer" (params f) = Some r
    /\ getParamObject ANARI_CAMERA "camera" (params f) = Some c
    /\ getParamObject ANARI_WORLD "world" (params f) = Some w
    /\ r_isValid (renderers d r) = true /\ camera_isValid d c = true
    /\ world_isValid d w = true.
Proof.
  unfold commit. cbv zeta.
  destruct (getParamObject ANARI_RENDERER "renderer" (params f)) as [r |];
  destruct (getParamObject ANARI_CAMERA "camera" (params f)) as [c |];
  destruct (getParamObject ANARI_WORLD "world" (params f)) as [w |];
  try destruct (r_isValid (renderers d r)) eqn:Er;
  try destruct (camera_isValid d c) eqn:Ec;
  try destruct (world_isValid d w) eqn:Ew;
  cbn; (split; [try discriminate | intros (? & ? & ? & ? & ? & ? & ? & ? & ?);
                                    try discriminate; try congruence]).
  intros _. eauto 10.
Qed.

(** An invalid frame whose world pointer is set: the call only reports. *)
Lemma renderFrame_invalid_skips d f w :
  m_valid f = false -> m_world f = Some w ->
  renderFrame d f
  = Done f (flushLog w ++ [EvMessage ANARI_SEVERITY_ERROR skip_message]).
Proof.
  intros Hv Hw. unfold renderFrame, isValid. rewrite Hw, Hv. reflexivity.
Qed.

(** C6 -- a frame committed without a world is marked invalid, yet the next
    [renderFrame] does not reach the validity test: it calls
    [m_world->rebuildBVHs()] through the null pointer first. *)
Theorem renderFrame_unbound_world_crashes d d' f :
  getParamObject ANARI_WORLD "world" (params f) = None ->
  m_valid (fst (commit d f)) = false
  /\ renderFrame d' (fst (commit d f)) = Crashed.
Proof.
  intros Hw. split.
  - destruct (m_valid (fst (commit d f))) eqn:E; [| reflexivity].
    apply commit_valid in E as (r & c & w & _ & _ & Hw' & _). congruence.
  - destruct (commit_objects d f) as (_ & _ & E). rewrite Hw in E.
    unfold renderFrame. rewrite E. reflexivity.
Qed.

(** *** Channel gating *)

(** Decide comparisons between a channel name that is known and the
    literal names in [map]. *)
Ltac literal_names :=
  repeat match goal with
  | |- context [bool_decide (?a = ?b)] =>
      first [ rewrite (bool_decide_eq_true_2 (a = b)) by reflexivity
            | rewrite (bool_decide_eq_false_2 (a = b))
                by (first [assumption | discriminate]) ]
  end.

(** The channel types that a successful commit stores. *)
Lemma commit_channel_types d f :
  m_valid (fst (commit d f)) = true ->
  let ps := params f in
  let f' := fst (commit d f) in
  let depthType0 := getParamDataType "channel.depth" ANARI_UNKNOWN ps in
  m_colorType f' = getParamDataType "channel.color" ANARI_UFIXED8_RGBA_SRGB ps
  /\ m_depthType f'
     = (if (bool_decide (depthType0 = ANARI_FLOAT32)
            || requestedAs ps "channel.primitiveId" ANARI_UINT32
            || requestedAs ps "channel.objectId" ANARI_UINT32
            || requestedAs ps "channel.instanceId" ANARI_UINT32)
           && negb (bool_decide (depthType0 = ANARI_FLOAT32))
        then ANARI_FLOAT32 else depthType0)
  /\ m_primIDType f' = getParamDataType "channel.primitiveId" ANARI_UNKNOWN ps
  /\ m_objIDType f' = getParamDataType "channel.objectId" ANARI_UNKNOWN ps
  /\ m_instIDType f' = getParamDataType "channel.instanceId" ANARI_UNKNOWN ps
  /\ m_albedoType f' = getParamDataType "channel.albedo" ANARI_UNKNOWN ps
  /\ m_normalType f' = getParamDataType "channel.normal" ANARI_UNKNOWN ps.
Proof.
  unfold commit. cbv zeta. destruct (negb _) eqn:E; cbn [fst m_valid].
  - intros Hv. rewrite Hv in E. discriminate.
  - intros _. repeat split; reflexivity.
Qed.

Lemma commit_depth_gate d f :
  m_valid (fst (commit d f)) = true ->
  bool_decide (m_depthType (fst (commit d f)) = ANARI_FLOAT32)
  = depthAvailable (params f).
Proof.
  intros Hv. destruct (commit_channel_types d f Hv) as (_ & -> & _).
  unfold depthAvailable, requestedAs.
  destruct (bool_decide
              (getParamDataType "channel.depth" ANARI_UNKNOWN (params f)
               = ANARI_FLOAT32)) eqn:E0; cbn [orb andb negb]; [exact E0 |].
  destruct (_ || _ || _); cbn [orb]; [reflexivity | exact E0].
Qed.

(** C7 (as amended) -- for a frame whose commit succeeded, [map] hands out
    exactly the channels that [offered] lists for the committed parameters:
    color and colorGPU always, under the committed color type; depth and
    depthGPU when depth was requested as FLOAT32 or any ID channel as
    UINT32; primitiveId, objectId and instanceId when requested as UINT32;
    normal and albedo when requested as FLOAT32, reported as FLOAT32_VEC3.
    The reported pixel type is the offered one, or unknown.  Width and
    height are written exactly when the reported type is not unknown, and
    a null result always comes with type unknown and width and height
    unwritten. *)
Theorem map_channel_gating d f ch :
  m_valid (fst (commit d f)) = true ->
  let m := snd (map ch (fst (commit d f))) in
  let t := offered (params f) ch in
  (is_Some (retval m) <-> is_Some t)
  /\ pixelType m = default ANARI_UNKNOWN t
  /\ (width m = None <-> pixelType m = ANARI_UNKNOWN)
  /\ (height m = None <-> pixelType m = ANARI_UNKNOWN)
  /\ (retval m = None ->
      pixelType m = ANARI_UNKNOWN /\ width m = None /\ height m = None).
Proof.
  intros Hv.
  pose proof (commit_depth_gate d f Hv) as Ed.
  destruct (commit_channel_types d f Hv) as (Ec & _ & Ep & Eo & Ei & Ea & En).
  cbv zeta in *.
  set (f' := fst (commit d f)) in *.
  unfold map, offered. cbv zeta.
  rewrite Ed, Ec, Ep, Eo, Ei, Ea, En.
  fold (requestedAs (params f) "channel.primitiveId" ANARI_UINT32).
  fold (requestedAs (params f) "channel.objectId" ANARI_UINT32).
  fold (requestedAs (params f) "channel.instanceId" ANARI_UINT32).
  fold (requestedAs (params f) "channel.normal" ANARI_FLOAT32).
  fold (requestedAs (params f) "channel.albedo" ANARI_FLOAT32).
  generalize (getParamDataType "channel.color" ANARI_UFIXED8_RGBA_SRGB
                (params f)) as T.
  generalize (depthAvailable (params f)) as bd.
  generalize (requestedAs (params f) "channel.primitiveId" ANARI_UINT32) as bp.
  generalize (requestedAs (params f) "channel.objectId" ANARI_UINT32) as bo.
  generalize (requestedAs (params f) "channel.instanceId" ANARI_UINT32) as bi.
  generalize (requestedAs (params f) "channel.normal" ANARI_FLOAT32) as bn.
  generalize (requestedAs (params f) "channel.albedo" ANARI_FLOAT32) as ba.
  clear. intros ba bn bi bo bp bd T.
  unfold mapColorBuffer, mapGPUColorBuffer, mapDepthBuffer, mapPrimIDBuffer,
    mapObjIDBuffer, mapInstIDBuffer, mapAlbedoBuffer, mapNormalBuffer,
    mapDownloaded, mapGPUDepthBuffer, mapScaled, host, device.
  destruct (decide (ch = "channel.color")) as [-> | N1];
  [| destruct (decide (ch = "channel.colorGPU")) as [-> | N2];
  [| destruct (decide (ch = "channel.depth")) as [-> | N3];
  [| destruct (decide (ch = "channel.depthGPU")) as [-> | N4];
  [| destruct (decide (ch = "channel.primitiveId")) as [-> | N5];
  [| destruct (decide (ch = "channel.objectId")) as [-> | N6];
  [| destruct (decide (ch = "channel.instanceId")) as [-> | N7];
  [| destruct (decide (ch = "channel.normal")) as [-> | N8];
  [| destruct (decide (ch = "channel.albedo")) as [-> | N9]]]]]]]]];
  literal_names; cbn [orb andb];
  repeat match goal with
  | |- context [andb ?b _] => is_var b; destruct b; cbn [andb orb]
  | |- context [m_denoise f'] => destruct (m_denoise f')
  end;
  cbn;
  try match goal with
  | |- context [bool_decide (T = ANARI_UNKNOWN)] =>
      destruct (bool_decide (T = ANARI_UNKNOWN)) eqn:ET;
      [apply bool_decide_eq_true in ET | apply bool_decide_eq_false in ET];
      cbn
  end;
  unfold is_Some;
  repeat match goal with Hn : _ <> _ :> string |- _ => clear Hn end;
  repeat split; intros; try discriminate; try congruence; eauto;
  try match goal with
  | Hx : exists _, None = Some _ |- _ => destruct Hx; discriminate
  end.
Qed.

End FrameProperties.

(** *** The frame theorems on sample runs *)

Lemma newFrame_checkerboard_cycle_witness :
  let d := Demo.device true 0 1%N 1%N in
  let f := Demo.committed true in
  List.map (fun g => (checkerboardID (fb g), frameID (fb g)))
    [newFrame d f; newFrame d (newFrame d f);
     newFrame d (newFrame d (newFrame d f));
     newFrame d (newFrame d (newFrame d (newFrame d f)));
     newFrame d (newFrame d (newFrame d (newFrame d (newFrame d f))))]
  = [(0, 0); (1, 0); (2, 0); (3, 0); (0, 1)].
Proof.
  intros d f.
  assert (E : frameID (fb f) = 0) by (vm_compute; reflexivity).
  assert (Hi : in_int (frameID (fb f))).
  { rewrite E. unfold in_int, INT_MIN, INT_MAX. lia. }
  assert (Hm : frameID (fb f) < INT_MAX).
  { rewrite E. unfold INT_MAX. lia. }
  refine (proj2 (proj2 (proj2 (newFrame_checkerboard_cycle d f Hi Hm))) _ _);
    vm_compute; reflexivity.
Defined.

Lemma newFrame_inverse_count_witness :
  let d := Demo.device false 0 1%N 1%N in
  let f := Demo.rendered d 4 (Demo.committed false) in
  frameID (fb (newFrame d f)) = 3
  /\ (1 - (1 # 8388608) <= invFrameID (fb (newFrame d f)) * inject_Z (3 + 1)
                        <= 1 + (1 # 8388608))%Q.
Proof.
  intros d f.
  assert (E : frameID (fb (newFrame d f)) = 3) by (vm_compute; reflexivity).
  split; [exact E |].
  assert (Hc : 0 <= frameID (fb (newFrame d f)) < 16777216)
    by (rewrite E; lia).
  pose proof (proj2 (proj2 (proj1 (proj2 (proj2
                (newFrame_inverse_count d f))) Hc))) as A.
  rewrite E in A. exact A.
Defined.

(** C9 (as stated) fails beyond 24 bits: the sample that follows count
    16777215 gets [frameID] 16777216, and [float(16777217)] is 16777216,
    so the stored inverse is 1/16777216 once more.  It is not
    [1 / (frameID + 1)], and not the [float] nearest to it either: the
    float one unit below is nearer. *)
Lemma newFrame_inverse_count_beyond_24_bits :
  let d := Demo.device false 0 1%N 1%N in
  let f' := newFrame d (Session.counted 16777215) in
  let exact := (1 / inject_Z (frameID (fb f') + 1))%Q in
  let below := Float32.toQ (SpecFloat.S754_finite false 16777215 (-48)) in
  frameID (fb f') = 16777216
  /\ invFrameID (fb f') = (1 # 16777216)%Q
  /\ invFrameID (fb (Session.counted 16777215)) = (1 # 16777216)%Q
  /\ ~ (invFrameID (fb f') == exact)%Q
  /\ (below < exact < invFrameID (fb f'))%Q
  /\ (exact - below < invFrameID (fb f') - exact)%Q.
Proof.
  cbv zeta. split; [reflexivity |].
  split; [vm_compute; reflexivity |]. split; [vm_compute; reflexivity |].
  split; [| split; [split |]]; vm_compute; discriminate || reflexivity.
Qed.

Lemma renderFrame_reset_after_flush_witness :
  let d0 := Demo.device false 0 1%N 1%N in
  let d1 := Demo.device false 0 2%N 1%N in
  let f0 := Demo.rendered d0 2 (Demo.committed false) in
  let f1 := Demo.rendered d0 1 f0 in
  let f2 := Demo.rendered d1 1 f1 in
  let f3 := Demo.rendered d1 1 f2 in
  frameID (fb f1) = 1 /\ frameID (fb f2) = 0 /\ frameID (fb f3) = 1.
Proof.
  intros d0 d1 f0 f1 f2 f3.
  assert (S1 : singleSample d1).
  { intros r. split; [vm_compute; discriminate | reflexivity]. }
  split; [vm_compute; reflexivity |].
  refine (let P := renderFrame_reset_after_flush d0 d1 d1 f0 f1 f2 f3
                     (Demo.logAfter (renderFrame d0 f0))
                     (Demo.logAfter (renderFrame d1 f1))
                     (Demo.logAfter (renderFrame d1 f2))
                     S1 S1 _ _ _ _ _ _ _ _ _ _ _ _ _
          in conj (proj1 P) (proj1 (proj2 P)));
    try (vm_compute; reflexivity); try (vm_compute; discriminate).
  left. vm_compute. reflexivity.
Defined.

Lemma renderFrame_sample_limit_witness :
  let d := Demo.device false 1 1%N 1%N in
  let f := Demo.rendered d 3 (Demo.committed false) in
  frameID (fb f) = 1
  /\ (exists f' l,
        renderFrame d f = Done f' l
        /\ (forall g x y, ~ In (EvLaunch g x y) l)
        /\ fb f' = fb f
        /\ accumulation f' = accumulation f
        /\ storage f' = storage f)
  /\ (exists f' g x y rest,
        renderFrame d (Demo.committed false)
        = Done f' (flushLog 3%positive
                   ++ EvRecordStart :: EvLaunch g x y :: rest)
        /\ frameID g = 0
        /\ m_nextFrameReset f' = false).
Proof.
  intros d f.
  split; [vm_compute; reflexivity |].
  split.
  - refine (proj1 (renderFrame_sample_limit d f 1%positive 2%positive
                     3%positive _ _ _ _ _) _ _ _);
      try (vm_compute; reflexivity); vm_compute; discriminate.
  - refine (proj2 (renderFrame_sample_limit d (Demo.committed false)
                     1%positive 2%positive 3%positive _ _ _ _ _) _);
      vm_compute; reflexivity.
Defined.

Lemma renderFrame_unbound_world_crashes_witness :
  let d := Demo.device false 0 1%N 1%N in
  let f := fst (commit d (Demo.fresh Demo.unbound_world)) in
  m_valid f = false /\ renderFrame d f = Crashed.
Proof.
  intros d f.
  apply (renderFrame_unbound_world_crashes d d (Demo.fresh Demo.unbound_world)).
  vm_compute. reflexivity.
Defined.

(** C7 (as stated) fails: a frame committed with only the object ID channel
    requested hands out its depth buffer, with pixel type FLOAT32 and the
    frame size, although 'channel.depth' was never set. *)
Lemma map_depth_never_requested :
  let d := Demo.device false 0 1%N 1%N in
  let f := fst (commit d (Demo.fresh Demo.with_objectId)) in
  let m := snd (map "channel.depth" f) in
  Demo.with_objectId !! "channel.depth" = None
  /\ m_valid f = true
  /\ retval m = Some {| p_buf := DepthBuffer; p_space := HOST |}
  /\ pixelType m = ANARI_FLOAT32
  /\ width m = Some 10%N /\ height m = Some 10%N.
Proof. vm_compute. repeat split; reflexivity. Qed.

Lemma map_channel_gating_witness :
  let d := Demo.device false 0 1%N 1%N in
  let f := Demo.fresh Demo.with_objectId in
  let m := snd (map "channel.normal" (fst (commit d f))) in
  retval m = None
  /\ pixelType m = ANARI_UNKNOWN /\ width m = None /\ height m = None.
Proof.
  intros d f m.
  assert (Hv : m_valid (fst (commit d f)) = true) by (vm_compute; reflexivity).
  assert (Hn : retval m = None) by (vm_compute; reflexivity).
  split; [exact Hn |].
  exact (proj2 (proj2 (proj2 (proj2
           (map_channel_gating d f "channel.normal" Hv)))) Hn).
Defined.

(** ** The integrator loop *)

Section IntegratorProperties.

Import SciVis.
Local Open Scope Q_scope.

Context {ScreenSample VolumeHit : Type} {api : ShadingAPI ScreenSample VolumeHit}.
Implicit Types (l : Locals) (ss : ScreenSample) (hit : SurfaceHit).

Lemma Qltb_lt a b : Qltb a b = true <-> a < b.
Proof.
  unfold Qltb. rewrite negb_true_iff. split.
  - intros E. apply Qnot_le_lt. intros Hle.
    apply Qle_bool_iff in Hle. congruence.
  - intros Hlt. destruct (Qle_bool b a) eqn:E; [| reflexivity].
    apply Qle_bool_iff in E. exfalso. exact (Qlt_not_le _ _ Hlt E).
Qed.

Lemma Qltb_ge a b : Qltb a b = false <-> b <= a.
Proof.
  unfold Qltb. rewrite negb_false_iff. apply Qle_bool_iff.
Qed.

(** What one surface iteration leaves in the locals. *)
Lemma surfaceStep_fields tmax l hit ss :
  let vm := fst (rayMarchAllVolumes (clipped tmax l) (Surf.t hit) ss) in
  let l' := fst (surfaceStep tmax l hit ss) in
  let volumeFirst := Qltb (vDepth vm) (Surf.t hit) in
  firstHit l' = false
  /\ outputOpacity l'
     = accumulateValue (outputOpacity l)
         (accumulateValue (vOpacity vm) (opacity (getMaterialValues hit))
            (vOpacity vm))
         (outputOpacity l)
  /\ depth l' = (if firstHit l
                 then (if volumeFirst then vDepth vm else Surf.t hit)
                 else depth l)
  /\ outputNormal l' = (if firstHit l
                        then (if volumeFirst then vneg (dir (ray l))
                              else Surf.Ng hit)
                        else outputNormal l)
  /\ primID l' = (if firstHit l
                  then (if volumeFirst then 0%N else Surf.primID hit)
                  else primID l)
  /\ objID l' = (if firstHit l
                 then (if volumeFirst then vObjID vm else Surf.objID hit)
                 else objID l)
  /\ instID l' = (if firstHit l
                  then (if volumeFirst then vInstID vm else Surf.instID hit)
                  else instID l).
Proof.
  unfold surfaceStep, bind, ret, clipped.
  destruct (rayMarchAllVolumes _ (Surf.t hit) ss) as [vm ss1]. cbn [fst].
  destruct ((if (0 <? aoSamples)%Z then computeAO _ hit else _) ss1)
    as [ao ss2].
  destruct (computeLightConrib hit ss2) as [lc ss3]. cbn.
  repeat split; reflexivity.
Qed.

Lemma missStep_fields tmax l ss :
  let l' := fst (missStep tmax l ss) in
  firstHit l = false ->
  depth l' = depth l /\ outputNormal l' = outputNormal l
  /\ primID l' = primID l /\ objID l' = objID l /\ instID l' = instID l.
Proof.
  unfold missStep, bind, ret.
  destruct (rayMarchAllVolumes _ tmax ss) as [vm ss1]. cbn.
  intros ->. repeat split; reflexivity.
Qed.

(** One unfolding of the loop. *)
Lemma integrate_step fuel tmax l ss :
  integrate (S fuel) tmax l ss =
  if Qltb (outputOpacity l) saturation then
    match intersectSurface (clipped tmax l) ss with
    | (Some hit, ss1) =>
        let l1 := fst (surfaceStep tmax l hit ss1) in
        let ss2 := snd (surfaceStep tmax l hit ss1) in
        match integrate fuel tmax l1 ss2 with
        | (Some (l', evs), ss') =>
            (Some (l', TrIntersect (clipped tmax l)
                         :: TrMarch (clipped tmax l) (Surf.t hit)
                         :: TrShade hit :: evs), ss')
        | (None, ss') => (None, ss')
        end
    | (None, ss1) =>
        (Some (fst (missStep tmax l ss1),
               [TrIntersect (clipped tmax l); TrMarch (clipped tmax l) tmax;
                TrBackground]),
         snd (missStep tmax l ss1))
    end
  else (Some (l, []), ss).
Proof.
  cbn [integrate]. fold (clipped tmax l).
  destruct (Qltb (outputOpacity l) saturation); [| reflexivity].
  unfold bind, ret. destruct (intersectSurface (clipped tmax l) ss) as [[hit |] ss1].
  - destruct (surfaceStep tmax l hit ss1) as [l1 ss2]. cbn [fst snd].
    destruct (integrate fuel tmax l1 ss2) as [[[l' evs] |] ss']; reflexivity.
  - destruct (missStep tmax l ss1) as [l1 ss2]. reflexivity.
Qed.

Lemma integrate_saturated fuel tmax l ss :
  Qltb (outputOpacity l) saturation = false ->
  integrate fuel tmax l ss = (Some (l, []), ss).
Proof. intros E. destruct fuel; cbn [integrate]; rewrite E; reflexivity. Qed.

(** A fully opaque surface ends the loop in the iteration that shades it. *)
Lemma integrate_opaque_hit fuel tmax l ss hit ss1 :
  outputOpacity l < saturation ->
  intersectSurface (clipped tmax l) ss = (Some hit, ss1) ->
  opacity (getMaterialValues hit) == 1 ->
  integrate (S fuel) tmax l ss
  = (Some (fst (surfaceStep tmax l hit ss1),
           [TrIntersect (clipped tmax l);
            TrMarch (clipped tmax l) (Surf.t hit); TrShade hit]),
     snd (surfaceStep tmax l hit ss1))
  /\ outputOpacity (fst (surfaceStep tmax l hit ss1)) == 1.
Proof.
  intros Hlt Hhit Hop.
  destruct (surfaceStep_fields tmax l hit ss1) as (_ & Eo & _).
  assert (E1 : outputOpacity (fst (surfaceStep tmax l hit ss1)) == 1).
  { rewrite Eo. unfold accumulateValue. rewrite Hop. ring. }
  split; [| exact E1].
  rewrite integrate_step. apply Qltb_lt in Hlt. rewrite Hlt, Hhit. cbv zeta.
  rewrite integrate_saturated; [reflexivity |].
  apply Qltb_ge. rewrite E1. unfold saturation. discriminate.
Qed.

(** Once [firstHit] is cleared the loop no longer touches the depth, the
    normal and the IDs. *)
Lemma integrate_keeps_attribution fuel tmax l ss l' evs ss' :
  firstHit l = false ->
  integrate fuel tmax l ss = (Some (l', evs), ss') ->
  depth l' = depth l /\ outputNormal l' = outputNormal l
  /\ primID l' = primID l /\ objID l' = objID l /\ instID l' = instID l.
Proof.
  revert l ss l' evs ss'. induction fuel as [| fuel IH]; intros l ss l' evs ss' Hf.
  - cbn [integrate]. destruct (Qltb _ _); unfold ret; [discriminate |].
    intros [= <- _ _]. repeat split; reflexivity.
  - rewrite integrate_step. destruct (Qltb _ _).
    + destruct (intersectSurface (clipped tmax l) ss) as [[hit |] ss1].
      * cbv zeta.
        destruct (surfaceStep_fields tmax l hit ss1)
          as (Ef & _ & Ed & En & Ep & Eo & Ei).
        rewrite Hf in Ed, En, Ep, Eo, Ei.
        destruct (integrate fuel tmax _ _) as [[[l2 evs2] |] ss2] eqn:Erest;
          [| discriminate].
        intros [= <- _ _].
        destruct (IH _ _ _ _ _ Ef Erest) as (-> & -> & -> & -> & ->).
        repeat split; assumption.
      * intros [= <- _ _]. apply missStep_fields. exact Hf.
    + intros [= <- _ _]. repeat split; reflexivity.
Qed.

Lemma surfaceStep_ray tmax l hit ss :
  ray (fst (surfaceStep tmax l hit ss))
  = {| org := org (ray l); dir := dir (ray l);
       t := {| lower := Surf.t hit + Surf.epsilon hit; upper := tmax |} |}.
Proof.
  unfold surfaceStep, bind, ret, clipped.
  destruct (rayMarchAllVolumes _ (Surf.t hit) ss) as [vm ss1].
  destruct ((if (0 <? aoSamples)%Z then computeAO _ hit else _) ss1)
    as [ao ss2].
  destruct (computeLightConrib hit ss2) as [lc ss3]. reflexivity.
Qed.

Lemma filter_length_lt {A : Type} (p q : A -> bool) (xs : list A) (x : A) :
  (forall y, q y = true -> p y = true) ->
  In x xs -> p x = true -> q x = false ->
  (length (List.filter q xs) < length (List.filter p xs))%nat.
Proof.
  intros Hqp. 
  assert (Le : forall ys, (length (List.filter q ys) <= length (List.filter p ys))%nat).
  { induction ys as [| y ys IH]; [apply Nat.le_refl |]. cbn [List.filter].
    destruct (q y) eqn:Eq.
    - rewrite (Hqp y Eq). cbn [length]. apply le_n_S. exact IH.
    - destruct (p y); cbn [length]; [apply Nat.le_le_succ_r |]; exact IH. }
  induction xs as [| y ys IH]; intros Hin Hp Hq; [destruct Hin |].
  cbn [List.filter]. destruct Hin as [-> | Hin].
  - rewrite Hp, Hq. cbn [length]. apply Nat.lt_succ_r. apply Le.
  - specialize (IH Hin Hp Hq). destruct (q y) eqn:Eq.
    + rewrite (Hqp y Eq). cbn [length]. apply -> Nat.succ_lt_mono. exact IH.
    + destruct (p y); cbn [length]; [apply Nat.lt_lt_succ_r |]; exact IH.
Qed.

(** The surfaces the ray can still meet: those at or beyond its near end. *)
Lemma integrate_enough_fuel surfs fuel tmax l ss :
  (forall r s h, fst (intersectSurface r s) = Some h ->
                 In h surfs /\ lower (t r) <= Surf.t h) ->
  (forall h, In h surfs -> 0 < Surf.epsilon h) ->
  (length (List.filter
             (fun h => negb (Qltb (Surf.t h) (lower (t (ray l))))) surfs)
   < fuel)%nat ->
  is_Some (fst (integrate fuel tmax l ss)).
Proof.
  intros Hsurf Heps. revert l ss.
  induction fuel as [| fuel IH]; intros l ss Hc; [inversion Hc |].
  rewrite integrate_step. destruct (Qltb _ _); [| eexists; reflexivity].
  destruct (intersectSurface (clipped tmax l) ss) as [[hit |] ss1] eqn:Ei;
    [| eexists; reflexivity].
  cbv zeta.
  destruct (Hsurf (clipped tmax l) ss hit) as [Hin Hlo];
    [rewrite Ei; reflexivity |].
  cbn [clipped t lower] in Hlo.
  assert (Hlt : (length (List.filter
                   (fun h => negb (Qltb (Surf.t h)
                      (lower (t (ray (fst (surfaceStep tmax l hit ss1)))))))
                   surfs) < fuel)%nat).
  { rewrite surfaceStep_ray. cbn [ray t lower].
    apply Nat.lt_le_trans
      with (length (List.filter
              (fun h => negb (Qltb (Surf.t h) (lower (t (ray l))))) surfs));
      [| apply Nat.lt_succ_r; exact Hc].
    pose proof (Heps hit Hin) as He.
    apply (filter_length_lt _ _ surfs hit).
    - intros y Hy. apply negb_true_iff in Hy. apply Qltb_ge in Hy.
      apply negb_true_iff. apply Qltb_ge. lra.
    - exact Hin.
    - apply negb_true_iff. apply Qltb_ge. exact Hlo.
    - apply negb_false_iff. apply Qltb_lt. lra. }
  destruct (IH _ (snd (surfaceStep tmax l hit ss1)) Hlt) as [[l2 evs2] E2].
  destruct (integrate fuel tmax _ _) as [[[l3 evs3] |] ss3];
    [eexists; reflexivity | discriminate].
Qed.

(** C3 -- opacity saturation.  The loop body runs only while the output
    opacity is below 0.99: at or above it the loop returns at once, without
    an intersection query.  When the query finds no surface the iteration
    composites volume and background and the loop ends, whatever the
    opacity.  When the surface found is fully opaque (material opacity 1)
    the output opacity becomes 1, and the loop ends after this one
    iteration for any amount of remaining fuel: the surfaces behind it are
    neither intersected nor shaded.  In particular a primary ray whose
    nearest surface is fully opaque makes one intersection query and shades
    one surface. *)
Theorem integrate_opacity_saturation fuel tmax l ss primary :
  (~ outputOpacity l < saturation ->
   integrate fuel tmax l ss = (Some (l, []), ss))
  /\ (outputOpacity l < saturation ->
      forall ss1,
        intersectSurface (clipped tmax l) ss = (None, ss1) ->
        integrate (S fuel) tmax l ss
        = (Some (fst (missStep tmax l ss1),
                 [TrIntersect (clipped tmax l); TrMarch (clipped tmax l) tmax;
                  TrBackground]),
           snd (missStep tmax l ss1)))
  /\ (outputOpacity l < saturation ->
      forall hit ss1,
        intersectSurface (clipped tmax l) ss = (Some hit, ss1) ->
        opacity (getMaterialValues hit) == 1 ->
        integrate (S fuel) tmax l ss
        = (Some (fst (surfaceStep tmax l hit ss1),
                 [TrIntersect (clipped tmax l);
                  TrMarch (clipped tmax l) (Surf.t hit); TrShade hit]),
           snd (surfaceStep tmax l hit ss1))
        /\ saturation <= outputOpacity (fst (surfaceStep tmax l hit ss1)))
  /\ (forall hit ss1,
        let r0 := clipped (upper (t primary)) (initial primary) in
        intersectSurface r0 ss = (Some hit, ss1) ->
        opacity (getMaterialValues hit) == 1 ->
        exists l',
          raygen (S fuel) primary ss
          = (Some (l', [TrIntersect r0; TrMarch r0 (Surf.t hit); TrShade hit]),
             snd (surfaceStep (upper (t primary)) (initial primary) hit ss1))
          /\ saturation <= outputOpacity l').
Proof.
  assert (Sat : forall q, q == 1 -> saturation <= q).
  { intros q ->. unfold saturation. discriminate. }
  repeat split.
  - intros Hge. apply integrate_saturated.
    destruct (Qltb (outputOpacity l) saturation) eqn:E; [| reflexivity].
    apply Qltb_lt in E. contradiction.
  - intros Hlt ss1 Hmiss. rewrite integrate_step.
    apply Qltb_lt in Hlt. rewrite Hlt, Hmiss. reflexivity.
  - apply (integrate_opaque_hit fuel tmax l ss hit ss1); assumption.
  - apply Sat. apply (integrate_opaque_hit fuel tmax l ss hit ss1); assumption.
  - intros hit ss1 r0 Hhit Hop.
    assert (H0 : outputOpacity (initial primary) < saturation) by reflexivity.
    destruct (integrate_opaque_hit fuel _ _ ss hit ss1 H0 Hhit Hop) as [E E1].
    eexists. split; [exact E | apply Sat; exact E1].
Qed.

(** What the first iteration decides stays until the loop returns. *)
Lemma first_hit_attribution_kept fuel primary ss hit ss1 l' evs ss' :
  let tmax := upper (t primary) in
  let l1 := fst (surfaceStep tmax (initial primary) hit ss1) in
  intersectSurface (clipped tmax (initial primary)) ss = (Some hit, ss1) ->
  raygen fuel primary ss = (Some (l', evs), ss') ->
  depth l' = depth l1 /\ outputNormal l' = outputNormal l1
  /\ primID l' = primID l1 /\ objID l' = objID l1 /\ instID l' = instID l1.
Proof.
  intros tmax l1 Hhit. unfold raygen. fold tmax.
  destruct fuel as [| fuel]; [cbn; discriminate |].
  rewrite integrate_step.
  change (Qltb (outputOpacity (initial primary)) saturation) with true.
  cbv iota. rewrite Hhit. cbv zeta. fold l1.
  destruct (surfaceStep_fields tmax (initial primary) hit ss1) as (Ef & _).
  fold l1 in Ef.
  destruct (integrate fuel _ _ _) as [[[l2 evs2] |] ss2] eqn:Erest;
    [| discriminate].
  intros [= <- _ _].
  exact (integrate_keeps_attribution _ _ _ _ _ _ _ Ef Erest).
Qed.

(** C4 -- depth and ID attribution.  When the first iteration of the loop
    finds a surface, the depth, normal and IDs are decided there by
    comparing the depth of the first volume sample with the distance of
    the surface: if the volume sample is nearer they are the volume's
    depth, object and instance ID, primitive ID 0 and the negated ray
    direction, otherwise the surface's distance, geometric normal and
    primitive, object and instance ID.  This is what the locals hold after
    that iteration, and what every run of [__raygen__] that returns hands
    to [accumResults].  The run does return: in a scene of finitely many
    surfaces, none reported before the near end of the ray and each hit
    with a positive epsilon, one iteration per surface and one more are
    enough. *)
Theorem raygen_first_hit_attribution surfs fuel primary ss hit ss1 :
  let tmax := upper (t primary) in
  let r0 := clipped tmax (initial primary) in
  let vm := fst (rayMarchAllVolumes r0 (Surf.t hit) ss1) in
  let attributed l' :=
    if Qltb (vDepth vm) (Surf.t hit)
    then depth l' = vDepth vm /\ objID l' = vObjID vm
         /\ instID l' = vInstID vm /\ primID l' = 0%N
         /\ outputNormal l' = vneg (dir primary)
    else depth l' = Surf.t hit /\ objID l' = Surf.objID hit
         /\ instID l' = Surf.instID hit /\ primID l' = Surf.primID hit
         /\ outputNormal l' = Surf.Ng hit in
  intersectSurface r0 ss = (Some hit, ss1) ->
  attributed (fst (surfaceStep tmax (initial primary) hit ss1))
  /\ (forall l' evs ss',
        raygen fuel primary ss = (Some (l', evs), ss') -> attributed l')
  /\ ((forall r s h, fst (intersectSurface r s) = Some h ->
                     In h surfs /\ lower (t r) <= Surf.t h) ->
      (forall h, In h surfs -> 0 < Surf.epsilon h) ->
      (length surfs < fuel)%nat ->
      exists l' evs ss',
        raygen fuel primary ss = (Some (l', evs), ss') /\ attributed l').
Proof.
  intros tmax r0 vm attributed Hhit.
  assert (First : attributed (fst (surfaceStep tmax (initial primary) hit ss1))).
  { destruct (surfaceStep_fields tmax (initial primary) hit ss1)
      as (_ & _ & Ed & En & Ep & Eo & Ei).
    fold r0 in Ed, En, Ep, Eo, Ei. fold vm in Ed, En, Ep, Eo, Ei.
    cbn [firstHit initial ray dir] in Ed, En, Ep, Eo, Ei.
    unfold attributed. rewrite Ed, En, Ep, Eo, Ei.
    destruct (Qltb (vDepth vm) (Surf.t hit)); repeat split; reflexivity. }
  assert (Kept : forall l' evs ss',
            raygen fuel primary ss = (Some (l', evs), ss') -> attributed l').
  { intros l' evs ss' R.
    destruct (first_hit_attribution_kept fuel primary ss hit ss1 l' evs ss'
                Hhit R) as (Kd & Kn & Kp & Ko & Ki).
    unfold attributed in *. rewrite Kd, Kn, Kp, Ko, Ki. exact First. }
  split; [exact First |]. split; [exact Kept |].
  intros Hsurf Heps Hfuel.
  assert (Hsome : is_Some (fst (raygen fuel primary ss))).
  { unfold raygen. apply (integrate_enough_fuel surfs); [assumption .. |].
    eapply Nat.le_lt_trans; [apply List.filter_length_le | exact Hfuel]. }
  destruct (raygen fuel primary ss) as [[[l' evs] |] ss'] eqn:R;
    [| destruct Hsome as [x Hx]; discriminate].
  exists l', evs, ss'. split; [reflexivity |]. exact (Kept l' evs ss' eq_refl).
Qed.

(** ** Shadow rays *)

Lemma anyhit_shadow_surface_cases hit occ ss :
  anyhit_shadow_surface hit occ ss
  = if opaqueHit hit then ((true, TerminateRay), ss)
    else ((occ, IgnoreIntersection), ss).
Proof.
  unfold anyhit_shadow_surface, opaqueHit, ret.
  destruct (negb _); reflexivity.
Qed.

(** The occlusion query leaves the screen sample alone and answers whether
    some candidate inside the ray is opaque. *)
Lemma shadow_trace_occluded tmax cands occ ss :
  let res := optixTrace Surf.t anyhit_shadow_surface tmax cands occ ss in
  snd res = ss
  /\ fst (fst res)
     = occ || existsb (fun h => Qltb (Surf.t h) tmax && opaqueHit h) cands.
Proof.
  revert occ. induction cands as [| h rest IH]; intros occ.
  - cbn. rewrite orb_false_r. split; reflexivity.
  - cbn [optixTrace existsb]. destruct (Qltb (Surf.t h) tmax); cbn [andb].
    + unfold bind. rewrite anyhit_shadow_surface_cases.
      destruct (opaqueHit h); cbn [fst snd orb].
      * unfold ret. cbn. rewrite orb_true_r. split; reflexivity.
      * specialize (IH occ). cbv zeta in IH.
        destruct (optixTrace Surf.t anyhit_shadow_surface tmax rest occ ss)
          as [[o v] s']. exact IH.
    + apply IH.
Qed.


Lemma isOccluded_spec r ss :
  isOccluded r ss
  = (existsb (fun h => Qltb (Surf.t h) (upper (t r)) && opaqueHit h)
       (surfaceCandidates r), ss).
Proof.
  unfold isOccluded, shadowTrace, bind, ret.
  pose proof (shadow_trace_occluded (upper (t r)) (surfaceCandidates r)
                false ss) as [E1 E2].
  destruct (optixTrace _ _ _ _ _ _) as [[o v] s']. cbn in *. congruence.
Qed.

Lemma lightContrib_cases hit shadePoint light ss :
  let ls := fst (sampleLight hit light ss) in
  let ss1 := snd (sampleLight hit light ss) in
  let r := shadowRay shadePoint ls in
  lightContrib hit shadePoint light ss
  = if fst (isOccluded r ss1) then (None, ss1)
    else (Some (vscale
                  (vscale (vscale (ls_radiance ls)
                             (dot (ls_dir ls) (Surf.Ns hit)))
                     lightFalloff)
                  (1 - fst (attenuation r ss1))),
          snd (attenuation r ss1)).
Proof.
  intros ls ss1 r.
  unfold lightContrib, bind, ret. subst r ls ss1. unfold shadowRay.
  destruct (sampleLight hit light ss) as [ls ss1]. cbn [fst snd].
  rewrite isOccluded_spec. cbn [fst snd].
  destruct (existsb _ _); cbn [negb]; [reflexivity |].
  destruct (attenuation _ ss1) as [a ss2]. reflexivity.
Qed.






End IntegratorProperties.

(** ** The transfer function table *)

Section TransferFunctionProperties.

Import SciVis TransferFunction1D.

Variable m_tfDim : nat.
Variable generateLinearPositions : nat -> box1 -> list Q.
Variable getInterpolatedValue :
  forall {A : Type}, list A -> list Q -> box1 -> Q -> A.

Let commit' := commit m_tfDim generateLinearPositions (@getInterpolatedValue).

(** A commit that passes its checks reads through a null pointer exactly
    when 'color.position' is set and 'opacity.position' is not. *)
Lemma commit_null_dereference p :
  commit' p = NullDereference <->
  checkParams p = None /\ colorPosition p <> None /\ opacityPosition p = None.
Proof.
  unfold commit', commit, discritizeTFData.
  destruct (checkParams p) as [[sev msg] |] eqn:Ec.
  - split; [discriminate | intros [? _]; discriminate].
  - assert (Hco : color p <> None /\ opacity p <> None).
    { unfold checkParams in Ec.
      destruct (field p), (color p), (opacity p); try discriminate;
        split; discriminate. }
    destruct Hco as [Hc Ho].
    destruct (color p) as [cs |]; [| contradiction].
    destruct (opacity p) as [os |]; [| contradiction].
    destruct (colorPosition p) as [cp |], (opacityPosition p) as [op |];
      split; try discriminate; try (intros (_ & ? & ?); congruence).
    intros _. repeat split; discriminate.
Qed.

(** C10 -- with 'field', 'color', 'opacity' and 'color.position' set and
    'opacity.position' unset the commit passes every check, and
    [discritizeTFData] then takes the opacity positions from the null
    'opacity.position' array instead of generating them. *)
Theorem commit_reads_null_opacity_position :
  checkParams positions_for_color_only = None
  /\ commit' positions_for_color_only = NullDereference.
Proof.
  split; [reflexivity |].
  apply commit_null_dereference. repeat split; [discriminate].
Qed.

End TransferFunctionProperties.

(** ** The integrator theorems on stacked scenes *)

Section StackedScenes.

Import SciVis.
Local Open Scope Q_scope.

(** *** Any number of stacked opaque surfaces *)

Lemma nearestHit_spec lo hi surfs :
  match Stack.nearestHit lo hi surfs with
  | Some h =>
      In h surfs /\ lo <= Surf.t h /\ Surf.t h < hi
      /\ forall s, In s surfs -> lo <= Surf.t s -> Surf.t s < hi ->
                   Surf.t h <= Surf.t s
  | None => forall s, In s surfs -> ~ (lo <= Surf.t s /\ Surf.t s < hi)
  end.
Proof.
  induction surfs as [| x rest IH]; [intros s [] |].
  cbn [Stack.nearestHit].
  assert (Inside : negb (Qltb (Surf.t x) lo) && Qltb (Surf.t x) hi = true
                   <-> lo <= Surf.t x /\ Surf.t x < hi).
  { rewrite andb_true_iff, negb_true_iff, Qltb_ge, Qltb_lt. reflexivity. }
  destruct (Stack.nearestHit lo hi rest) as [best |].
  - destruct IH as (Hin & Hlo & Hhi & Hmin).
    destruct (negb (Qltb (Surf.t x) lo) && Qltb (Surf.t x) hi) eqn:Ei;
      cbn [andb].
    + destruct (Qltb (Surf.t best) (Surf.t x)) eqn:Eb; cbn [negb].
      * apply Qltb_lt in Eb.
        split; [right; exact Hin |]. split; [exact Hlo |]. split; [exact Hhi |].
        intros s [<- | Hs] H1 H2; [apply Qlt_le_weak; exact Eb | auto].
      * apply Qltb_ge in Eb. destruct (proj1 Inside eq_refl) as [Xlo Xhi].
        split; [left; reflexivity |]. split; [exact Xlo |]. split; [exact Xhi |].
        intros s [<- | Hs] H1 H2; [apply Qle_refl |].
        apply Qle_trans with (Surf.t best); auto.
    + split; [right; exact Hin |]. split; [exact Hlo |]. split; [exact Hhi |].
      intros s [<- | Hs] H1 H2; [| auto].
      pose proof (proj2 Inside (conj H1 H2)). discriminate.
  - destruct (negb (Qltb (Surf.t x) lo) && Qltb (Surf.t x) hi) eqn:Ei.
    + destruct (proj1 Inside eq_refl) as [Xlo Xhi].
      split; [left; reflexivity |]. split; [exact Xlo |]. split; [exact Xhi |].
      intros s [<- | Hs] H1 H2; [apply Qle_refl |].
      exfalso. apply (IH s Hs). auto.
    + intros s [<- | Hs]; [| apply IH; exact Hs].
      intros Hx. pose proof (proj2 Inside Hx). discriminate.
Qed.

(** A primary ray that meets at least one of a stack of fully opaque
    surfaces shades the nearest of them and nothing else, however many
    there are and whatever volume lies along the ray. *)
Lemma stacked_opaque_surfaces surfs volume fuel :
  (exists s, In s surfs /\ 0 <= Surf.t s /\ Surf.t s < 100) ->
  exists h,
    In h surfs
    /\ (forall s, In s surfs -> 0 <= Surf.t s -> Surf.t s < 100 ->
                  Surf.t h <= Surf.t s)
    /\ Stack.traced
         (raygen (api := Stack.scene surfs (fun _ => 1) volume) (S fuel)
            Stack.primary tt)
       = [TrIntersect Stack.primary; TrMarch Stack.primary (Surf.t h);
          TrShade h].
Proof.
  intros (s & Hs & Hlo & Hhi).
  pose proof (nearestHit_spec 0 100 surfs) as Hn.
  destruct (Stack.nearestHit 0 100 surfs) as [h |] eqn:En;
    [| exfalso; exact (Hn s Hs (conj Hlo Hhi))].
  destruct Hn as (Hin & _ & _ & Hmin).
  exists h. split; [exact Hin |]. split; [exact Hmin |].
  destruct (integrate_opaque_hit
              (api := Stack.scene surfs (fun _ => 1) volume)
              fuel 100 (initial Stack.primary) tt h tt) as [E _].
  - reflexivity.
  - cbn. unfold ret. rewrite En. reflexivity.
  - reflexivity.
  - unfold raygen. cbn [Stack.primary upper t].
    unfold Stack.traced. rewrite E. reflexivity.
Qed.

Lemma integrate_opacity_saturation_witness :
  exists l',
    raygen (api := Stack.three_opaque) 1 Stack.primary tt
    = (Some (l', [TrIntersect Stack.primary; TrMarch Stack.primary 1;
                  TrShade (Stack.surfaceAt 1 10)]), tt)
    /\ saturation <= outputOpacity l'.
Proof.
  refine (proj2 (proj2 (proj2
            (integrate_opacity_saturation (api := Stack.three_opaque)
               0 100 (initial Stack.primary) tt Stack.primary)))
            (Stack.surfaceAt 1 10) tt _ _).
  - vm_compute. reflexivity.
  - reflexivity.
Defined.

(** The same three surfaces with ample fuel: still one query and one shaded
    surface. *)
Example three_opaque_surfaces :
  Stack.traced (raygen (api := Stack.three_opaque) 10 Stack.primary tt)
  = [TrIntersect Stack.primary; TrMarch Stack.primary 1;
     TrShade (Stack.surfaceAt 1 10)].
Proof. vm_compute. reflexivity. Qed.

Lemma raygen_first_hit_attribution_witness :
  let res := SciVis.raygen (api := SciVis.Stack.surface_and_volume 5 3) 2
               SciVis.Stack.primary tt in
  exists l' evs,
    res = (Some (l', evs), tt)
    /\ SciVis.depth l' = 3%Q /\ SciVis.objID l' = 42%N
    /\ SciVis.instID l' = 9%N /\ SciVis.primID l' = 0%N
    /\ SciVis.outputNormal l' = SciVis.vneg (SciVis.dir SciVis.Stack.primary).
Proof.
  intros res.
  destruct (proj2 (proj2
              (raygen_first_hit_attribution
                 (api := SciVis.Stack.surface_and_volume 5 3)
                 [SciVis.Stack.surfaceAt 5 7] 2 SciVis.Stack.primary tt
                 (SciVis.Stack.surfaceAt 5 7) tt eq_refl)))
    as (l' & evs & [] & R & A).
  - intros r s h. cbn [SciVis.intersectSurface SciVis.Stack.surface_and_volume
                       SciVis.Stack.scene SciVis.ret fst].
    intros E.
    pose proof (nearestHit_spec (SciVis.lower (SciVis.t r))
                  (SciVis.upper (SciVis.t r)) [SciVis.Stack.surfaceAt 5 7])
      as Hn.
    rewrite E in Hn. destruct Hn as (Hin & Hlo & _).
    split; [exact Hin | exact Hlo].
  - intros h [<- | []]. reflexivity.
  - cbn. lia.
  - exists l', evs. split; [exact R | exact A].
Defined.

(** With the two distances swapped the surface is credited. *)
Example surface_before_volume :
  let l' := Stack.reported (raygen (api := Stack.surface_and_volume 3 5) 4 Stack.primary tt) in
  depth l' = 3 /\ objID l' = 7%N /\ instID l' = 0%N /\ primID l' = 7%N.
Proof. vm_compute. repeat split; reflexivity. Qed.


End StackedScenes.

(** ** Further properties of [Frame] *)

Section FrameFurther.

Context {Contents : Type} `{FrameStorage Contents}.
Implicit Types (d : DeviceGlobalState) (f : Frame Contents).

Lemma set_fields_accumulation b c f :
  accumulation (set_m_frameMappedOnce b (set_storage c f)) = accumulation f.
Proof. reflexivity. Qed.

(** A frame that [map] returns is the frame it was given, up to the mapped
    flag and the buffer contents. *)
Lemma map_frame ch f :
  exists b c, fst (map ch f) = set_m_frameMappedOnce b (set_storage c f).
Proof.
  unfold map. cbv zeta.
  unfold mapColorBuffer, mapGPUColorBuffer, mapDepthBuffer, mapPrimIDBuffer,
    mapObjIDBuffer, mapInstIDBuffer, mapAlbedoBuffer, mapNormalBuffer,
    mapDownloaded, mapGPUDepthBuffer, mapScaled.
  repeat match goal with
  | |- context [if ?b then _ else _] => destruct b
  end; cbn [fst];
  try (eexists _, _; reflexivity);
  try (exists true, (storage f); destruct f; reflexivity).
  all: exists (m_frameMappedOnce f), (storage f); destruct f; reflexivity.
Qed.

Lemma renderFrame_invalid d f f' l :
  m_valid f = false -> renderFrame d f = Done f' l -> f' = f.
Proof.
  intros Hv. unfold renderFrame, isValid. rewrite Hv.
  destruct (m_world f); [| discriminate]. cbn. intros [= <- _]. reflexivity.
Qed.

(** X1 -- the frame's copies of the two flush stamps never run ahead of the
    device's and never go back: [commit], [map], [getProperty] and a
    [renderFrame] call that returns all keep them at or below the device
    stamps once they are, and [renderFrame] does not decrease them. *)
Theorem frame_stamps_behind d f :
  stampsBehind d f ->
  (forall d', stampsBehind d (fst (commit d' f)))
  /\ (forall ch, stampsBehind d (fst (map ch f)))
  /\ (forall name type elapsed,
        stampsBehind d (fst (getProperty name type elapsed d f)))
  /\ (forall f' l,
        renderFrame d f = Done f' l ->
        stampsBehind d f'
        /\ (m_lastCommitOccured f <= m_lastCommitOccured f')%N
        /\ (m_lastUploadOccured f <= m_lastUploadOccured f')%N).
Proof.
  intros [Hc Hu].
  assert (Chk : stampsBehind d (checkAccumulationReset d f)
                /\ (m_lastCommitOccured f
                    <= m_lastCommitOccured (checkAccumulationReset d f))%N
                /\ (m_lastUploadOccured f
                    <= m_lastUploadOccured (checkAccumulationReset d f))%N).
  { unfold stampsBehind. destruct (m_nextFrameReset f) eqn:E.
    - unfold checkAccumulationReset. rewrite E. lia.
    - destruct (checkAccumulationReset_stamps d f E) as [-> ->]. lia. }
  split; [| split; [| split]].
  - intros d'. pose proof (commit_accumulation d' f) as E.
    unfold accumulation in E. injection E as _ E2 E3 _ _ _ _.
    unfold stampsBehind. rewrite E2, E3. auto.
  - intros ch. destruct (map_frame ch f) as (b & c & ->). split; assumption.
  - intros name type elapsed. unfold getProperty.
    repeat match goal with
    | |- context [if ?b then _ else _] => destruct b
    end; cbn [fst]; try (split; assumption). apply Chk.
  - intros f' l R. destruct (m_valid f) eqn:Hv.
    + destruct (renderFrame_done d f f' l Hv R) as (_ & St & St' & _).
      unfold stampsBehind. destruct (m_nextFrameReset f).
      * destruct (St' eq_refl) as [-> ->]. lia.
      * destruct (St eq_refl) as [-> ->]. lia.
    + rewrite (renderFrame_invalid d f f' l Hv R).
      unfold stampsBehind. lia.
Qed.

(** X2 -- a stamp that is behind while the reset flag is already set stays
    behind: [checkAccumulationReset] returns before it compares.  The call
    that consumes the flag renders sample 0, and so does the next call,
    which only then notices the stamp. *)
Theorem renderFrame_resets_twice d f f1 f2 l1 l2 :
  singleSample d ->
  m_valid f = true -> m_valid f1 = true ->
  m_nextFrameReset f = true ->
  (m_lastCommitOccured f < commitBufferLastFlush d
   \/ m_lastUploadOccured f < uploadBuffer_lastFlush d)%N ->
  renderFrame d f = Done f1 l1 ->
  renderFrame d f1 = Done f2 l2 ->
  frameID (fb f1) = 0 /\ frameID (fb f2) = 0.
Proof.
  intros Hs Hv Hv1 Hflag Hstale R1 R2.
  destruct (renderFrame_done d f f1 l1 Hv R1) as (E1 & _ & St & _ & Z1 & _).
  destruct (renderFrame_done d f1 f2 l2 Hv1 R2) as (_ & _ & _ & _ & Z2 & _).
  destruct (St Hflag) as [Ec Eu].
  split.
  - apply Z1; [exact Hs |]. unfold resetPending. rewrite Hflag. reflexivity.
  - apply Z2; [exact Hs |]. unfold resetPending. rewrite E1, Ec, Eu. cbn [orb].
    apply orb_true_iff. destruct Hstale; [left | right]; apply N.ltb_lt; lia.
Qed.

(** *** Asking whether the next frame resets *)

Lemma checkAccumulationReset_commit d d' f :
  commit d' (checkAccumulationReset d f)
  = (checkAccumulationReset d (fst (commit d' f)), snd (commit d' f)).
Proof.
  unfold checkAccumulationReset.
  destruct (m_nextFrameReset f) eqn:E.
  - pose proof (commit_accumulation d' f) as A. unfold accumulation in A.
    injection A as A1 _ _ _ _ _ _. rewrite A1, E.
    destruct (commit d' f); reflexivity.
  - unfold commit. cbv zeta. cbn [params m_denoise storage fb m_colorType
      m_depthType m_primIDType m_objIDType m_instIDType m_albedoType
      m_normalType m_perPixelBytes m_nextFrameReset m_lastCommitOccured
      m_lastUploadOccured m_frameChanged m_frameMappedOnce m_invFrameID].
    destruct (negb _); cbn; rewrite E; reflexivity.
Qed.

Lemma checkAccumulationReset_syncDenoise d r f :
  syncDenoise d r (checkAccumulationReset d f)
  = (checkAccumulationReset d (fst (syncDenoise d r f)),
     snd (syncDenoise d r f)).
Proof.
  unfold syncDenoise. cbv zeta.
  destruct (checkAccumulationReset_objects d f) as (_ & _ & _ & _ & Ed & _).
  assert (Es : forall b, set_m_denoise b (checkAccumulationReset d f)
                         = checkAccumulationReset d (set_m_denoise b f)).
  { intros b. unfold checkAccumulationReset. cbn.
    destruct (m_nextFrameReset f); reflexivity. }
  cbn [set_m_denoise m_denoise]. rewrite Ed, Es.
  destruct (negb (Bool.eqb (r_denoise (renderers d r)) (m_denoise f))).
  - apply checkAccumulationReset_commit.
  - reflexivity.
Qed.

Lemma checkAccumulationReset_twice d b f :
  checkAccumulationReset d
    (set_m_frameMappedOnce b (checkAccumulationReset d f))
  = checkAccumulationReset d (set_m_frameMappedOnce b f).
Proof.
  unfold checkAccumulationReset at 2.
  destruct (m_nextFrameReset f) eqn:E; [reflexivity |].
  unfold checkAccumulationReset. cbn. rewrite E.
  destruct (N.ltb_spec (m_lastCommitOccured f) (commitBufferLastFlush d));
  destruct (N.ltb_spec (m_lastUploadOccured f) (uploadBuffer_lastFlush d));
    cbn; try reflexivity.
  rewrite !(proj2 (N.ltb_ge _ _)) by assumption. reflexivity.
Qed.

Lemma renderFrame_after_check d f :
  m_valid f = true ->
  renderFrame d (checkAccumulationReset d f) = renderFrame d f.
Proof.
  intros Hv. unfold renderFrame, isValid.
  destruct (checkAccumulationReset_objects d f) as (-> & _ & -> & -> & _).
  rewrite Hv. cbn [negb].
  destruct (m_world f) as [w |]; [| reflexivity].
  destruct (m_renderer f) as [r |]; [| reflexivity].
  rewrite checkAccumulationReset_syncDenoise.
  rewrite checkAccumulationReset_twice.
  destruct (syncDenoise d r f) as [f2 lc]. reflexivity.
Qed.

(** X3 -- the query 'nextFrameReset' is answered without rendering: it
    answers whether a reset is pending and leaves the frame's GPU data, its
    buffers and its validity as they are.  It is not without effect,
    though: it stores the pending reset in the frame, together with the
    flush stamps it saw.  A [renderFrame] that sees the same device state
    as the query does exactly what it would have done without the query,
    and after the answer 'true' the next [renderFrame] launches sample 0
    whatever the device state is by then.  But when the reset was pending
    because of a stamp and a further flush lands between the query and
    the next two render calls, the second of these calls resets again
    ([frameID] 0), where without the query it would have accumulated
    ([frameID] 1). *)
Theorem nextFrameReset_query d d' f elapsed :
  let q := getProperty "nextFrameReset" ANARI_BOOL elapsed d f in
  snd q = Some (PvBool (resetPending d f))
  /\ fb (fst q) = fb f /\ storage (fst q) = storage f
  /\ m_valid (fst q) = m_valid f
  /\ (m_valid f = true -> renderFrame d (fst q) = renderFrame d f)
  /\ (m_valid f = true -> resetPending d f = true ->
      forall f' l, renderFrame d' (fst q) = Done f' l ->
                   exists g x y, In (EvLaunch g x y) l /\ frameID g = 0)
  /\ (singleSample d' -> m_valid f = true ->
      m_nextFrameReset f = false -> stampsBehind d f ->
      (m_lastCommitOccured f < commitBufferLastFlush d
       \/ m_lastUploadOccured f < uploadBuffer_lastFlush d)%N ->
      (commitBufferLastFlush d <= commitBufferLastFlush d')%N ->
      (uploadBuffer_lastFlush d <= uploadBuffer_lastFlush d')%N ->
      (commitBufferLastFlush d < commitBufferLastFlush d'
       \/ uploadBuffer_lastFlush d < uploadBuffer_lastFlush d')%N ->
      forall f1 f2 l1 l2 g1 g2 k1 k2,
        renderFrame d' (fst q) = Done f1 l1 -> m_valid f1 = true ->
        renderFrame d' f1 = Done f2 l2 ->
        renderFrame d' f = Done g1 k1 -> m_valid g1 = true ->
        renderFrame d' g1 = Done g2 k2 ->
        frameID (fb f1) = 0 /\ frameID (fb f2) = 0
        /\ frameID (fb g1) = 0 /\ frameID (fb g2) = 1).
Proof.
  cbv zeta.
  assert (E : getProperty "nextFrameReset" ANARI_BOOL elapsed d f
              = (checkAccumulationReset d f,
                 Some (PvBool (m_nextFrameReset (checkAccumulationReset d f)))))
    by reflexivity.
  rewrite E. cbn [fst snd].
  destruct (checkAccumulationReset_objects d f) as (_ & _ & _ & Ev & _ & Es).
  rewrite checkAccumulationReset_flag, checkAccumulationReset_fb.
  split; [reflexivity |]. split; [reflexivity |]. split; [exact Es |].
  split; [exact Ev |]. split; [apply renderFrame_after_check |]. split.
  - intros Hv Hp f' l R.
    assert (Hv' : m_valid (checkAccumulationReset d f) = true)
      by (rewrite Ev; exact Hv).
    destruct (renderFrame_done d' _ f' l Hv' R) as (_ & _ & _ & L & _).
    apply L. unfold resetPending.
    rewrite checkAccumulationReset_flag, Hp. reflexivity.
  - intros Hs Hv Hflag [Bc Bu] Hstale Hc Hu Hflush
      f1 f2 l1 l2 g1 g2 k1 k2 R1 Hv1 R2 S1 Hw1 S2.
    assert (Hv' : m_valid (checkAccumulationReset d f) = true)
      by (rewrite Ev; exact Hv).
    assert (Hp : resetPending d f = true).
    { unfold resetPending. rewrite Hflag. cbn [orb].
      apply orb_true_iff. destruct Hstale; [left | right]; apply N.ltb_lt; lia. }
    destruct (checkAccumulationReset_stamps d f Hflag) as [Qc Qu].
    (* with the query *)
    destruct (renderFrame_done d' _ f1 l1 Hv' R1)
      as (F1 & _ & St1 & _ & Z1 & _).
    rewrite checkAccumulationReset_flag in St1.
    destruct (St1 Hp) as [Ec1 Eu1]. rewrite Qc in Ec1. rewrite Qu in Eu1.
    destruct (renderFrame_done d' f1 f2 l2 Hv1 R2) as (_ & _ & _ & _ & Z2 & _).
    (* without it *)
    destruct (renderFrame_done d' f g1 k1 Hv S1)
      as (G1 & Sg & _ & _ & Y1 & _).
    destruct (Sg Hflag) as [Ecg Eug].
    destruct (renderFrame_done d' g1 g2 k2 Hw1 S2) as (_ & _ & _ & _ & _ & Y2).
    assert (P1 : resetPending d' (checkAccumulationReset d f) = true).
    { unfold resetPending. rewrite checkAccumulationReset_flag, Hp.
      reflexivity. }
    assert (P2 : resetPending d' f1 = true).
    { unfold resetPending. rewrite F1, Ec1, Eu1. cbn [orb].
      apply orb_true_iff. destruct Hflush; [left | right]; apply N.ltb_lt; lia. }
    assert (P3 : resetPending d' f = true).
    { unfold resetPending. rewrite Hflag. cbn [orb].
      apply orb_true_iff. destruct Hstale; [left | right]; apply N.ltb_lt; lia. }
    assert (P4 : resetPending d' g1 = false).
    { unfold resetPending. rewrite G1, Ecg, Eug. cbn [orb].
      apply orb_false_iff. split; apply N.ltb_ge; lia. }
    pose proof (Y1 Hs P3) as Y0.
    split; [exact (Z1 Hs P1) |]. split; [exact (Z2 Hs P2) |].
    split; [exact Y0 | exact (Y2 Hs P4 Y0)].
Qed.

(** *** Several sub-frames and several samples *)

Lemma newFrames_S d n f : newFrames d (S n) f = newFrames d n (newFrame d f).
Proof. reflexivity. Qed.

Lemma newFrames_checkerboarding d d' n f :
  checkerboarding d' (newFrames d n f) = checkerboarding d' f.
Proof.
  revert f. induction n as [| n IH]; intros f; [reflexivity |].
  rewrite newFrames_S, IH. apply newFrame_checkerboarding.
Qed.

Lemma newFrames_accumulating_checkerboard d n f :
  checkerboarding d f = true -> m_nextFrameReset f = false ->
  0 <= checkerboardID (fb f) <= 3 -> 0 <= frameID (fb f) ->
  frameID (fb f) + (checkerboardID (fb f) + Z.of_nat n) / 4 < INT_MAX ->
  checkerboardID (fb (newFrames d n f))
  = (checkerboardID (fb f) + Z.of_nat n) mod 4
  /\ frameID (fb (newFrames d n f))
     = frameID (fb f) + (checkerboardID (fb f) + Z.of_nat n) / 4.
Proof.
  revert f. induction n as [| n IH]; intros f Hcb Hr Hc H0 Hmax.
  - cbn [newFrames Z.of_nat]. rewrite Z.add_0_r.
    rewrite Z.mod_small, Z.div_small by lia. lia.
  - rewrite newFrames_S.
    assert (Hlt : frameID (fb f) < INT_MAX).
    { unfold INT_MAX in *.
      assert (0 <= (checkerboardID (fb f) + Z.of_nat (S n)) / 4)
        by (apply Z.div_pos; lia).
      lia. }
    assert (Hi : in_int (frameID (fb f))).
    { unfold in_int, INT_MIN, INT_MAX in *. lia. }
    destruct (newFrame_accumulate_checkerboard d f Hr Hcb Hi Hlt) as [Ec Ef].
    destruct (IH (newFrame d f)) as [Ec' Ef'].
    + rewrite newFrame_checkerboarding. exact Hcb.
    + apply newFrame_clears_reset.
    + rewrite Ec. pose proof (Z.mod_pos_bound (checkerboardID (fb f) + 1) 4). lia.
    + rewrite Ef. destruct (checkerboardID (fb f) =? 3); lia.
    + rewrite Ec, Ef. rewrite Nat2Z.inj_succ in Hmax.
      destruct (Z.eqb_spec (checkerboardID (fb f)) 3);
        Z.div_mod_to_equations; lia.
    + rewrite Ec', Ef', Ec, Ef. rewrite Nat2Z.inj_succ.
      destruct (Z.eqb_spec (checkerboardID (fb f)) 3); split;
        Z.div_mod_to_equations; lia.
Qed.

(** X4 -- with checkerboarding on, [frameID] counts whole frames and
    [checkerboardID] the quarter within the frame: the [n]-th [newFrame]
    after a pending reset leaves phase [(n - 1) mod 4] and count
    [(n - 1) / 4], as long as the count fits an [int]. *)
Theorem newFrames_checkerboard_count d n f :
  checkerboarding d f = true -> m_nextFrameReset f = true ->
  Z.of_nat n / 4 < INT_MAX ->
  checkerboardID (fb (newFrames d (S n) f)) = Z.of_nat n mod 4
  /\ frameID (fb (newFrames d (S n) f)) = Z.of_nat n / 4.
Proof.
  intros Hcb Hr Hmax. rewrite newFrames_S.
  destruct (newFrames_accumulating_checkerboard d n (newFrame d f))
    as [Ec Ef].
  - rewrite newFrame_checkerboarding. exact Hcb.
  - apply newFrame_clears_reset.
  - rewrite newFrame_checkerboardID, Hr, Hcb. lia.
  - rewrite newFrame_frameID, Hr. lia.
  - rewrite newFrame_frameID, newFrame_checkerboardID, Hr, Hcb. exact Hmax.
  - rewrite Ec, Ef, newFrame_frameID, newFrame_checkerboardID, Hr, Hcb.
    split; reflexivity.
Qed.

Lemma newFrame_set_storage d c f :
  newFrame d (set_storage c f) = set_storage c (newFrame d f).
Proof. reflexivity. Qed.

Lemma newFrames_set_storage d n c f :
  newFrames d n (set_storage c f) = set_storage c (newFrames d n f).
Proof.
  revert f. induction n as [| n IH]; intros f; [reflexivity |].
  rewrite !newFrames_S, newFrame_set_storage. apply IH.
Qed.

(** The sample loop is [newFrame] repeated; the launches in between only
    write buffer contents. *)
Lemma renderSamples_newFrames d n f :
  (exists c, fst (renderSamples d n f) = set_storage c (newFrames d n f))
  /\ launches (snd (renderSamples d n f))
     = List.map (fun k => fb (newFrames d (S k) f)) (seq 0 n).
Proof.
  revert f. induction n as [| n IH]; intros f.
  - split; [| reflexivity]. exists (storage f). destruct f; reflexivity.
  - rewrite renderSamples_S. cbn [fst snd].
    destruct (IH (fst (renderSample d f))) as [[c Ec] El].
    change (fst (renderSample d f))
      with (set_storage
              (optixLaunch d (fb (newFrame d f))
                 (if checkerboarding d (newFrame d f)
                  then (wrap_u32 (fst (size (fb (newFrame d f))) + 1) / 2)%N
                  else fst (size (fb (newFrame d f))))
                 (if checkerboarding d (newFrame d f)
                  then (wrap_u32 (snd (size (fb (newFrame d f))) + 1) / 2)%N
                  else snd (size (fb (newFrame d f))))
                 (storage (newFrame d f)))
              (newFrame d f)) in *.
    split.
    + exists c. rewrite Ec, newFrames_set_storage, newFrames_S.
      destruct (newFrames d n (newFrame d f)); reflexivity.
    + unfold launches in *. rewrite flat_map_app, El. cbn [seq List.map].
      rewrite <- seq_shift, List.map_map. cbn [flat_map app snd renderSample].
      f_equal. apply List.map_ext. intros k.
      rewrite newFrames_set_storage. reflexivity.
Qed.

Lemma newFrames_plain d n f :
  checkerboarding d f = false -> m_nextFrameReset f = false ->
  0 <= frameID (fb f) -> frameID (fb f) + Z.of_nat n <= INT_MAX ->
  frameID (fb (newFrames d n f)) = frameID (fb f) + Z.of_nat n.
Proof.
  revert f. induction n as [| n IH]; intros f Hcb Hr H0 Hmax.
  - cbn. lia.
  - rewrite newFrames_S.
    assert (E : frameID (fb (newFrame d f)) = frameID (fb f) + 1).
    { rewrite newFrame_frameID, Hr, Hcb. cbn [negb orb b2i].
      apply wrap_int_id. unfold in_int, INT_MIN, INT_MAX in *. lia. }
    rewrite IH.
    + lia.
    + rewrite newFrame_checkerboarding. exact Hcb.
    + apply newFrame_clears_reset.
    + lia.
    + lia.
Qed.

Lemma newFrames_plain_reset d n f :
  checkerboarding d f = false -> m_nextFrameReset f = true ->
  Z.of_nat n <= INT_MAX ->
  frameID (fb (newFrames d (S n) f)) = Z.of_nat n.
Proof.
  intros Hcb Hr Hmax. rewrite newFrames_S, newFrames_plain.
  - rewrite newFrame_frameID, Hr. lia.
  - rewrite newFrame_checkerboarding. exact Hcb.
  - apply newFrame_clears_reset.
  - rewrite newFrame_frameID, Hr. lia.
  - rewrite newFrame_frameID, Hr. lia.
Qed.

Lemma commit_log d f e :
  In e (snd (commit d f)) -> exists sev msg, e = EvMessage sev msg.
Proof.
  unfold commit. cbv zeta.
  destruct (getParamObject ANARI_RENDERER "renderer" (params f));
  destruct (getParamObject ANARI_CAMERA "camera" (params f));
  destruct (getParamObject ANARI_WORLD "world" (params f));
  destruct (negb _); cbn; intuition (subst; eauto).
Qed.

Lemma launches_messages l :
  (forall e, In e l -> exists sev msg, e = EvMessage sev msg) ->
  launches l = [].
Proof.
  induction l as [| e l IH]; intros Hl; [reflexivity |].
  destruct (Hl e (or_introl eq_refl)) as (sev & msg & ->).
  cbn. apply IH. intros e' He'. apply Hl. right. exact He'.
Qed.

Lemma syncDenoise_launches d r f : launches (snd (syncDenoise d r f)) = [].
Proof.
  unfold syncDenoise. cbv zeta. destruct (negb _); [| reflexivity].
  apply launches_messages. apply commit_log.
Qed.

(** How a render call on a valid frame that returns came about: stopped by
    the sample limit, or through the sample loop. *)
Lemma renderFrame_rendered d f f' l :
  m_valid f = true -> renderFrame d f = Done f' l ->
  exists r r',
    m_renderer f = Some r /\ m_renderer (prepared d r f) = Some r'
    /\ ((m_nextFrameReset (prepared d r f) = false
         /\ 0 < r_sampleLimit (renderers d r')
              <= frameID (fb (prepared d r f))
         /\ f' = prepared d r f /\ launches l = [])
        \/ (let n := Z.to_nat (Z.max (r_spp (renderers d r')) 1) in
            (m_nextFrameReset (prepared d r f) = true
             \/ ~ 0 < r_sampleLimit (renderers d r')
                    <= frameID (fb (prepared d r f)))
            /\ fb f' = fb (fst (renderSamples d n (prepared d r f)))
            /\ launches l
               = launches (snd (renderSamples d n (prepared d r f))))).
Proof.
  intros Hv.
  destruct (m_world f) as [w |] eqn:Hw;
    [| unfold renderFrame; rewrite Hw; discriminate].
  destruct (m_renderer f) as [r |] eqn:Hr;
    [| unfold renderFrame, isValid; rewrite Hw, Hv, Hr; discriminate].
  rewrite (renderFrame_valid d f r w Hv Hr Hw). cbv zeta.
  set (f4 := prepared d r f).
  destruct (m_renderer f4) as [r' |] eqn:Hr'; [| discriminate].
  intros R. exists r, r'. split; [reflexivity |]. split; [exact Hr' |].
  revert R.
  pose proof (syncDenoise_launches d r f) as Hl. unfold launches in Hl.
  assert (Log : forall (b : bool) ls,
            launches (flushLog w ++ snd (syncDenoise d r f) ++ [EvRecordStart]
                      ++ ls ++ (if b then [EvDenoise] else [])
                      ++ [EvRecordEnd])
            = launches ls).
  { intros b ls. unfold launches. cbn [flushLog flat_map app].
    rewrite flat_map_app, Hl. cbn [flat_map app]. rewrite flat_map_app.
    destruct b; cbn; apply app_nil_r. }
  assert (Log0 : launches (flushLog w ++ snd (syncDenoise d r f)) = []).
  { unfold launches. cbn [flushLog flat_map app]. exact Hl. }
  destruct (m_nextFrameReset f4) eqn:Ef; cbn [negb andb].
  - destruct (m_camera f4); [| discriminate].
    destruct (m_world f4); [| discriminate].
    intros [= <- <-]. right. split; [left; exact Ef |].
    split; [destruct (m_denoise _); reflexivity | apply Log].
  - destruct (Z.ltb_spec 0 (r_sampleLimit (renderers d r')));
    destruct (Z.leb_spec (r_sampleLimit (renderers d r')) (frameID (fb f4)));
      cbn [andb].
    1: { intros [= <- <-]. left. split; [exact Ef |].
         split; [unfold f4 in *; lia |]. split; [reflexivity | exact Log0]. }
    all: destruct (m_camera f4); [| discriminate];
         destruct (m_world f4); [| discriminate];
         intros [= <- <-]; right; (split; [right; unfold f4 in *; lia |]);
         (split; [destruct (m_denoise _); reflexivity | apply Log]).
Qed.

(** X5 -- a render call with [spp] samples per pixel (checkerboarding off)
    launches [max(spp, 1)] times, each launch with its own sample number:
    0, 1, ... when a reset is pending, and the numbers that follow the
    frame's [frameID] when the call accumulates without a sample limit.
    [frameID] ends at the number of the last launch. *)
Theorem renderFrame_samples d f f' l spp :
  (forall r, r_spp (renderers d r) = spp
             /\ r_checkerboarding (renderers d r) = false) ->
  spp <= INT_MAX ->
  m_valid f = true ->
  renderFrame d f = Done f' l ->
  let n := Z.to_nat (Z.max spp 1) in
  (resetPending d f = true ->
   List.map frameID (launches l) = List.map Z.of_nat (seq 0 n)
   /\ frameID (fb f') = Z.max spp 1 - 1)
  /\ (resetPending d f = false ->
      (forall r, r_sampleLimit (renderers d r) <= 0) ->
      0 <= frameID (fb f) -> frameID (fb f) + Z.max spp 1 <= INT_MAX ->
      List.map frameID (launches l)
      = List.map (fun k => frameID (fb f) + Z.of_nat (S k)) (seq 0 n)
      /\ frameID (fb f') = frameID (fb f) + Z.max spp 1).
Proof.
  intros Hd Hspp Hv R n.
  destruct (renderFrame_rendered d f f' l Hv R) as (r & r' & Hr & Hr' & Hcase).
  destruct (prepared_accumulation d r f) as (Eflag & _ & Efid).
  destruct (Hd r') as [Es Ecb].
  assert (Hcbf : checkerboarding d (prepared d r f) = false).
  { unfold checkerboarding. rewrite Hr'. exact Ecb. }
  rewrite Es in Hcase. fold n in Hcase.
  assert (Hn : exists k, n = S k /\ Z.of_nat n = Z.max spp 1).
  { exists (Nat.pred n). unfold n. lia. }
  destruct Hn as (k & Hk & HnZ).
  split.
  - intros Hp. rewrite Eflag, Hp in Hcase.
    destruct Hcase as [(Habs & _) | (_ & Efb & ->)]; [discriminate |].
    destruct (renderSamples_newFrames d n (prepared d r f)) as [[c Ec] ->].
    rewrite Efb, Ec. split.
    + rewrite List.map_map. apply List.map_ext_in. intros i Hi.
      apply in_seq in Hi. apply newFrames_plain_reset.
      * exact Hcbf.
      * rewrite Eflag. exact Hp.
      * unfold INT_MAX in *. lia.
    + rewrite Hk.
      change (frameID (fb (set_storage c (newFrames d (S k) (prepared d r f)))))
        with (frameID (fb (newFrames d (S k) (prepared d r f)))).
      rewrite newFrames_plain_reset.
      * lia.
      * exact Hcbf.
      * rewrite Eflag. exact Hp.
      * unfold INT_MAX in *. lia.
  - intros Hp Hlim H0 Hmax. rewrite Eflag, Hp in Hcase.
    destruct Hcase as [(_ & Hcap & _) | (_ & Efb & ->)].
    { specialize (Hlim r'). lia. }
    destruct (renderSamples_newFrames d n (prepared d r f)) as [[c Ec] ->].
    rewrite Efb, Ec. split.
    + rewrite List.map_map. apply List.map_ext_in. intros i Hi.
      apply in_seq in Hi. rewrite newFrames_plain.
      * rewrite Efid. reflexivity.
      * exact Hcbf.
      * rewrite Eflag. exact Hp.
      * rewrite Efid. exact H0.
      * rewrite Efid. unfold INT_MAX in *. lia.
    + change (frameID (fb (set_storage c (newFrames d n (prepared d r f)))))
        with (frameID (fb (newFrames d n (prepared d r f)))).
      rewrite newFrames_plain.
      * rewrite Efid. lia.
      * exact Hcbf.
      * rewrite Eflag. exact Hp.
      * rewrite Efid. exact H0.
      * rewrite Efid. unfold INT_MAX in *. lia.
Qed.

(** *** Buffers and channels across commits and maps *)

(** Decide the comparisons between two literal channel names. *)
Ltac literal_channels :=
  repeat match goal with
  | |- context [bool_decide (?a = ?b)] =>
      first [ rewrite (bool_decide_eq_true_2 (a = b)) by reflexivity
            | rewrite (bool_decide_eq_false_2 (a = b)) by discriminate ]
  end.

Lemma is_Some_if {A B : Type} (c c' : bool) (x : A) (y : B) :
  c = c' ->
  (is_Some (if c then Some x else None)
   <-> is_Some (if c' then Some y else None)).
Proof.
  intros ->. destruct c'; split; intros [z Hz]; try discriminate;
    eexists; reflexivity.
Qed.

Lemma offered_auxiliary ps :
  offered ps "channel.depth"
  = (if depthAvailable ps then Some ANARI_FLOAT32 else None)
  /\ offered ps "channel.primitiveId"
     = (if requestedAs ps "channel.primitiveId" ANARI_UINT32
        then Some ANARI_UINT32 else None)
  /\ offered ps "channel.objectId"
     = (if requestedAs ps "channel.objectId" ANARI_UINT32
        then Some ANARI_UINT32 else None)
  /\ offered ps "channel.instanceId"
     = (if requestedAs ps "channel.instanceId" ANARI_UINT32
        then Some ANARI_UINT32 else None)
  /\ offered ps "channel.normal"
     = (if requestedAs ps "channel.normal" ANARI_FLOAT32
        then Some ANARI_FLOAT32_VEC3 else None)
  /\ offered ps "channel.albedo"
     = (if requestedAs ps "channel.albedo" ANARI_FLOAT32
        then Some ANARI_FLOAT32_VEC3 else None).
Proof.
  unfold offered. cbv zeta.
  repeat split; literal_channels; cbn [orb andb];
    repeat match goal with
    | |- context [if ?b then _ else _] => destruct b
    end; reflexivity.
Qed.

(** X6 -- a successful commit hands the GPU exactly the buffers that [map]
    will hand out: the pointer of an auxiliary channel is set if and only
    if [map] offers that channel, so any ID buffer comes with a depth
    buffer; the accumulation buffer is always set; and of the two output
    color pointers exactly one is set, the [vec4] one if and only if the
    frame format is [FLOAT], in which case a pixel takes 16 bytes and
    otherwise 4. *)
Theorem commit_buffer_pointers d f :
  m_valid (fst (commit d f)) = true ->
  let f' := fst (commit d f) in
  let b := buffers (fb f') in
  let ps := params f in
  is_Some (colorAccumulation b)
  /\ (is_Some (outColorVec4 b) <-> format (fb f') = FLOAT)
  /\ (is_Some (outColorUint b) <-> format (fb f') <> FLOAT)
  /\ m_perPixelBytes f'
     = (if is_Some_dec (outColorVec4 b) then 16%N else 4%N)
  /\ (is_Some (depth b) <-> is_Some (offered ps "channel.depth"))
  /\ (is_Some (primID b) <-> is_Some (offered ps "channel.primitiveId"))
  /\ (is_Some (objID b) <-> is_Some (offered ps "channel.objectId"))
  /\ (is_Some (instID b) <-> is_Some (offered ps "channel.instanceId"))
  /\ (is_Some (normal b) <-> is_Some (offered ps "channel.normal"))
  /\ (is_Some (albedo b) <-> is_Some (offered ps "channel.albedo"))
  /\ (is_Some (primID b) \/ is_Some (objID b) \/ is_Some (instID b) ->
      is_Some (depth b)).
Proof.
  intros Hv. cbv zeta.
  destruct (offered_auxiliary (params f)) as (-> & -> & -> & -> & -> & ->).
  revert Hv.
  unfold commit. cbv zeta. destruct (negb _) eqn:E; cbn [fst m_valid].
  { intros Hv. rewrite Hv in E. discriminate. }
  intros _.
  cbn [fb buffers colorAccumulation outColorVec4 outColorUint depth primID
       objID instID normal albedo format m_perPixelBytes].
  unfold depthAvailable, requestedAs.
  set (bd := bool_decide
               (getParamDataType "channel.depth" ANARI_UNKNOWN (params f)
                = ANARI_FLOAT32)).
  set (bp := bool_decide
               (getParamDataType "channel.primitiveId" ANARI_UNKNOWN (params f)
                = ANARI_UINT32)).
  set (bo := bool_decide
               (getParamDataType "channel.objectId" ANARI_UNKNOWN (params f)
                = ANARI_UINT32)).
  set (bi := bool_decide
               (getParamDataType "channel.instanceId" ANARI_UNKNOWN (params f)
                = ANARI_UINT32)).
  set (fl := m_denoise f
             || bool_decide
                  (getParamDataType "channel.color" ANARI_UFIXED8_RGBA_SRGB
                     (params f) = ANARI_FLOAT32_VEC4)).
  clearbody bd bp bo bi fl.
  assert (Hdepth : bd || bp || bo || bi = bd || (bp || bo || bi))
    by (destruct bd, bp, bo, bi; reflexivity).
  split; [eexists; reflexivity |].
  split.
  { destruct fl; [split; [reflexivity | eexists; reflexivity] |].
    cbn. split; [intros [x Hx]; discriminate |].
    destruct (bool_decide _); discriminate. }
  split.
  { destruct fl; cbn.
    - split; [intros [x Hx]; discriminate | congruence].
    - split; [| eexists; reflexivity].
      intros _. destruct (bool_decide _); discriminate. }
  split; [destruct fl; reflexivity |].
  split; [apply is_Some_if; exact Hdepth |].
  do 5 (split; [apply is_Some_if; reflexivity |]).
  rewrite Hdepth.
  destruct bd; cbn; [intros _; eexists; reflexivity |].
  destruct bp, bo, bi; cbn; try (intros _; eexists; reflexivity).
  intros [[x Hx] | [[x Hx] | [x Hx]]]; discriminate.
Qed.

(** What [map] answers is decided by the channel types, the denoising mode
    and the frame size alone. *)
Lemma map_mapping_ext ch f g :
  m_colorType f = m_colorType g -> m_depthType f = m_depthType g ->
  m_primIDType f = m_primIDType g -> m_objIDType f = m_objIDType g ->
  m_instIDType f = m_instIDType g -> m_albedoType f = m_albedoType g ->
  m_normalType f = m_normalType g -> m_denoise f = m_denoise g ->
  size (fb f) = size (fb g) ->
  snd (map ch f) = snd (map ch g).
Proof.
  intros Ec Ed Ep Eo Ei Ea En Edn Es.
  unfold map. cbv zeta.
  unfold mapColorBuffer, mapGPUColorBuffer, mapDepthBuffer, mapPrimIDBuffer,
    mapObjIDBuffer, mapInstIDBuffer, mapAlbedoBuffer, mapNormalBuffer,
    mapDownloaded, mapGPUDepthBuffer, mapScaled.
  rewrite Ec, Ed, Ep, Eo, Ei, Ea, En, Edn.
  repeat match goal with
  | |- context [if ?b then _ else _] => destruct b
  end; cbn; rewrite ?Es; reflexivity.
Qed.

Lemma commit_invalid_fields d f :
  m_valid (fst (commit d f)) = false ->
  let f' := fst (commit d f) in
  m_colorType f' = m_colorType f /\ m_depthType f' = m_depthType f
  /\ m_primIDType f' = m_primIDType f /\ m_objIDType f' = m_objIDType f
  /\ m_instIDType f' = m_instIDType f /\ m_albedoType f' = m_albedoType f
  /\ m_normalType f' = m_normalType f /\ m_denoise f' = m_denoise f
  /\ fb f' = fb f /\ storage f' = storage f
  /\ m_perPixelBytes f' = m_perPixelBytes f
  /\ m_frameChanged f' = m_frameChanged f.
Proof.
  unfold commit. cbv zeta. destruct (negb _) eqn:E; cbn [fst m_valid].
  - intros _. repeat split; reflexivity.
  - intros Hv. rewrite Hv in E. discriminate.
Qed.

(** X7 -- a commit that finds the frame incomplete replaces nothing but the
    three object pointers and the valid flag: the channel configuration,
    the frame's GPU data and all buffers stay those of the last successful
    commit, and [map] goes on answering every channel as before. *)
Theorem commit_invalid_keeps_channels d f ch :
  m_valid (fst (commit d f)) = false ->
  snd (map ch (fst (commit d f))) = snd (map ch f)
  /\ fb (fst (commit d f)) = fb f
  /\ storage (fst (commit d f)) = storage f
  /\ accumulation (fst (commit d f)) = accumulation f.
Proof.
  intros Hv.
  destruct (commit_invalid_fields d f Hv)
    as (Ec & Ed & Ep & Eo & Ei & Ea & En & Edn & Efb & Est & _).
  split; [| split; [exact Efb | split; [exact Est | apply commit_accumulation]]].
  apply map_mapping_ext; try assumption. rewrite Efb. reflexivity.
Qed.

(** X8 -- mapping is repeatable: whatever channel was mapped before, [map]
    returns the same pointer, size and pixel type for a channel as it
    would have returned at once, and it leaves the frame's GPU data, the
    pending reset and the sample count alone. *)
Theorem map_again ch1 ch2 f :
  snd (map ch2 (fst (map ch1 f))) = snd (map ch2 f)
  /\ fb (fst (map ch1 f)) = fb f
  /\ accumulation (fst (map ch1 f)) = accumulation f
  /\ m_valid (fst (map ch1 f)) = m_valid f.
Proof.
  destruct (map_frame ch1 f) as (b & c & ->).
  split; [| repeat split].
  apply map_mapping_ext; reflexivity.
Qed.

(** X9 -- a frame that a commit left invalid although a world is bound is
    not rendered: every [renderFrame] call flushes, rebuilds the world's
    BVHs, reports the error and returns the frame as it was, with nothing
    launched. *)
Theorem renderFrame_invalid_frame d d' f w :
  m_valid (fst (commit d f)) = false ->
  getParamObject ANARI_WORLD "world" (params f) = Some w ->
  let f' := fst (commit d f) in
  renderFrame d' f'
  = Done f' (flushLog w ++ [EvMessage ANARI_SEVERITY_ERROR skip_message])
  /\ launches (flushLog w ++ [EvMessage ANARI_SEVERITY_ERROR skip_message])
     = [].
Proof.
  intros Hv Hw f'. subst f'. split; [| reflexivity].
  apply renderFrame_invalid_skips; [exact Hv |].
  destruct (commit_objects d f) as (_ & _ & E). rewrite E. exact Hw.
Qed.

Lemma getParamObject_Some kind name ps h :
  getParamObject kind name ps = Some h
  <-> ps !! name = Some (ParamObject kind h).
Proof.
  unfold getParamObject.
  destruct (ps !! name) as [[k h' | t | x y] |];
    try (split; intros; discriminate).
  destruct (decide (k = kind)) as [-> | Hne].
  - split; intros [= ->]; reflexivity.
  - split; [discriminate | intros [= -> _]; contradiction].
Qed.

(** X10 -- a commit marks the frame valid exactly when 'renderer', 'camera'
    and 'world' each hold an object of that kind and each object reports
    itself valid; an object of another kind under one of the names counts
    as missing.  A warning is reported for each missing object and for
    nothing else, so an object that is bound but invalid invalidates the
    frame without a message. *)
Theorem commit_validity d f :
  let ps := params f in
  (m_valid (fst (commit d f)) = true <->
   exists r c w,
     ps !! "renderer" = Some (ParamObject ANARI_RENDERER r)
     /\ ps !! "camera" = Some (ParamObject ANARI_CAMERA c)
     /\ ps !! "world" = Some (ParamObject ANARI_WORLD w)
     /\ r_isValid (renderers d r) = true /\ camera_isValid d c = true
     /\ world_isValid d w = true)
  /\ (snd (commit d f) = [] <->
      exists r c w,
        ps !! "renderer" = Some (ParamObject ANARI_RENDERER r)
        /\ ps !! "camera" = Some (ParamObject ANARI_CAMERA c)
        /\ ps !! "world" = Some (ParamObject ANARI_WORLD w))
  /\ length (snd (commit d f))
     = (let missing (o : option Handle) : nat :=
          match o with Some _ => 0 | None => 1 end in
        missing (getParamObject ANARI_RENDERER "renderer" ps)
        + missing (getParamObject ANARI_CAMERA "camera" ps)
        + missing (getParamObject ANARI_WORLD "world" ps))%nat.
Proof.
  cbv zeta. split; [| split].
  - rewrite commit_valid. split; intros (r & c & w & Hr & Hc & Hw & Hv);
      exists r, c, w; repeat split; try apply Hv;
      first [apply getParamObject_Some | apply <- getParamObject_Some];
      assumption.
  - unfold commit. cbv zeta.
    destruct (getParamObject ANARI_RENDERER "renderer" (params f)) as [r |] eqn:Er;
    destruct (getParamObject ANARI_CAMERA "camera" (params f)) as [c |] eqn:Ec;
    destruct (getParamObject ANARI_WORLD "world" (params f)) as [w |] eqn:Ew;
    destruct (negb _); cbn [snd app];
    (split;
     [ try discriminate; intros _; exists r, c, w;
       repeat split; apply getParamObject_Some; assumption
     | intros (r' & c' & w' & Hr & Hc & Hw);
       apply getParamObject_Some in Hr, Hc, Hw; congruence ]).
  - unfold commit. cbv zeta.
    destruct (getParamObject ANARI_RENDERER "renderer" (params f));
    destruct (getParamObject ANARI_CAMERA "camera" (params f));
    destruct (getParamObject ANARI_WORLD "world" (params f));
    destruct (negb _); reflexivity.
Qed.

End FrameFurther.

(** *** The further frame theorems on sample runs *)

Lemma frame_stamps_behind_witness :
  let d := Demo.device false 0 1%N 1%N in
  let f := Demo.committed false in
  stampsBehind d (fst (commit d f))
  /\ stampsBehind d (fst (map "channel.color" f))
  /\ stampsBehind d (Demo.rendered d 1 f).
Proof.
  intros d f.
  assert (Hs : stampsBehind d f) by (split; vm_compute; discriminate).
  pose proof (frame_stamps_behind d f Hs) as (A & B & _ & R).
  split; [apply A | split; [apply B |]].
  apply (R _ (Demo.logAfter (renderFrame d f))). vm_compute. reflexivity.
Defined.

Lemma renderFrame_resets_twice_witness :
  let d := Demo.device false 0 1%N 1%N in
  let f := Demo.committed false in
  frameID (fb (Demo.rendered d 1 f)) = 0
  /\ frameID (fb (Demo.rendered d 2 f)) = 0.
Proof.
  intros d f.
  assert (S1 : singleSample d).
  { intros r. split; [vm_compute; discriminate | reflexivity]. }
  refine (renderFrame_resets_twice d f (Demo.rendered d 1 f)
            (Demo.rendered d 2 f)
            (Demo.logAfter (renderFrame d f))
            (Demo.logAfter (renderFrame d (Demo.rendered d 1 f)))
            S1 _ _ _ _ _ _);
    try (vm_compute; reflexivity).
  left. vm_compute. reflexivity.
Defined.

Lemma nextFrameReset_query_witness :
  let d0 := Demo.device false 0 1%N 1%N in
  let d := Demo.device false 0 2%N 1%N in
  let d' := Demo.device false 0 3%N 1%N in
  let f := Demo.rendered d0 3 (Demo.committed false) in
  let q := getProperty "nextFrameReset" ANARI_BOOL 0 d f in
  snd q = Some (PvBool true)
  /\ frameID (fb (Demo.rendered d' 2 (fst q))) = 0
  /\ frameID (fb (Demo.rendered d' 2 f)) = 1.
Proof.
  intros d0 d d' f q.
  pose proof (nextFrameReset_query d d' f 0) as (A & _ & _ & _ & _ & _ & D).
  split; [exact A |].
  assert (S1 : singleSample d').
  { intros r. split; [vm_compute; discriminate | reflexivity]. }
  assert (Hb : stampsBehind d f) by (split; vm_compute; discriminate).
  assert (Hv : m_valid f = true) by (vm_compute; reflexivity).
  assert (Hf : m_nextFrameReset f = false) by (vm_compute; reflexivity).
  assert (Hs : (m_lastCommitOccured f < commitBufferLastFlush d
                \/ m_lastUploadOccured f < uploadBuffer_lastFlush d)%N)
    by (left; vm_compute; reflexivity).
  assert (Hc : (commitBufferLastFlush d <= commitBufferLastFlush d')%N)
    by (vm_compute; discriminate).
  assert (Hu : (uploadBuffer_lastFlush d <= uploadBuffer_lastFlush d')%N)
    by (vm_compute; discriminate).
  assert (Hn : (commitBufferLastFlush d < commitBufferLastFlush d'
                \/ uploadBuffer_lastFlush d < uploadBuffer_lastFlush d')%N)
    by (left; vm_compute; reflexivity).
  specialize (D S1 Hv Hf Hb Hs Hc Hu Hn).
  set (fq := fst (getProperty "nextFrameReset" ANARI_BOOL 0 d f)) in *.
  assert (R1 : renderFrame d' fq
               = Done (Demo.rendered d' 1 fq)
                   (Demo.logAfter (renderFrame d' fq)))
    by (vm_compute; reflexivity).
  assert (V1 : m_valid (Demo.rendered d' 1 fq) = true)
    by (vm_compute; reflexivity).
  assert (R2 : renderFrame d' (Demo.rendered d' 1 fq)
               = Done (Demo.rendered d' 2 fq)
                   (Demo.logAfter (renderFrame d' (Demo.rendered d' 1 fq))))
    by (vm_compute; reflexivity).
  assert (T1 : renderFrame d' f
               = Done (Demo.rendered d' 1 f)
                   (Demo.logAfter (renderFrame d' f)))
    by (vm_compute; reflexivity).
  assert (W1 : m_valid (Demo.rendered d' 1 f) = true)
    by (vm_compute; reflexivity).
  assert (T2 : renderFrame d' (Demo.rendered d' 1 f)
               = Done (Demo.rendered d' 2 f)
                   (Demo.logAfter (renderFrame d' (Demo.rendered d' 1 f))))
    by (vm_compute; reflexivity).
  destruct (D _ _ _ _ _ _ _ _ R1 V1 R2 T1 W1 T2) as (_ & Z2 & _ & Y2).
  split; [exact Z2 | exact Y2].
Defined.

Lemma newFrames_checkerboard_count_witness :
  let d := Demo.device true 0 1%N 1%N in
  let f := Demo.committed true in
  checkerboardID (fb (newFrames d 6 f)) = 5 mod 4
  /\ frameID (fb (newFrames d 6 f)) = 5 / 4.
Proof.
  intros d f.
  apply (newFrames_checkerboard_count d 5 f); vm_compute; reflexivity.
Defined.

Lemma renderFrame_samples_witness :
  let d := Session.sampling 3 in
  let f := Demo.committed false in
  let l := Demo.logAfter (renderFrame d f) in
  List.map frameID (launches l) = [0; 1; 2]
  /\ frameID (fb (Demo.rendered d 1 f)) = 2.
Proof.
  intros d f l.
  assert (Hr : forall r, r_spp (renderers d r) = 3
                         /\ r_checkerboarding (renderers d r) = false).
  { intros r. split; reflexivity. }
  assert (Hm : 3 <= INT_MAX) by (vm_compute; discriminate).
  assert (Hv : m_valid f = true) by (vm_compute; reflexivity).
  assert (Hd : renderFrame d f = Done (Demo.rendered d 1 f) l)
    by (vm_compute; reflexivity).
  apply (proj1 (renderFrame_samples d f _ l 3 Hr Hm Hv Hd)).
  vm_compute. reflexivity.
Defined.

Lemma commit_buffer_pointers_witness :
  let d := Demo.device false 0 1%N 1%N in
  let f := Demo.fresh Demo.with_objectId in
  let b := buffers (fb (fst (commit d f))) in
  is_Some (objID b) /\ is_Some (depth b) /\ ~ is_Some (normal b).
Proof.
  intros d f b.
  assert (Hv : m_valid (fst (commit d f)) = true) by (vm_compute; reflexivity).
  pose proof (commit_buffer_pointers d f Hv)
    as (_ & _ & _ & _ & _ & _ & O & _ & Nm & _ & D).
  assert (Ho : is_Some (objID b)).
  { apply O. vm_compute. eexists. reflexivity. }
  split; [exact Ho |]. split; [apply D; right; left; exact Ho |].
  intros Hn. apply Nm in Hn. vm_compute in Hn. destruct Hn as [x Hx].
  discriminate.
Defined.

Lemma commit_invalid_keeps_channels_witness :
  let d := Demo.device false 0 1%N 1%N in
  let f := Session.stripped in
  m_valid f = true /\ m_valid (fst (commit d f)) = false
  /\ snd (map "channel.objectId" (fst (commit d f)))
     = snd (map "channel.objectId" f)
  /\ fb (fst (commit d f)) = fb f.
Proof.
  intros d f.
  assert (Hv : m_valid (fst (commit d f)) = false) by (vm_compute; reflexivity).
  pose proof (commit_invalid_keeps_channels d f "channel.objectId" Hv)
    as (M & F & _).
  split; [vm_compute; reflexivity |]. split; [exact Hv |].
  split; [exact M | exact F].
Defined.

Lemma renderFrame_invalid_frame_witness :
  let d := Demo.device false 0 1%N 1%N in
  let f := fst (commit d Session.stripped) in
  renderFrame d f
  = Done f (flushLog 3%positive
            ++ [EvMessage ANARI_SEVERITY_ERROR skip_message]).
Proof.
  intros d f.
  apply (renderFrame_invalid_frame d d Session.stripped 3%positive);
    vm_compute; reflexivity.
Defined.
(** ** The integrator loop, further *)

Section IntegratorFurther.

Import SciVis.
Local Open Scope Q_scope.

Context {ScreenSample VolumeHit : Type} {api : ShadingAPI ScreenSample VolumeHit}.
Implicit Types (l : Locals) (ss : ScreenSample) (hit : SurfaceHit).








(** X13 -- a primary ray that meets no surface: one iteration, in which
    all volumes up to the far end of the ray are marched and composited
    over the background.  The pixel is reported with primitive ID 0 (not
    [~0u]), the object and instance ID that volume marching left, the
    depth of the first volume sample if that is below 1e30, and the ray
    direction as its normal. *)
Theorem raygen_miss fuel primary ss ss1 :
  let tmax := upper (t primary) in
  let r0 := clipped tmax (initial primary) in
  let vm := fst (rayMarchAllVolumes r0 tmax ss1) in
  intersectSurface r0 ss = (None, ss1) ->
  exists l',
    raygen (S fuel) primary ss
    = (Some (l', [TrIntersect r0; TrMarch r0 tmax; TrBackground]),
       snd (rayMarchAllVolumes r0 tmax ss1))
    /\ primID l' = 0%N /\ objID l' = vObjID vm /\ instID l' = vInstID vm
    /\ depth l' = (if Qltb (vDepth vm) (depth (initial primary))
                   then vDepth vm else depth (initial primary))
    /\ outputNormal l' = dir primary
    /\ outputOpacity l'
       == accumulateValue (vOpacity vm) (snd background) (vOpacity vm)
    /\ vx (outputColor l')
       == vx (vColor vm) * vOpacity vm + vx (fst background) * (1 - vOpacity vm)
    /\ vy (outputColor l')
       == vy (vColor vm) * vOpacity vm + vy (fst background) * (1 - vOpacity vm)
    /\ vz (outputColor l')
       == vz (vColor vm) * vOpacity vm + vz (fst background) * (1 - vOpacity vm).
Proof.
  intros tmax r0 vm Hmiss. unfold raygen. fold tmax.
  rewrite integrate_step.
  change (Qltb (outputOpacity (initial primary)) saturation) with true.
  cbv iota. fold r0. rewrite Hmiss.
  eexists. split.
  - f_equal. unfold missStep, bind, ret. fold r0.
    destruct (rayMarchAllVolumes r0 tmax ss1) as [v s2]. reflexivity.
  - subst vm. unfold missStep, bind, ret. fold r0.
    destruct (rayMarchAllVolumes r0 tmax ss1) as [v s2].
    cbn [fst snd initial firstHit primID objID instID depth outputNormal
         outputOpacity outputColor].
    repeat split; try reflexivity;
      unfold accumulateValue, accumulateValue3, vadd, vscale, splat;
      cbn [vx vy vz]; ring.
Qed.

(** A surface that adds nothing: what the iteration leaves of color and
    opacity. *)
Lemma surfaceStep_color tmax l hit ss :
  let vm := fst (rayMarchAllVolumes (clipped tmax l) (Surf.t hit) ss) in
  let l' := fst (surfaceStep tmax l hit ss) in
  let opacity' :=
    accumulateValue (vOpacity vm) (opacity (getMaterialValues hit))
      (vOpacity vm) in
  exists color,
    outputColor l'
    = accumulateValue3 (outputColor l) (vscale color opacity') (outputOpacity l).
Proof.
  unfold surfaceStep, bind, ret.
  destruct (rayMarchAllVolumes _ (Surf.t hit) ss) as [vm ss1]. cbn [fst].
  destruct ((if (0 <? aoSamples)%Z then computeAO _ hit else _) ss1)
    as [ao ss2].
  destruct (computeLightConrib hit ss2) as [lc ss3]. cbn [fst outputColor].
  eexists. reflexivity.
Qed.

(** X14 -- a fully transparent surface with no volume in front of it adds
    neither color nor opacity, yet when it is the first thing the primary
    ray meets it is the surface the depth, normal and ID channels report;
    the ray goes on from just behind it. *)
Theorem surfaceStep_transparent tmax l hit ss :
  let vm := fst (rayMarchAllVolumes (clipped tmax l) (Surf.t hit) ss) in
  let l' := fst (surfaceStep tmax l hit ss) in
  vOpacity vm == 0 -> opacity (getMaterialValues hit) == 0 ->
  outputOpacity l' == outputOpacity l
  /\ vx (outputColor l') == vx (outputColor l)
  /\ vy (outputColor l') == vy (outputColor l)
  /\ vz (outputColor l') == vz (outputColor l)
  /\ lower (t (ray l')) = Surf.t hit + Surf.epsilon hit
  /\ (firstHit l = true -> Surf.t hit <= vDepth vm ->
      depth l' = Surf.t hit /\ outputNormal l' = Surf.Ng hit
      /\ primID l' = Surf.primID hit /\ objID l' = Surf.objID hit
      /\ instID l' = Surf.instID hit).
Proof.
  intros vm l' Hv Ha.
  destruct (surfaceStep_fields tmax l hit ss) as (_ & Eo & Ed & En & Ep & Eb & Ei).
  destruct (surfaceStep_color tmax l hit ss) as [color Ec].
  fold vm in Eo, Ed, En, Ep, Eb, Ei, Ec. fold l' in Eo, Ed, En, Ep, Eb, Ei, Ec.
  assert (Z0 : accumulateValue (vOpacity vm) (opacity (getMaterialValues hit))
                 (vOpacity vm) == 0).
  { unfold accumulateValue. rewrite Hv, Ha. ring. }
  split; [rewrite Eo; unfold accumulateValue; rewrite Z0; ring |].
  rewrite Ec. unfold accumulateValue3, vadd, vscale. cbn [vx vy vz].
  split; [rewrite Z0; ring |]. split; [rewrite Z0; ring |].
  split; [rewrite Z0; ring |].
  split; [subst l'; rewrite surfaceStep_ray; reflexivity |].
  intros Hf Hd. apply Qltb_ge in Hd.
  rewrite Ed, En, Ep, Eb, Ei, Hf, Hd. repeat split; reflexivity.
Qed.

(** ** Shadow rays, further *)

Lemma sumLights_occluded hit shadePoint lights contrib ss :
  (forall light s, In light lights ->
     fst (isOccluded (shadowRay shadePoint (fst (sampleLight hit light s)))
            (snd (sampleLight hit light s))) = true) ->
  fst (sumLights hit shadePoint lights contrib ss) = contrib.
Proof.
  revert contrib ss. induction lights as [| x rest IH]; intros contrib ss Hocc;
    [reflexivity |].
  cbn [sumLights]. unfold bind. rewrite lightContrib_cases.
  rewrite (Hocc x ss (or_introl eq_refl)).
  apply IH. intros light s Hin. apply Hocc. right. exact Hin.
Qed.

(** X15 -- a shade point that no light reaches gets no light: if for every
    light of the world, whatever sample of it is taken, some surface along
    the shadow ray before the light has material opacity of at least 0.99,
    then [computeLightConrib] returns the zero vector. *)
Theorem computeLightConrib_all_occluded hit ss :
  let shadePoint :=
    vadd (Surf.hitpoint hit) (vscale (Surf.Ns hit) (Surf.epsilon hit)) in
  (forall light s, In light (concat lightInstances) ->
     let ls := fst (sampleLight hit light s) in
     exists h, In h (surfaceCandidates (shadowRay shadePoint ls))
               /\ Surf.t h < ls_dist ls
               /\ saturation <= opacity (getMaterialValues h)) ->
  fst (computeLightConrib hit ss) = splat 0.
Proof.
  intros shadePoint Hocc. unfold computeLightConrib. fold shadePoint.
  apply sumLights_occluded. intros light s Hin.
  rewrite isOccluded_spec. cbn [fst].
  destruct (Hocc light s Hin) as (h & Hh & Ht & Ho).
  apply existsb_exists. exists h. split; [exact Hh |].
  apply andb_true_intro. split.
  - apply Qltb_lt. exact Ht.
  - unfold opaqueHit. apply negb_true_iff. apply Qltb_ge. exact Ho.
Qed.


End IntegratorFurther.

(** *** The further integrator theorems on sample scenes *)



Lemma raygen_miss_witness :
  let res := SciVis.raygen (api := SciVis.Stack.surface_and_volume 200 5) 1
               SciVis.Stack.primary tt in
  SciVis.primID (SciVis.Stack.reported res) = 0%N
  /\ SciVis.objID (SciVis.Stack.reported res) = 42%N
  /\ SciVis.depth (SciVis.Stack.reported res) = 5%Q.
Proof.
  intros res.
  destruct (raygen_miss (api := SciVis.Stack.surface_and_volume 200 5) 0
              SciVis.Stack.primary tt tt)
    as (l' & E & P & O & _ & D & _); [vm_compute; reflexivity |].
  assert (R : SciVis.Stack.reported res = l').
  { unfold SciVis.Stack.reported, res. rewrite E. reflexivity. }
  rewrite R. split; [exact P |]. split; [exact O | exact D].
Defined.

Lemma surfaceStep_transparent_witness :
  let l := SciVis.initial SciVis.Stack.primary in
  let hit := SciVis.Stack.surfaceAt 3 5 in
  let l' := fst (SciVis.surfaceStep (api := Shadow.glass) 100 l hit tt) in
  (SciVis.outputOpacity l' == 0)%Q
  /\ SciVis.depth l' = 3%Q /\ SciVis.primID l' = 5%N.
Proof.
  intros l hit l'.
  destruct (surfaceStep_transparent (api := Shadow.glass) 100 l hit tt)
    as (O & _ & _ & _ & _ & F); [vm_compute; reflexivity .. |].
  destruct F as (D & _ & P & _); [reflexivity | vm_compute; discriminate |].
  split; [exact O |]. split; [exact D | exact P].
Defined.

Lemma computeLightConrib_all_occluded_witness :
  fst (SciVis.computeLightConrib (api := Shadow.eclipsed)
         (SciVis.Stack.surfaceAt 1 9) tt)
  = SciVis.splat 0.
Proof.
  apply (computeLightConrib_all_occluded (api := Shadow.eclipsed)).
  intros light s _. exists (SciVis.Stack.surfaceAt 4 2).
  split; [left; reflexivity |]. split; [reflexivity | vm_compute; discriminate].
Defined.


(** ** Quads *)

Section QuadProperties.

Import Quad.

Lemma pairs_length {A : Type} (f g : nat -> A) (s k : nat) :
  length (flat_map (fun j => [f j; g j]) (seq s k)) = (2 * k)%nat.
Proof.
  revert s. induction k as [| k IH]; intros s; [reflexivity |].
  cbn [seq flat_map app length]. rewrite IH. lia.
Qed.

Lemma pairs_nth {A : Type} (f g : nat -> A) (s k i : nat) :
  (i < k)%nat ->
  nth_error (flat_map (fun j => [f j; g j]) (seq s k)) (2 * i) = Some (f (s + i)%nat)
  /\ nth_error (flat_map (fun j => [f j; g j]) (seq s k)) (2 * i + 1)
     = Some (g (s + i)%nat).
Proof.
  revert s i. induction k as [| k IH]; intros s i Hi; [lia |].
  cbn [seq flat_map app]. destruct i as [| i].
  - rewrite Nat.add_0_r. split; reflexivity.
  - replace (2 * S i)%nat with (S (S (2 * i))) by lia.
    replace (s + S i)%nat with (S s + i)%nat by lia.
    cbn [nth_error Nat.add]. apply IH. lia.
Qed.

Lemma flat_map_eq_in {A B : Type} (f g : A -> list B) (xs : list A) :
  (forall x, In x xs -> f x = g x) -> flat_map f xs = flat_map g xs.
Proof.
  induction xs as [| x xs IH]; intros Hfg; [reflexivity |].
  cbn [flat_map]. rewrite (Hfg x (or_introl eq_refl)).
  rewrite IH; [reflexivity |]. intros y Hy. apply Hfg. right. exact Hy.
Qed.

(** Below [2^32] vertices the soup indices do not wrap. *)
Lemma generateIndices_soup_exact n :
  (N.of_nat n <= 4294967296)%N ->
  generateIndices None n
  = flat_map (fun i => [((4 * N.of_nat i)%N, (4 * N.of_nat i + 1)%N,
                         (4 * N.of_nat i + 3)%N);
                        ((4 * N.of_nat i + 2)%N, (4 * N.of_nat i + 3)%N,
                         (4 * N.of_nat i + 1)%N)])
      (seq 0 (n / 4)).
Proof.
  intros Hn. unfold generateIndices. apply flat_map_eq_in.
  intros i Hi. apply in_seq in Hi.
  assert (Hb : (4 * N.of_nat i + 3 < 4294967296)%N).
  { pose proof (Nat.div_mod_eq n 4). lia. }
  unfold corner, wrap_u32.
  rewrite (N.mod_small (4 * N.of_nat i)) by lia.
  rewrite !N.mod_small by lia.
  rewrite N.add_0_r. reflexivity.
Qed.

(** X17 -- a quad soup of [n] vertices (fewer than [2^32]) becomes two
    triangles per complete group of four vertices: quad [i] gives
    [(4i, 4i+1, 4i+3)] and [(4i+2, 4i+3, 4i+1)].  Every index points at a
    vertex of the array, every vertex of a complete quad is a corner of
    some triangle, and the two triangles of a quad run through their
    common diagonal in opposite directions, so they have the same
    winding. *)
Theorem generateIndices_soup n :
  (N.of_nat n <= 4294967296)%N ->
  let ts := generateIndices None n in
  length ts = (2 * (n / 4))%nat
  /\ (forall tr c, In tr ts -> In c (corners tr) -> (c < N.of_nat n)%N)
  /\ (forall v, (v < 4 * (n / 4))%nat ->
                exists tr, In tr ts /\ In (N.of_nat v) (corners tr))
  /\ (forall i, (i < n / 4)%nat ->
        exists t1 t2,
          nth_error ts (2 * i) = Some t1
          /\ nth_error ts (2 * i + 1) = Some t2
          /\ corners t1 = [(4 * N.of_nat i)%N; (4 * N.of_nat i + 1)%N;
                           (4 * N.of_nat i + 3)%N]
          /\ corners t2 = [(4 * N.of_nat i + 2)%N; (4 * N.of_nat i + 3)%N;
                           (4 * N.of_nat i + 1)%N]
          /\ In ((4 * N.of_nat i + 1)%N, (4 * N.of_nat i + 3)%N) (edges t1)
          /\ In ((4 * N.of_nat i + 3)%N, (4 * N.of_nat i + 1)%N) (edges t2)).
Proof.
  intros Hn ts. subst ts. rewrite (generateIndices_soup_exact n Hn).
  pose proof (Nat.div_mod_eq n 4) as Hdiv.
  pose proof (Nat.mod_upper_bound n 4 ltac:(discriminate)) as Hmod.
  split; [apply pairs_length |]. split; [| split].
  - intros tr c Htr Hc. apply in_flat_map in Htr as (i & Hi & Htr).
    apply in_seq in Hi.
    destruct Htr as [<- | [<- | []]]; cbn [corners] in Hc;
      destruct Hc as [<- | [<- | [<- | []]]]; lia.
  - intros v Hv.
    pose proof (Nat.div_mod_eq v 4) as Hvd.
    pose proof (Nat.mod_upper_bound v 4 ltac:(discriminate)) as Hvm.
    assert (Hi : In (v / 4)%nat (seq 0 (n / 4))) by (apply in_seq; lia).
    destruct (Nat.eq_dec (v mod 4)%nat 2%nat) as [E2 | N2].
    + eexists. split.
      * apply in_flat_map. exists (v / 4)%nat. split; [exact Hi |].
        right. left. reflexivity.
      * cbn [corners]. left. lia.
    + eexists. split.
      * apply in_flat_map. exists (v / 4)%nat. split; [exact Hi |].
        left. reflexivity.
      * cbn [corners].
        destruct (Nat.eq_dec (v mod 4)%nat 0%nat) as [E0 | N0]; [left; lia |].
        destruct (Nat.eq_dec (v mod 4)%nat 1%nat) as [E1 | N1];
          [right; left; lia | right; right; left; lia].
  - intros i Hi.
    destruct (pairs_nth
                (fun i => ((4 * N.of_nat i)%N, (4 * N.of_nat i + 1)%N,
                           (4 * N.of_nat i + 3)%N))
                (fun i => ((4 * N.of_nat i + 2)%N, (4 * N.of_nat i + 3)%N,
                           (4 * N.of_nat i + 1)%N))
                0 (n / 4) i Hi) as [E1 E2].
    cbn [Nat.add] in E1, E2.
    eexists. eexists. split; [exact E1 |]. split; [exact E2 |].
    cbn [corners edges]. repeat split; try reflexivity.
    + right. left. reflexivity.
    + right. left. reflexivity.
Qed.

Lemma generateIndices_indexed_length quads n :
  length (generateIndices (Some quads) n) = (2 * length quads)%nat.
Proof.
  unfold generateIndices.
  induction quads as [| [[[x y] z] w] rest IH]; [reflexivity |].
  cbn [flat_map app length]. rewrite IH. lia.
Qed.

(** X18 -- an indexed quad geometry becomes two triangles per index
    entry, whatever the number of vertices: entry [(x, y, z, w)] gives
    [(x, y, w)] and [(z, w, y)], which share the diagonal from [y] to [w]
    in opposite directions.  The corners of the triangles are exactly the
    indices of the entries; they are passed on without a range check. *)
Theorem generateIndices_indexed quads n :
  let ts := generateIndices (Some quads) n in
  length ts = (2 * length quads)%nat
  /\ (forall c, (exists tr, In tr ts /\ In c (corners tr))
                <-> exists x y z w, In (x, y, z, w) quads
                                    /\ (c = x \/ c = y \/ c = z \/ c = w))
  /\ (forall i x y z w,
        nth_error quads i = Some (x, y, z, w) ->
        exists t1 t2,
          nth_error ts (2 * i) = Some t1
          /\ nth_error ts (2 * i + 1) = Some t2
          /\ corners t1 = [x; y; w] /\ corners t2 = [z; w; y]
          /\ In (y, w) (edges t1) /\ In (w, y) (edges t2)).
Proof.
  cbv zeta. split; [apply generateIndices_indexed_length |].
  unfold generateIndices. split.
  - intros c. split.
    + intros (tr & Htr & Hc). apply in_flat_map in Htr as (q & Hq & Htr).
      destruct q as [[[x y] z] w]. exists x, y, z, w. split; [exact Hq |].
      destruct Htr as [<- | [<- | []]]; cbn [corners] in Hc;
        destruct Hc as [<- | [<- | [<- | []]]]; auto.
    + intros (x & y & z & w & Hq & Hc).
      destruct Hc as [-> | [-> | [-> | ->]]].
      * exists (x, y, w). split; [| left; reflexivity].
        apply in_flat_map. eexists. split; [exact Hq |]. left. reflexivity.
      * exists (x, y, w). split; [| right; left; reflexivity].
        apply in_flat_map. eexists. split; [exact Hq |]. left. reflexivity.
      * exists (z, w, y). split; [| left; reflexivity].
        apply in_flat_map. eexists. split; [exact Hq |].
        right. left. reflexivity.
      * exists (x, y, w). split; [| right; right; left; reflexivity].
        apply in_flat_map. eexists. split; [exact Hq |]. left. reflexivity.
  - induction quads as [| [[[a b] c] d] rest IH]; intros i x y z w Hi.
    + destruct i; discriminate.
    + destruct i as [| i].
      * injection Hi as -> -> -> ->.
        exists (x, y, w), (z, w, y). cbn [corners edges].
        repeat split; try reflexivity; right; left; reflexivity.
      * cbn [nth_error] in Hi. cbn [flat_map app].
        replace (2 * S i)%nat with (S (S (2 * i))) by lia.
        cbn [nth_error Nat.add]. apply IH. exact Hi.
Qed.

(** X19 -- what a commit leaves behind.  The geometry is valid exactly
    when 'vertex.position' is set.  In particular a soup whose vertex
    count is not a multiple of 4 is reported as an error and yet left
    valid: it keeps the triangle list of the previous commit, and the
    build input pairs that list with the new vertex array.  Without
    'vertex.position' the build input reads through a null pointer.  A
    commit that generates indices hands two triangles per quad to the
    build. *)
Theorem commit_leaves p s :
  let s' := fst (commit p s) in
  (isValid s' = true <-> is_Some (p_vertex p))
  /\ (forall vs, p_vertex p = Some vs -> p_index p = None ->
                 (length vs mod 4 <> 0)%nat ->
                 exists msg,
                   snd (commit p s) = [EvMessage ANARI_SEVERITY_ERROR msg]
                   /\ isValid s' = true
                   /\ m_indices s' = m_indices s
                   /\ populateBuildInput s'
                      = Some (length vs, length (m_indices s)))
  /\ (p_vertex p = None ->
      populateBuildInput s' = None /\ m_indices s' = m_indices s)
  /\ (forall vs, p_vertex p = Some vs ->
                 (is_Some (p_index p) \/ length vs mod 4 = 0)%nat ->
                 populateBuildInput s'
                 = Some (length vs,
                         (2 * match p_index p with
                              | Some quads => length quads
                              | None => length vs / 4
                              end)%nat)).
Proof.
  cbv zeta. unfold commit.
  destruct (p_vertex p) as [vs |] eqn:Ev.
  - destruct (p_index p) as [quads |] eqn:Ei.
    + cbn [fst snd]. split; [split; [eexists | ]; reflexivity |].
      split; [intros ? _ [=] |]. split; [intros [=] |].
      intros vs' [= <-] _. unfold populateBuildInput. cbn [m_vertex m_indices].
      rewrite generateIndices_indexed_length. reflexivity.
    + destruct (length vs mod 4 =? 0)%nat eqn:Em; cbn [negb fst snd].
      * apply Nat.eqb_eq in Em.
        split; [split; [eexists | ]; reflexivity |].
        split; [intros vs' [= <-] _ Hn; contradiction |]. split; [intros [=] |].
        intros vs' [= <-] _. unfold populateBuildInput.
        cbn [m_vertex m_indices]. unfold generateIndices.
        rewrite pairs_length. reflexivity.
      * apply Nat.eqb_neq in Em.
        split; [split; [eexists | ]; reflexivity |].
        split; [| split; [intros [=] |]].
        -- intros vs' [= <-] _ _. eexists. repeat split; reflexivity.
        -- intros vs' [= <-] [[q Hq] | H0]; [discriminate | contradiction].
  - cbn [fst snd]. split.
    + split; [discriminate | intros [x Hx]; discriminate].
    + split; [intros ? [=] |]. split; [split; reflexivity | intros ? [=]].
Qed.

End QuadProperties.

Lemma generateIndices_soup_witness :
  length (Quad.generateIndices None 8) = 4%nat
  /\ (forall tr c, In tr (Quad.generateIndices None 8) ->
                   In c (Quad.corners tr) -> (c < 8)%N).
Proof.
  assert (Hn : (N.of_nat 8 <= 4294967296)%N) by (vm_compute; discriminate).
  pose proof (generateIndices_soup 8 Hn) as (L & B & _).
  split; [exact L | exact B].
Defined.

Lemma commit_leaves_witness :
  let p := {| Quad.p_index := None;
              Quad.p_vertex :=
                Some (List.map (fun _ => SciVis.splat 0) (seq 0 5)) |} in
  let s := {| Quad.m_index := None; Quad.m_vertex := None;
              Quad.m_indices := [(0, 1, 3); (2, 3, 1)]%N |} in
  Quad.isValid (fst (Quad.commit p s)) = true
  /\ Quad.populateBuildInput (fst (Quad.commit p s)) = Some (5%nat, 2%nat).
Proof.
  intros p s.
  destruct (proj1 (proj2 (commit_leaves p s)) _ eq_refl eq_refl)
    as (msg & _ & V & _ & B); [vm_compute; discriminate |].
  split; [exact V | exact B].
Defined.

(** ** Structured regular fields *)

Section StructuredRegularProperties.

Import SciVis StructuredRegular.
Local Open Scope Q_scope.

Lemma makeFloatStagingBuffer_length array :
  length (makeFloatStagingBuffer array) = length (elements array).
Proof.
  unfold makeFloatStagingBuffer.
  destruct (elementType array); apply length_map.
Qed.

Lemma validFieldDataType_supported format :
  validFieldDataType format = true <-> format <> UNSUPPORTED.
Proof. destruct format; cbn; split; congruence. Qed.

(** What a commit uploads for an array of one of the eight types. *)
Lemma commit_supported p s array :
  data p = Some array ->
  validFieldDataType (elementType array) = true ->
  exists tex,
    commit p s = ({| m_params := p; m_textureObject := Some tex |}, [])
    /\ length (texels tex) = length (elements array)
    /\ extent tex = dims array
    /\ filterMode tex = (if bool_decide (filter p = "nearest")
                         then cudaFilterModePoint else cudaFilterModeLinear)
    /\ (elementType array = FLOAT32 -> texels tex = elements array).
Proof.
  intros Ed Ev. unfold commit. rewrite Ed, Ev. cbn [negb].
  eexists. split; [reflexivity |]. cbn [texels extent filterMode].
  split; [| split; [reflexivity | split; [reflexivity |]]].
  - destruct (isFloat32 (elementType array)); cbn [negb]; [reflexivity |].
    pose proof (makeFloatStagingBuffer_length array) as L.
    destruct (makeFloatStagingBuffer array); [reflexivity | exact L].
  - intros ->. reflexivity.
Qed.

Lemma commit_unsupported p s :
  match data p with
  | Some array => validFieldDataType (elementType array) = false
  | None => True
  end ->
  exists msg,
    commit p s = ({| m_params := p; m_textureObject := None |},
                  [EvMessage ANARI_SEVERITY_WARNING msg]).
Proof.
  unfold commit. destruct (data p) as [array |].
  - intros ->. eexists. reflexivity.
  - intros _. eexists. reflexivity.
Qed.

(** X20 -- after a commit the field is valid exactly when a texture was
    created, and exactly when nothing was reported: 'data' is set and has
    one of the eight element types.  The texture has one texel per
    element of the array and the extent of the array, it holds the
    elements themselves when they are [FLOAT32], and it is sampled at the
    nearest texel only for the filter name 'nearest'.  Nothing of the
    state before the commit survives. *)
Theorem commit_texture p s :
  let s' := fst (commit p s) in
  (is_Some (m_textureObject s') <-> isValid s' = true)
  /\ (snd (commit p s) = [] <-> isValid s' = true)
  /\ (isValid s' = true <->
      exists array, data p = Some array
                    /\ elementType array <> UNSUPPORTED)
  /\ (forall tex array,
        m_textureObject s' = Some tex -> data p = Some array ->
        length (texels tex) = length (elements array)
        /\ extent tex = dims array
        /\ (filterMode tex = cudaFilterModePoint <-> filter p = "nearest")
        /\ (elementType array = FLOAT32 -> texels tex = elements array))
  /\ m_params s' = p
  /\ (forall s0, commit p s0 = commit p s).
Proof.
  cbv zeta.
  assert (Cases :
    (exists array, data p = Some array
                   /\ validFieldDataType (elementType array) = true)
    \/ match data p with
       | Some array => validFieldDataType (elementType array) = false
       | None => True
       end).
  { destruct (data p) as [array |]; [| right; exact I].
    destruct (validFieldDataType (elementType array)) eqn:Ev;
      [left; eexists; split; [reflexivity | exact Ev] | right; reflexivity]. }
  destruct Cases as [(array & Ed & Ev) | Hbad].
  - destruct (commit_supported p s array Ed Ev) as (tex & Ec & Hl & He & Hf & H32).
    rewrite Ec. cbn [fst snd]. unfold isValid.
    cbn [m_params m_textureObject]. rewrite Ed, Ev.
    split; [split; [reflexivity | eexists; reflexivity] |].
    split; [split; reflexivity |].
    split; [split; [| reflexivity] |].
    { intros _. exists array. split; [reflexivity |].
      apply validFieldDataType_supported. exact Ev. }
    split; [| split; [reflexivity |]].
    + intros tex' array' [= <-] [= <-].
      split; [exact Hl |]. split; [exact He |]. split; [| exact H32].
      rewrite Hf. destruct (bool_decide (filter p = "nearest")) eqn:Ef.
      * apply bool_decide_eq_true in Ef. split; [intros _; exact Ef | reflexivity].
      * apply bool_decide_eq_false in Ef. split; [discriminate | contradiction].
    + intros s0. rewrite <- Ec. reflexivity.
  - destruct (commit_unsupported p s Hbad) as (msg & Ec).
    rewrite Ec. cbn [fst snd]. unfold isValid. cbn [m_params m_textureObject].
    assert (Inv : match data p with
                  | Some array => validFieldDataType (elementType array)
                  | None => false
                  end = false).
    { destruct (data p); [exact Hbad | reflexivity]. }
    rewrite Inv.
    split; [split; [intros [x Hx]; discriminate | discriminate] |].
    split; [split; discriminate |].
    split; [split; [discriminate |] |].
    { intros (array & Ed & Hs). rewrite Ed in Hbad.
      apply validFieldDataType_supported in Hs. congruence. }
    split; [intros tex array [=] |]. split; [reflexivity |].
    intros s0. rewrite <- Ec. reflexivity.
Qed.




End StructuredRegularProperties.



Lemma commit_texture_witness :
  let p := {| StructuredRegular.origin := SciVis.splat 0;
              StructuredRegular.spacing := SciVis.splat 1;
              StructuredRegular.filter := "nearest";
              StructuredRegular.data :=
                Some {| StructuredRegular.elementType :=
                          StructuredRegular.UFIXED8;
                        StructuredRegular.dims := (2, 1, 1)%N;
                        StructuredRegular.elements := [0%Q; 255%Q] |} |} in
  let s := {| StructuredRegular.m_params := p;
              StructuredRegular.m_textureObject := None |} in
  exists tex,
    StructuredRegular.m_textureObject (fst (StructuredRegular.commit p s))
    = Some tex
    /\ length (StructuredRegular.texels tex) = 2%nat
    /\ StructuredRegular.filterMode tex = StructuredRegular.cudaFilterModePoint.
Proof.
  intros p s.
  destruct (commit_texture p s) as (T & _ & _ & D & _).
  destruct (proj2 T eq_refl) as [tex E].
  destruct (D tex _ E eq_refl) as (L & _ & F & _).
  exists tex. split; [exact E |]. split; [exact L |]. apply F. reflexivity.
Defined.

(** ** The transfer function table, further *)

Section TransferFunctionFurther.

Import SciVis TransferFunction1D TransferFunctionTable.

Variable m_tfDim : nat.
Variable generateLinearPositions : nat -> box1 -> list Q.
Variable getInterpolatedColor : list vec3 -> list Q -> box1 -> Q -> vec3.
Variable getInterpolatedOpacity : list Q -> list Q -> box1 -> Q -> Q.

Let commitTable :=
  TransferFunctionTable.commit m_tfDim generateLinearPositions
    getInterpolatedColor getInterpolatedOpacity.

Lemma checkParams_passes p :
  checkParams p = None ->
  exists fld colors opacities,
    field p = Some fld /\ color p = Some colors /\ opacity p = Some opacities
    /\ (forall a, colorPosition p = Some a -> length colors = length a)
    /\ (forall a, opacityPosition p = Some a -> length opacities = length a).
Proof.
  unfold checkParams.
  destruct (field p) as [fld |]; [| discriminate].
  destruct (color p) as [colors |]; [| discriminate].
  destruct (opacity p) as [opacities |]; [| discriminate].
  intros Hc. exists fld, colors, opacities. repeat split.
  - intros a Ea. rewrite Ea in Hc.
    destruct (length colors =? length a)%nat eqn:E; [| discriminate].
    apply Nat.eqb_eq. exact E.
  - intros a Ea. rewrite Ea in Hc.
    destruct (match colorPosition p with
              | Some y => negb (length colors =? length y)%nat
              | None => false
              end); [discriminate |].
    destruct (length opacities =? length a)%nat eqn:E; [| discriminate].
    apply Nat.eqb_eq. exact E.
Qed.

Lemma checkParams_warning p sev msg :
  checkParams p = Some (sev, msg) ->
  (sev = ANARI_SEVERITY_WARNING
   /\ (field p = None \/ color p = None \/ opacity p = None))
  \/ (sev = ANARI_SEVERITY_ERROR
      /\ is_Some (field p) /\ is_Some (color p) /\ is_Some (opacity p)).
Proof.
  unfold checkParams.
  destruct (field p) as [fld |]; [| intros [= <- _]; left; auto].
  destruct (color p) as [colors |]; [| intros [= <- _]; left; auto].
  destruct (opacity p) as [opacities |]; [| intros [= <- _]; left; auto].
  intros Hc. right.
  assert (sev = ANARI_SEVERITY_ERROR).
  { destruct (match colorPosition p with
              | Some y => negb (length colors =? length y)%nat
              | None => false
              end); [injection Hc as <- _; reflexivity |].
    destruct (match opacityPosition p with
              | Some y => negb (length opacities =? length y)%nat
              | None => false
              end); [injection Hc as <- _; reflexivity | discriminate]. }
  repeat split; try assumption; eexists; reflexivity.
Qed.

(** X23 -- the table a commit builds has [m_tfDim] entries, and
    'opacity.position' is read only together with 'color.position': with
    'color.position' unset, a commit that passes the checks builds the
    table it would build with 'opacity.position' unset as well, from evenly
    generated opacity positions; the array is still checked for its size,
    so that one of another size than 'opacity' makes the commit fail
    although it would not be read.  With 'color.position' set the commit
    reads through 'opacity.position' whether it is set or not. *)
Theorem commit_opacity_position p :
  (forall tf, commitTable p = Committed tf -> length tf = m_tfDim)
  /\ (colorPosition p = None -> checkParams p = None ->
      exists tf, commitTable p = Committed tf
                 /\ commitTable (withoutOpacityPosition p) = Committed tf)
  /\ (forall opacities positions,
        colorPosition p = None -> opacity p = Some opacities ->
        opacityPosition p = Some positions ->
        is_Some (field p) -> is_Some (color p) ->
        length opacities <> length positions ->
        (exists msg, commitTable p = Rejected ANARI_SEVERITY_ERROR msg)
        /\ exists tf, commitTable (withoutOpacityPosition p) = Committed tf)
  /\ (is_Some (colorPosition p) -> checkParams p = None ->
      (commitTable p = NullDereference <-> opacityPosition p = None)).
Proof.
  unfold commitTable, TransferFunctionTable.commit,
    TransferFunctionTable.discritizeTFData.
  split; [| split; [| split]].
  - intros tf. destruct (checkParams p) as [[sev msg] |]; [discriminate |].
    destruct (color p), (opacity p); try discriminate.
    destruct (match colorPosition p with Some _ => _ | None => _ end);
      [| discriminate].
    intros [= <-]. rewrite length_map. apply length_seq.
  - intros Ecp Hc.
    destruct (checkParams_passes p Hc) as (fld & cs & os & Ef & Ec & Eo & _).
    assert (Hc' : checkParams (withoutOpacityPosition p) = None).
    { unfold checkParams, withoutOpacityPosition.
      cbn [field color opacity colorPosition opacityPosition].
      rewrite Ef, Ec, Eo, Ecp. reflexivity. }
    rewrite Hc, Hc'. unfold withoutOpacityPosition.
    cbn [field color opacity colorPosition opacityPosition valueRange].
    rewrite Ec, Eo, Ecp. eexists. split; reflexivity.
  - intros os ps Ecp Eo Eop [fld Ef] [cs Ec] Hlen. split.
    + unfold checkParams. rewrite Ef, Ec, Eo, Ecp, Eop.
      apply Nat.eqb_neq in Hlen. rewrite Hlen. cbn [negb].
      eexists. reflexivity.
    + unfold checkParams, withoutOpacityPosition.
      cbn [field color opacity colorPosition opacityPosition valueRange].
      rewrite Ef, Ec, Eo, Ecp. eexists. reflexivity.
  - intros [cp Ecp] Hc. rewrite Hc.
    destruct (checkParams_passes p Hc) as (fld & cs & os & Ef & Ec & Eo & _).
    rewrite Ec, Eo, Ecp.
    destruct (opacityPosition p); split; try discriminate; reflexivity.
Qed.

(** X24 -- validity after a commit.  The volume reports itself valid
    exactly when its field is valid and the commit did not end in one of
    the three warnings; a commit that ended in an error about array sizes,
    or in the read through the null 'opacity.position', leaves a volume
    that [isValid] accepts. *)
Theorem isValid_after_commit (fieldValid : Handle -> bool) p :
  (TransferFunctionState.isValid fieldValid p = true <->
   (exists fld, field p = Some fld /\ fieldValid fld = true)
   /\ forall msg, commitTable p <> Rejected ANARI_SEVERITY_WARNING msg)
  /\ (forall fld, field p = Some fld -> fieldValid fld = true ->
        (forall msg, commitTable p = Rejected ANARI_SEVERITY_ERROR msg ->
                     TransferFunctionState.isValid fieldValid p = true)
        /\ (commitTable p = NullDereference ->
            TransferFunctionState.isValid fieldValid p = true)).
Proof.
  assert (Rej : forall sev msg,
            commitTable p = Rejected sev msg <-> checkParams p = Some (sev, msg)).
  { intros sev msg. unfold commitTable, TransferFunctionTable.commit.
    destruct (checkParams p) as [[sev' msg'] |].
    - split; intros [= -> ->]; reflexivity.
    - destruct (TransferFunctionTable.discritizeTFData _ _ _ _ p);
        split; discriminate. }
  assert (Valid : TransferFunctionState.isValid fieldValid p = true <->
            exists fld cs os, field p = Some fld /\ color p = Some cs
                              /\ opacity p = Some os /\ fieldValid fld = true).
  { unfold TransferFunctionState.isValid.
    destruct (color p) as [cs |], (opacity p) as [os |], (field p) as [fld |];
      split; try discriminate;
      try (intros (? & ? & ? & ? & ? & ? & ?); discriminate).
    - intros Hf. exists fld, cs, os. auto.
    - intros (? & ? & ? & [= <-] & _ & _ & Hf). exact Hf. }
  assert (Present : (forall msg, commitTable p <> Rejected ANARI_SEVERITY_WARNING msg)
            <-> is_Some (field p) /\ is_Some (color p) /\ is_Some (opacity p)).
  { split.
    - intros Hno.
      destruct (checkParams p) as [[sev msg] |] eqn:Hc.
      + destruct (checkParams_warning p sev msg Hc) as [[-> _] | (_ & H)];
          [| exact H].
        exfalso. apply (Hno msg). apply Rej. reflexivity.
      + destruct (checkParams_passes p Hc) as (fld & cs & os & -> & -> & -> & _).
        repeat split; eexists; reflexivity.
    - intros ([fld Ef] & [cs Ec] & [os Eo]) msg Hr. apply Rej in Hr.
      destruct (checkParams_warning p _ _ Hr) as [(_ & [H | [H | H]]) | [H _]];
        congruence. }
  split.
  - rewrite Valid, Present. split.
    + intros (fld & cs & os & Ef & Ec & Eo & Hf).
      split; [exists fld; auto |]. rewrite Ef, Ec, Eo.
      repeat split; eexists; reflexivity.
    + intros [(fld & Ef & Hf) (_ & [cs Ec] & [os Eo])].
      exists fld, cs, os. auto.
  - intros fld Ef Hf. split.
    + intros msg Hr. apply Valid. apply Rej in Hr.
      destruct (checkParams_warning p _ _ Hr) as [[[=] _] | (_ & _ & [cs Ec] & [os Eo])].
      exists fld, cs, os. auto.
    + intros Hn. apply Valid.
      unfold commitTable, TransferFunctionTable.commit in Hn.
      destruct (checkParams p) as [[sev msg] |] eqn:Hc; [discriminate |].
      destruct (checkParams_passes p Hc) as (fld' & cs & os & Ef' & Ec & Eo & _).
      exists fld, cs, os. auto.
Qed.

End TransferFunctionFurther.

Lemma commit_opacity_position_witness :
  let p := TransferFunctionTable.positions_for_opacity_only [0; 1]%Q in
  (exists tf,
     TransferFunctionTable.sampleCommit p = TransferFunction1D.Committed tf
     /\ TransferFunctionTable.sampleCommit
          (TransferFunctionTable.withoutOpacityPosition p)
        = TransferFunction1D.Committed tf)
  /\ TransferFunctionTable.sampleCommit
       TransferFunction1D.positions_for_color_only
     = TransferFunction1D.NullDereference.
Proof.
  intros p. split.
  - apply (proj1 (proj2 (commit_opacity_position 4
                           TransferFunctionTable.evenPositions
                           TransferFunctionTable.stepColor
                           TransferFunctionTable.stepOpacity p)));
      reflexivity.
  - refine (proj2 (proj2 (proj2 (proj2 (commit_opacity_position 4
                           TransferFunctionTable.evenPositions
                           TransferFunctionTable.stepColor
                           TransferFunctionTable.stepOpacity
                           TransferFunction1D.positions_for_color_only)))
                     _ _) _);
      [eexists; reflexivity | reflexivity | reflexivity].
Defined.

Lemma isValid_after_commit_witness :
  let p := TransferFunctionTable.positions_for_opacity_only [0; 1; 2]%Q in
  (exists msg, TransferFunctionTable.sampleCommit p
               = TransferFunction1D.Rejected ANARI_SEVERITY_ERROR msg)
  /\ TransferFunctionState.isValid (fun _ => true) p = true.
Proof.
  intros p.
  assert (R : exists msg, TransferFunctionTable.sampleCommit p
                          = TransferFunction1D.Rejected ANARI_SEVERITY_ERROR msg)
    by (eexists; vm_compute; reflexivity).
  split; [exact R |]. destruct R as [msg R].
  exact (proj1 (proj2 (isValid_after_commit 4
                         TransferFunctionTable.evenPositions
                         TransferFunctionTable.stepColor
                         TransferFunctionTable.stepOpacity
                         (fun _ => true) p) 1%positive eq_refl eq_refl)
           msg R).
Defined.
